(** * The pipeline registries of kredencstudio/core

    Two parts of the repository are covered.

    - [Starter]: a shallow embedding of [pyblish_starter/pipeline.py]: the
      host registry ([register_host], [registered_host], [deregister_host],
      [install], [uninstall]) and the data, family and format registries.
      Module globals become fields of an explicit state, Python objects
      that are shared and mutated (the registry lists, the host modules)
      live in a store indexed by locations, and exceptions are values of
      an error monad. [ls] and [debug_host], which read the file system
      and print JSON, are left out.

    - [Avalon]: the plug-in path registry, discovery and the event bus of
      [avalon/pipeline.py], which [avalon/tests/test_pipeline.py]
      exercises. *)

From stdpp Require Import gmap strings list sorting.

Open Scope string_scope.
Open Scope list_scope.

(** ** Python scaffolding shared by both parts *)

(** Exceptions, by class, with their message. *)
Inductive exn : Type :=
  | AssertionError (msg : string)
  | AttributeError (msg : string)
  | TypeError (msg : string)
  | ValueError (msg : string)
  | IndexError (msg : string)
  | Exception (msg : string).

(** The outcome of a call: a value, or a raised error of type [E]. *)
Inductive result (E A : Type) : Type :=
  | Ok (a : A)
  | Err (e : E).
Arguments Ok {E A} a.
Arguments Err {E A} e.

(** Stateful, fallible computations over a state [S]. A raised error
    keeps the state reached when it was raised, as in Python. *)
Definition M (S E A : Type) : Type := S -> result E A * S.

Definition ret {S E A} (a : A) : M S E A := fun s => (Ok a, s).

Definition bind {S E A B} (m : M S E A) (k : A -> M S E B) : M S E B :=
  fun s => match m s with
           | (Ok a, s') => k a s'
           | (Err e, s') => (Err e, s')
           end.

Definition raise {S E A} (e : E) : M S E A := fun s => (Err e, s).

Definition gets {S E A} (f : S -> A) : M S E A := fun s => (Ok (f s), s).
Definition modify {S E} (f : S -> S) : M S E unit := fun s => (Ok tt, f s).

(** [try: m except <errors accepted by handles>: h]. *)
Definition try_except {S E A} (m : M S E A) (handles : E -> bool)
    (h : E -> M S E A) : M S E A :=
  fun s => match m s with
           | (Ok a, s') => (Ok a, s')
           | (Err e, s') => if handles e then h e s' else (Err e, s')
           end.

(** [m] keeps the property [P] of the state, whether it returns or
    raises. *)
Definition preserves {S E A} (P : S -> Prop) (m : M S E A) : Prop :=
  forall s, P s -> P (m s).2.

(** [for x in xs: acc = body(acc, x)] *)
Fixpoint for_each {S E A B} (xs : list A) (body : B -> A -> M S E B)
    (acc : B) : M S E B :=
  match xs with
  | [] => ret acc
  | x :: rest => bind (body acc x) (for_each rest body)
  end.

Declare Scope py_scope.
Delimit Scope py_scope with py.
Notation "x <- m ;; k" := (bind m (fun x => k))
  (at level 100, m at next level, right associativity) : py_scope.
Notation "m ;; k" := (bind m (fun _ => k))
  (at level 100, right associativity) : py_scope.
Open Scope py_scope.

(** [type(e).__name__] *)
Definition exn_class (e : exn) : string :=
  match e with
  | AssertionError _ => "AssertionError"
  | AttributeError _ => "AttributeError"
  | TypeError _ => "TypeError"
  | ValueError _ => "ValueError"
  | IndexError _ => "IndexError"
  | Exception _ => "Exception"
  end.

Definition is_AttributeError (e : exn) : bool :=
  match e with AttributeError _ => true | _ => false end.
Definition is_ValueError (e : exn) : bool :=
  match e with ValueError _ => true | _ => false end.

(** [sep.join(l)] *)
Fixpoint join (sep : string) (l : list string) : string :=
  match l with
  | [] => ""
  | [x] => x
  | x :: rest => x +:+ sep +:+ join sep rest
  end.

(** [s in t] on strings. *)
Definition substring_of (s t : string) : Prop :=
  exists pre post, t = pre +:+ s +:+ post.

(** Object identities. A location is never reused. *)
Definition loc := positive.

(** Plain data. A dictionary or a list that is an item of a registry is a
    value here: the operations modelled change the registry lists, not
    their items. Dictionaries keep their insertion order. *)
#[warnings="-register-all"] Inductive pyval : Type :=
  | VNone
  | VInt (z : Z)
  | VStr (s : string)
  | VList (l : list pyval)
  | VDict (d : list (string * pyval)).

(** Truth value testing, as used by [x or y]. *)
Definition truthy (v : pyval) : bool :=
  match v with
  | VNone => false
  | VInt z => negb (Z.eqb z 0)
  | VStr s => negb (String.eqb s "")
  | VList l => match l with [] => false | _ => true end
  | VDict d => match d with [] => false | _ => true end
  end.

(** [x or y] *)
Definition py_or (x y : pyval) : pyval := if truthy x then x else y.

(** [x or y] where [x] is an optional argument defaulting to [None]. *)
Definition opt_or (x : option pyval) (y : pyval) : pyval :=
  py_or (default VNone x) y.

(** What a callable can see and change outside the pipeline module. *)
Record world : Type := World {
  cwd : string;      (* os.getcwd() *)
  stdout : string    (* what has been written to sys.stdout *)
}.

(** A callable: positional arguments in, a value or an exception out. The
    callables modelled are the lambdas of the module and hooks that act on
    the world outside it; a hook of a host may also call back into the
    module, which is why what is proved of [install], [uninstall] and [ls]
    around a hook is stated from the state the hook leaves, whatever that
    state is. *)
Definition pyfun : Type :=
  list pyval -> world -> result exn pyval * world.

(** An attribute of an object: plain data or a callable. *)
Inductive attr : Type :=
  | AValue (v : pyval)
  | ACallable (f : pyfun).

(** An object as the pipeline sees it: what [str()] gives for it and the
    attributes that [getattr] finds on it. *)
Record pyobject : Type := PyObject {
  obj_str : string;
  obj_dict : gmap string attr
}.

(** [types.ModuleType(name)]: a new module object, whose [__dict__] holds
    [__name__] and [__doc__]. *)
Definition new_module (name : string) : pyobject :=
  {| obj_str := "<module '" +:+ name +:+ "'>";
     obj_dict := {[ "__name__" := AValue (VStr name);
                    "__doc__" := AValue VNone ]} |}.

(** [module.__dict__.update(entries)] *)
Definition dict_update (entries : list (string * attr)) (o : pyobject)
    : pyobject :=
  {| obj_str := obj_str o;
     obj_dict := foldl (fun d kv => <[kv.1 := kv.2]> d) (obj_dict o) entries |}.

Definition newline : string := String (Ascii.ascii_of_nat 10) EmptyString.

(** ** pyblish_starter/pipeline.py *)

Module Starter.

(** [pyblish.api] is an external library: its registry of plug-in paths is
    kept abstract, together with the directory of the accompanying
    [plugins] package. *)
Class pyblish_api : Type := PyblishApi {
  ApiState : Type;
  api_register_plugin_path : string -> ApiState -> result exn unit * ApiState;
  api_deregister_plugin_path : string -> ApiState -> result exn unit * ApiState;
  plugin_path : string      (* os.path.dirname(plugins.__file__) *)
}.

Section Pipeline.

Context `{pyblish_api}.

(** The globals of the module, the store of the objects they refer to, and
    the surroundings. *)
Record state : Type := State {
  objects : gmap loc pyobject;        (* objects with attributes *)
  lists : gmap loc (list pyval);      (* list objects *)
  next_loc : loc;                     (* identity of the next new object *)
  _registered_data : loc;
  _registered_families : loc;
  _registered_formats : loc;
  _registered_host : loc;
  log : list (string * string);       (* records of self.log: level, message *)
  env : world;
  api : ApiState
}.

Definition set_objects (f : gmap loc pyobject -> gmap loc pyobject)
    (s : state) : state :=
  State (f (objects s)) (lists s) (next_loc s) (_registered_data s)
    (_registered_families s) (_registered_formats s) (_registered_host s)
    (log s) (env s) (api s).

Definition set_lists (f : gmap loc (list pyval) -> gmap loc (list pyval))
    (s : state) : state :=
  State (objects s) (f (lists s)) (next_loc s) (_registered_data s)
    (_registered_families s) (_registered_formats s) (_registered_host s)
    (log s) (env s) (api s).

Definition set_next_loc (n : loc) (s : state) : state :=
  State (objects s) (lists s) n (_registered_data s)
    (_registered_families s) (_registered_formats s) (_registered_host s)
    (log s) (env s) (api s).

Definition set_registered_host (h : loc) (s : state) : state :=
  State (objects s) (lists s) (next_loc s) (_registered_data s)
    (_registered_families s) (_registered_formats s) h
    (log s) (env s) (api s).

Definition set_log (f : list (string * string) -> list (string * string))
    (s : state) : state :=
  State (objects s) (lists s) (next_loc s) (_registered_data s)
    (_registered_families s) (_registered_formats s) (_registered_host s)
    (f (log s)) (env s) (api s).

Definition set_env (w : world) (s : state) : state :=
  State (objects s) (lists s) (next_loc s) (_registered_data s)
    (_registered_families s) (_registered_formats s) (_registered_host s)
    (log s) w (api s).

Definition set_api (a : ApiState) (s : state) : state :=
  State (objects s) (lists s) (next_loc s) (_registered_data s)
    (_registered_families s) (_registered_formats s) (_registered_host s)
    (log s) (env s) a.

Abbreviation Py := (M state exn).

(** *** Objects *)

Definition alloc_object (o : pyobject) : Py loc :=
  fun s => let l := next_loc s in
           (Ok l, set_next_loc (Pos.succ l) (set_objects <[l := o]> s)).

Definition alloc_list (xs : list pyval) : Py loc :=
  fun s => let l := next_loc s in
           (Ok l, set_next_loc (Pos.succ l) (set_lists <[l := xs]> s)).

(** The attributes of the object at [l]. *)
Definition attrs_of (s : state) (l : loc) : gmap string attr :=
  match objects s !! l with
  | Some o => obj_dict o
  | None => ∅
  end.

(** [hasattr(obj, name)] *)
Definition hasattr (l : loc) (name : string) : Py bool :=
  gets (fun s => bool_decide (is_Some (attrs_of s l !! name))).

(** [obj.name] *)
Definition getattr (l : loc) (name : string) : Py attr :=
  fun s => match attrs_of s l !! name with
           | Some a => (Ok a, s)
           | None => (Err (AttributeError name), s)
           end.

(** What [str()] gives for the object at [l]. *)
Definition str_of (s : state) (l : loc) : string :=
  match objects s !! l with
  | Some o => obj_str o
  | None => ""
  end.

(** [str(obj)] *)
Definition str (l : loc) : Py string := gets (fun s => str_of s l).

(** [f(args...)] *)
Definition call (a : attr) (args : list pyval) : Py pyval :=
  match a with
  | ACallable f =>
      fun s => let '(r, w) := f args (env s) in (r, set_env w s)
  | AValue _ => raise (TypeError "object is not callable")
  end.

(** [obj.name(args...)] *)
Definition call_method (l : loc) (name : string) (args : list pyval)
    : Py pyval :=
  f <- getattr l name ;; call f args.

(** The contents of the list object at [l]. *)
Definition list_items (s : state) (l : loc) : list pyval :=
  default [] (lists s !! l).

(** [lst.append(x)] *)
Definition list_append (l : loc) (x : pyval) : Py unit :=
  modify (fun s => set_lists <[l := list_items s l ++ [x]]> s).

(** [lst[:] = xs] *)
Definition list_assign (l : loc) (xs : list pyval) : Py unit :=
  modify (set_lists <[l := xs]>).

(** [lst[:]]: a new list object with the same items. *)
Definition list_copy (l : loc) : Py loc :=
  xs <- gets (fun s => list_items s l) ;; alloc_list xs.

(** [self.log.info(msg)], [self.log.warning(msg)] *)
Definition log_info (msg : string) : Py unit :=
  modify (set_log (fun r => r ++ [("INFO", msg)])).
Definition log_warning (msg : string) : Py unit :=
  modify (set_log (fun r => r ++ [("WARNING", msg)])).

(** [assert cond, msg]: the message is only built when the test fails. *)
Definition py_assert (cond : bool) (msg : Py string) : Py unit :=
  if cond then ret tt else (m <- msg ;; raise (AssertionError m)).

(** *** The module *)

Definition lambda_root : pyfun := fun args w =>
  match args with
  | [] => (Ok (VStr (cwd w)), w)
  | _ => (Err (TypeError "<lambda>() takes 0 positional arguments"), w)
  end.

Definition lambda_load : pyfun := fun args w =>
  match args with
  | [asset; version; representation] => (Ok VNone, w)
  | _ => (Err (TypeError "<lambda>() takes 3 positional arguments"), w)
  end.

Definition lambda_create : pyfun := fun args w =>
  match args with
  | [name; family] => (Ok (VStr "my_instance"), w)
  | _ => (Err (TypeError "<lambda>() takes 2 positional arguments"), w)
  end.

(** The module object that [default_host] builds. *)
Definition default_module : pyobject :=
  dict_update [("root", ACallable lambda_root);
               ("load", ACallable lambda_load);
               ("create", ACallable lambda_create)]
    (new_module "default").

Definition default_host : Py loc := alloc_object default_module.

Definition required_members : list string := ["root"; "load"; "create"].

Definition register_host (host : loc) : Py unit :=
  missing <- for_each required_members
               (fun missing member =>
                  b <- hasattr host member ;;
                  ret (if negb b then missing ++ [member] else missing))
               [] ;;
  py_assert (bool_decide (missing = []))
    (h <- str host ;;
     ret ("Incomplete interface for host: '" +:+ h +:+ "'" +:+ newline +:+
          "Missing: " +:+ join ", " missing)) ;;
  modify (set_registered_host host).

Definition registered_host : Py loc := gets _registered_host.

Definition deregister_host : Py unit :=
  h <- default_host ;; modify (set_registered_host h).

Definition register_format (format : pyval) : Py unit :=
  l <- gets _registered_formats ;; list_append l format.

Definition register_data (key value : pyval) (help : option pyval)
    : Py unit :=
  l <- gets _registered_data ;;
  list_append l (VDict [("key", key); ("value", value);
                        ("help", opt_or help (VStr ""))]).

Definition register_family (name : pyval) (data help : option pyval)
    : Py unit :=
  l <- gets _registered_families ;;
  list_append l (VDict [("name", name); ("data", opt_or data (VList []));
                        ("help", opt_or help (VStr ""))]).

Definition register_default_data : Py unit :=
  register_data (VStr "id") (VStr "pyblish.starter.instance") None ;;
  register_data (VStr "name") (VStr "{name}") None ;;
  register_data (VStr "family") (VStr "{family}") None.

Definition register_default_families : Py unit :=
  register_family (VStr "starter.model") None
    (Some (VStr "Polygonal geometry for animation")) ;;
  register_family (VStr "starter.rig") None (Some (VStr "Character rig")) ;;
  register_family (VStr "starter.animation") None (Some (VStr "Pointcache")).

Definition registered_formats : Py loc :=
  l <- gets _registered_formats ;; list_copy l.

Definition registered_families : Py loc :=
  l <- gets _registered_families ;; list_copy l.

Definition registered_data : Py loc :=
  l <- gets _registered_data ;; list_copy l.

Definition deregister_default_families : Py unit :=
  l <- gets _registered_families ;; list_assign l [].

Definition deregister_default_data : Py unit :=
  l <- gets _registered_data ;; list_assign l [].

(** A call into [pyblish.api]. *)
Definition api_call (f : ApiState -> result exn unit * ApiState) : Py unit :=
  fun s => let '(r, a) := f (api s) in (r, set_api a s).

Definition register_plugins : Py unit :=
  api_call (api_register_plugin_path plugin_path).

Definition deregister_plugins : Py unit :=
  try_except (api_call (api_deregister_plugin_path plugin_path))
    is_ValueError
    (fun _ => log_warning "pyblish-starter plug-ins not registered.").

Definition install (host : loc) : Py unit :=
  b <- hasattr host "install" ;;
  (if b then (_ <- call_method host "install" [] ;; ret tt) else ret tt) ;;
  register_host host ;;
  register_plugins ;;
  register_default_data ;;
  register_default_families ;;
  log_info "Successfully installed Pyblish Starter!".

Definition uninstall : Py unit :=
  try_except
    (h <- registered_host ;; _ <- call_method h "uninstall" [] ;; ret tt)
    is_AttributeError (fun _ => ret tt) ;;
  deregister_host ;;
  deregister_plugins ;;
  deregister_default_data ;;
  deregister_default_families ;;
  log_info "Successfully uninstalled Pyblish Starter!".

(** The top level of the module: three empty registry lists, then a
    default host. *)
Definition import_module : Py unit :=
  data <- alloc_list [] ;;
  families <- alloc_list [] ;;
  formats <- alloc_list [] ;;
  host <- default_host ;;
  modify (fun s => State (objects s) (lists s) (next_loc s) data families
                     formats host (log s) (env s) (api s)).

(** The state once the module has been imported. *)
Definition initial_state (w : world) (a : ApiState) : state :=
  (import_module
     (State ∅ ∅ 1%positive 1%positive 1%positive 1%positive 1%positive
        [] w a)).2.

(** *** What a caller can do with a list it was handed *)

(** Removal of the first item accepted by [test]. *)
Fixpoint remove_first (test : pyval -> bool) (xs : list pyval)
    : option (list pyval) :=
  match xs with
  | [] => None
  | x :: rest =>
      if test x then Some rest
      else match remove_first test rest with
           | Some rest' => Some (x :: rest')
           | None => None
           end
  end.

(** In-place operations of a Python list. *)
Inductive list_op : Type :=
  | LAppend (x : pyval)               (* lst.append(x) *)
  | LExtend (ys : list pyval)         (* lst.extend(ys) *)
  | LInsert (i : nat) (x : pyval)     (* lst.insert(i, x) *)
  | LRemove (eq_x : pyval -> bool)    (* lst.remove(x), eq_x being == x *)
  | LPop (i : nat)                    (* lst.pop(i), del lst[i] *)
  | LSetitem (i : nat) (x : pyval)    (* lst[i] = x *)
  | LClear.                           (* del lst[:] *)

Definition apply_list_op (op : list_op) (xs : list pyval)
    : result exn (list pyval) :=
  match op with
  | LAppend x => Ok (xs ++ [x])
  | LExtend ys => Ok (xs ++ ys)
  | LInsert i x => Ok (take i xs ++ x :: drop i xs)
  | LRemove eq_x =>
      match remove_first eq_x xs with
      | Some xs' => Ok xs'
      | None => Err (ValueError "list.remove(x): x not in list")
      end
  | LPop i =>
      if bool_decide (i < length xs) then Ok (delete i xs)
      else Err (IndexError "pop index out of range")
  | LSetitem i x =>
      if bool_decide (i < length xs) then Ok (<[i := x]> xs)
      else Err (IndexError "list assignment index out of range")
  | LClear => Ok []
  end.

(** One operation on the object at [l], which has to be a list. *)
Definition mutate (l : loc) (op : list_op) : Py unit :=
  fun s => match lists s !! l with
           | None => (Err (AttributeError "not a list"), s)
           | Some xs =>
               match apply_list_op op xs with
               | Ok xs' => (Ok tt, set_lists <[l := xs']> s)
               | Err e => (Err e, s)
               end
           end.

(** A series of operations on the list object at [l], failed ones
    included. *)
Definition mutate_all (l : loc) (ops : list list_op) (s : state) : state :=
  foldl (fun s op => (mutate l op s).2) s ops.

(** What the program around the module can do, one step at a time: call
    a function of the module, create an object, change a list it holds, call
    a function of the active host. *)
Inductive action : Type :=
  | AInstall (host : loc)
  | AUninstall
  | ARegisterHost (host : loc)
  | ADeregisterHost
  | ARegisteredHost
  | ARegisterFormat (format : pyval)
  | ARegisterData (key value : pyval) (help : option pyval)
  | ARegisterFamily (name : pyval) (data help : option pyval)
  | ARegisterDefaultData
  | ARegisterDefaultFamilies
  | ARegisteredFormats
  | ARegisteredFamilies
  | ARegisteredData
  | ADeregisterDefaultFamilies
  | ADeregisterDefaultData
  | ARegisterPlugins
  | ADeregisterPlugins
  | ANewObject (o : pyobject)
  | AMutate (l : loc) (op : list_op)
  | ACallHost (name : string) (args : list pyval).

Definition step (a : action) (s : state) : state :=
  match a with
  | AInstall host => (install host s).2
  | AUninstall => (uninstall s).2
  | ARegisterHost host => (register_host host s).2
  | ADeregisterHost => (deregister_host s).2
  | ARegisteredHost => (registered_host s).2
  | ARegisterFormat format => (register_format format s).2
  | ARegisterData key value help => (register_data key value help s).2
  | ARegisterFamily name data help => (register_family name data help s).2
  | ARegisterDefaultData => (register_default_data s).2
  | ARegisterDefaultFamilies => (register_default_families s).2
  | ARegisteredFormats => (registered_formats s).2
  | ARegisteredFamilies => (registered_families s).2
  | ARegisteredData => (registered_data s).2
  | ADeregisterDefaultFamilies => (deregister_default_families s).2
  | ADeregisterDefaultData => (deregister_default_data s).2
  | ARegisterPlugins => (register_plugins s).2
  | ADeregisterPlugins => (deregister_plugins s).2
  | ANewObject o => (alloc_object o s).2
  | AMutate l op => (mutate l op s).2
  | ACallHost name args =>
      ((h <- registered_host ;; call_method h name args) s).2
  end.

Definition run (acts : list action) (s : state) : state :=
  foldl (fun s a => step a s) s acts.

(** The steps that put a host in place. *)
Definition registers_host (a : action) : bool :=
  match a with
  | AInstall _ | ARegisterHost _ => true
  | _ => false
  end.

(** Every object was created before [next_loc], and the globals refer to
    objects of the right kind. *)
Definition wf (s : state) : Prop :=
  (forall l, is_Some (lists s !! l) -> (l < next_loc s)%positive) /\
  (forall l, is_Some (objects s !! l) -> (l < next_loc s)%positive) /\
  is_Some (lists s !! _registered_data s) /\
  is_Some (lists s !! _registered_families s) /\
  is_Some (lists s !! _registered_formats s) /\
  is_Some (objects s !! _registered_host s).

(** The active host is a default host, as [default_host] builds it. *)
Definition default_installed (s : state) : Prop :=
  objects s !! _registered_host s = Some default_module /\
  (_registered_host s < next_loc s)%positive.

(** The members of [required_members] that the object at [host] lacks. *)
Definition missing_members (s : state) (host : loc) : list string :=
  filter (fun member => attrs_of s host !! member = None) required_members.

(** The contract of the default host: [root()] returns the current
    working directory, [load(asset, version, representation)] returns
    [None] and [create(name, family)] returns an identifier, all three
    leaving the state as it is. *)
Definition default_host_contract (s : state) (h : loc) : Prop :=
  call_method h "root" [] s = (Ok (VStr (cwd (env s))), s) /\
  (forall asset version representation,
     call_method h "load" [asset; version; representation] s = (Ok VNone, s)) /\
  (forall name family,
     exists ident, call_method h "create" [name; family] s = (Ok (VStr ident), s)).

(** [m] invokes the [uninstall()] hook of the active host: when the host
    has one, the world after [m] is the world the hook leaves. *)
Definition invokes_uninstall_hook (m : Py unit) (s : state) : Prop :=
  forall f : pyfun,
    attrs_of s (_registered_host s) !! "uninstall" = Some (ACallable f) ->
    env (m s).2 = (f [] (env s)).2.

(** [m] fails at [s] with an exception of the class named [cls]. *)
Definition fails_with {A} (cls : string) (m : Py A) (s : state) : Prop :=
  exists e, (m s).1 = Err e /\ exn_class e = cls.

(** An accessor that hands out a copy of a registry list: the list it
    returns is a new object with the items of the registry, and whatever is
    done to that object, the registry keeps its items and the next call of
    the accessor returns them again. *)
Definition hands_out_copy (accessor : Py loc) (registry : state -> loc)
    (s : state) : Prop :=
  exists l s1,
    accessor s = (Ok l, s1) /\
    lists s !! l = None /\
    l <> registry s /\
    list_items s1 l = list_items s (registry s) /\
    forall ops : list list_op,
      let s2 := mutate_all l ops s1 in
      list_items s2 (registry s2) = list_items s (registry s) /\
      exists l' s3,
        accessor s2 = (Ok l', s3) /\
        list_items s3 l' = list_items s (registry s).

End Pipeline.

End Starter.

(** ** avalon/pipeline.py

    The tests of [avalon/tests/test_pipeline.py] drive [register_plugin_path],
    [deregister_plugin_path], [registered_plugin_paths], [discover], [on] and
    [emit] of [avalon/pipeline.py]; that module is described by the
    specification (sections 3, 4.1 to 4.3 and 7). *)

Module Avalon.

(** Modelled from the spec: the named errors of section 7 that the path
    registry and discovery of the missing [avalon/pipeline.py] raise;
    [Raised] carries an exception coming out of foreign code (a callback, a
    plug-in file being imported) until it is caught. *)
Inductive error : Type :=
  | NotRegisteredError
  | InvalidCategoryError
  | Raised (e : exn).

(** Modelled from the spec: a Category of the missing [avalon/pipeline.py]
    is a capability tag, compared by identity. *)
Definition category : Type := string.

(** Modelled from the spec: a PluginPath of the missing
    [avalon/pipeline.py], a directory of the file system. *)
Definition path : Type := string.

(** Modelled from the spec: a PluginClass of the missing
    [avalon/pipeline.py], a top-level definition of a module: its qualified
    name, the operations it exposes, and the category it is the abstract
    marker of, when it is one. *)
Record plugin : Type := Plugin {
  qualname : string;
  operations : list string;
  marker_of : option category
}.

(** Modelled from the spec: a candidate source file of a plug-in directory
    read by the missing [discover]; importing it gives its top-level
    definitions or fails with an exception. *)
Record source_file : Type := SourceFile {
  file_name : string;
  file_load : result exn (list plugin)
}.

(** Modelled from the spec: the directories the missing [discover] lists,
    each with its flat listing, in listing order. *)
Definition filesystem : Type := gmap path (list source_file).

(** Modelled from the spec: the warnings the missing [discover] and [emit]
    log instead of failing. *)
Inductive warning : Type :=
  | WDirectory (p : path)
  | WImport (p : path) (file : string) (e : exn)
  | WCallback (h : loc) (e : exn).

(** Modelled from the spec: the duck-typed capability contract that the
    missing [discover] checks: every required operation is exposed, and the
    definition is not the abstract marker of the category itself. *)
Definition qualifies (required : list string) (c : category) (d : plugin)
    : bool :=
  forallb (fun op => bool_decide (op ∈ operations d)) required
  && negb (bool_decide (marker_of d = Some c)).

(** Modelled from the spec: step 5 of the missing [discover], deduplication
    by qualified name that keeps the first one seen. *)
Fixpoint dedup_by_name (seen : list string) (l : list plugin) : list plugin :=
  match l with
  | [] => []
  | d :: rest =>
      if bool_decide (qualname d ∈ seen) then dedup_by_name seen rest
      else d :: dedup_by_name (qualname d :: seen) rest
  end.

(** Modelled from the spec: what one directory contributes to the missing
    [discover] (steps 2 to 4): the qualifying definitions of every file that
    loads, in listing order; nothing for a file that fails to load or a
    directory that cannot be listed. *)
Definition directory_plugins (required : list string) (c : category)
    (fs : filesystem) (p : path) : list plugin :=
  match fs !! p with
  | None => []
  | Some files =>
      concat (map (fun f => match file_load f with
                            | Ok defs => filter (fun d => qualifies required c d) defs
                            | Err _ => []
                            end) files)
  end.

Section Session.

(** The state of the surrounding program that callbacks act upon. *)
Context {U : Type}.

(** Modelled from the spec: a callback handed to the missing [on]: called
    with the payload, it acts on the program state and returns or raises. *)
Definition callback : Type := list pyval -> U -> result exn unit * U.

(** Modelled from the spec: the process-wide registries of the missing
    [avalon/pipeline.py] (PathRegistry, static registrations, root, EventBus)
    with the callback objects that are still referenced elsewhere ([live]);
    a handle is the identity of a callback, held weakly. [trace] records the
    handles invoked, in order. *)
Record session : Type := Session {
  plugin_paths : gmap category (list path);
  static_plugins : gmap category (list plugin);
  root : option path;
  handlers : gmap string (list loc);
  live : gmap loc callback;
  next_ref : loc;
  warnings : list warning;
  trace : list loc;
  user : U
}.

Definition set_plugin_paths
    (f : gmap category (list path) -> gmap category (list path))
    (s : session) : session :=
  Session (f (plugin_paths s)) (static_plugins s) (root s) (handlers s)
    (live s) (next_ref s) (warnings s) (trace s) (user s).

Definition set_root (r : option path) (s : session) : session :=
  Session (plugin_paths s) (static_plugins s) r (handlers s)
    (live s) (next_ref s) (warnings s) (trace s) (user s).

Definition set_handlers
    (f : gmap string (list loc) -> gmap string (list loc))
    (s : session) : session :=
  Session (plugin_paths s) (static_plugins s) (root s) (f (handlers s))
    (live s) (next_ref s) (warnings s) (trace s) (user s).

Definition set_live (f : gmap loc callback -> gmap loc callback)
    (n : loc) (s : session) : session :=
  Session (plugin_paths s) (static_plugins s) (root s) (handlers s)
    (f (live s)) n (warnings s) (trace s) (user s).

Definition set_warnings (f : list warning -> list warning) (s : session)
    : session :=
  Session (plugin_paths s) (static_plugins s) (root s) (handlers s)
    (live s) (next_ref s) (f (warnings s)) (trace s) (user s).

Definition set_invoked (h : loc) (u : U) (s : session) : session :=
  Session (plugin_paths s) (static_plugins s) (root s) (handlers s)
    (live s) (next_ref s) (warnings s) (trace s ++ [h]) u.

Abbreviation Av := (M session error).

(** Modelled from the spec: logging a warning, in the missing
    [avalon/pipeline.py]. *)
Definition warn (w : warning) : Av unit :=
  modify (set_warnings (fun ws => ws ++ [w])).

(** *** PathRegistry *)

(** Modelled from the spec: the ordered paths that the PathRegistry of the
    missing [avalon/pipeline.py] holds for a category. *)
Definition paths_of (s : session) (c : category) : list path :=
  default [] (plugin_paths s !! c).

(** Modelled from the spec: the plug-in classes registered statically for
    a category (step 1 of the missing [discover]). *)
Definition statics_of (s : session) (c : category) : list plugin :=
  default [] (static_plugins s !! c).

(** Modelled from the spec: [register_plugin_path] of the missing
    [avalon/pipeline.py]: idempotently adds [p] under [c]. *)
Definition register_plugin_path (c : category) (p : path) : Av unit :=
  ps <- gets (fun s => paths_of s c) ;;
  if bool_decide (p ∈ ps) then ret tt
  else modify (set_plugin_paths <[c := ps ++ [p]]>).

(** Modelled from the spec: [deregister_plugin_path] of the missing
    [avalon/pipeline.py]: removes the entry, [NotRegisteredError] when the
    pair is absent. *)
Definition deregister_plugin_path (c : category) (p : path) : Av unit :=
  ps <- gets (fun s => paths_of s c) ;;
  if bool_decide (p ∈ ps)
  then modify (set_plugin_paths <[c := filter (fun p' => p' ≠ p) ps]>)
  else raise NotRegisteredError.

(** Modelled from the spec: [registered_plugin_paths] of the missing
    [avalon/pipeline.py]: a snapshot of the whole mapping. *)
Definition registered_plugin_paths : Av (gmap category (list path)) :=
  gets plugin_paths.

(** Modelled from the spec: [register_root] of the missing
    [avalon/pipeline.py]. *)
Definition register_root (p : path) : Av unit := modify (set_root (Some p)).

(** *** PluginLoader and Discovery *)

(** Modelled from the spec: step 3 of the missing [discover]: importing one
    file, which may raise. *)
Definition load_file (f : source_file) : Av (list plugin) :=
  match file_load f with
  | Ok defs => ret defs
  | Err e => raise (Raised e)
  end.

(** Modelled from the spec: steps 2 to 4 of the missing [discover] for one
    directory: every file is loaded on its own, a failure is caught and
    logged, and the qualifying definitions of the others are collected. *)
Definition scan_path (required : list string) (c : category)
    (fs : filesystem) (p : path) : Av (list plugin) :=
  match fs !! p with
  | None => warn (WDirectory p) ;; ret []
  | Some files =>
      for_each files
        (fun found f =>
           defs <- try_except (load_file f) (fun _ => true)
                     (fun e => match e with
                               | Raised x => warn (WImport p (file_name f) x)
                               | _ => ret tt
                               end ;; ret []) ;;
           ret (found ++ filter (fun d => qualifies required c d) defs))
        []
  end.

(** Modelled from the spec: [discover] of the missing [avalon/pipeline.py]
    (section 4.2). [contracts] gives the recognised capability markers and
    the operations each requires. *)
Definition discover (contracts : gmap category (list string))
    (fs : filesystem) (c : category) : Av (list plugin) :=
  match contracts !! c with
  | None => raise InvalidCategoryError
  | Some required =>
      static <- gets (fun s => statics_of s c) ;;
      paths <- gets (fun s => paths_of s c) ;;
      found <- for_each paths
                 (fun found p =>
                    ps <- scan_path required c fs p ;; ret (found ++ ps))
                 static ;;
      ret (dedup_by_name [] found)
  end.

(** [discover], [n] times in a row: the outcome of each call. *)
Fixpoint discover_times (contracts : gmap category (list string))
    (fs : filesystem) (c : category) (n : nat) (s : session)
    : list (result error (list plugin)) :=
  match n with
  | O => []
  | S n' =>
      let '(r, s') := discover contracts fs c s in
      r :: discover_times contracts fs c n' s'
  end.

(** *** EventBus *)

(** Modelled from the spec: the ordered handles that the EventBus of the
    missing [avalon/pipeline.py] holds for an event name. *)
Definition handlers_of (s : session) (event : string) : list loc :=
  default [] (handlers s !! event).

(** Modelled from the spec: the lifetime of a callback is owned by the
    program around the missing [avalon/pipeline.py]: it creates the
    callback object, with an identity never used before, *)
Definition new_callback (cb : callback) : Av loc :=
  fun s => let h := next_ref s in
           (Ok h, set_live <[h := cb]> (Pos.succ h) s).

(** Modelled from the spec: the transition live to collected of a handle of
    the missing [avalon/pipeline.py], driven by the owner of the callback:
    once nothing refers to the object any more, it is collected. *)
Definition collect (h : loc) : Av unit :=
  modify (fun s => set_live (delete h) (next_ref s) s).

(** Modelled from the spec: [on] of the missing [avalon/pipeline.py]: the
    handle joins the ordered set of its event. *)
Definition on (event : string) (h : loc) : Av unit :=
  hs <- gets (fun s => handlers_of s event) ;;
  if bool_decide (h ∈ hs) then ret tt
  else modify (set_handlers <[event := hs ++ [h]]>).

(** Modelled from the spec: calling one callback, which may raise. *)
Definition invoke (h : loc) (cb : callback) (payload : list pyval)
    : Av unit :=
  fun s => match cb payload (user s) with
           | (Ok _, u) => (Ok tt, set_invoked h u s)
           | (Err e, u) => (Err (Raised e), set_invoked h u s)
           end.

(** Modelled from the spec: step 3 of the missing [emit]: one callback is
    called, and an exception it raises is caught and logged as a warning
    with the identity of the callback. *)
Definition call_isolated (payload : list pyval) (target : loc * callback)
    : Av unit :=
  try_except (invoke target.1 target.2 payload) (fun _ => true)
    (fun e => match e with
              | Raised x => warn (WCallback target.1 x)
              | _ => ret tt
              end).

(** Modelled from the spec: [emit] of the missing [avalon/pipeline.py]
    (section 4.3): the weak references are resolved now, dead handles are
    dropped from the registry, and every live callback is called in
    registration order, failures isolated. *)
Definition emit (event : string) (payload : list pyval) : Av unit :=
  hs <- gets (fun s => handlers_of s event) ;;
  snapshot <- gets (fun s => omap (fun h => pair h <$> live s !! h) hs) ;;
  modify (set_handlers (alter (fun _ => snapshot.*1) event)) ;;
  for_each snapshot (fun _ target => call_isolated payload target) tt.

(** The callbacks that [emit] resolves for an event: the handles of the
    event that are still live, in registration order, each with the
    callback it stands for. *)
Definition live_callbacks (s : session) (event : string)
    : list (loc * callback) :=
  omap (fun h => pair h <$> live s !! h) (handlers_of s event).

(** What the callbacks [targets], called one after the other with
    [payload], make of the program state [u]; a callback that raises has
    acted all the same. *)
Definition acted (payload : list pyval) (targets : list (loc * callback))
    (u : U) : U :=
  foldl (fun u target => (target.2 payload u).2) u targets.

(** What the program around the registries can do, one step at a time. *)
Inductive action : Type :=
  | ANewCallback (cb : callback)
  | ACollect (h : loc)
  | AOn (event : string) (h : loc)
  | AEmit (event : string) (payload : list pyval)
  | ARegisterPluginPath (c : category) (p : path)
  | ADeregisterPluginPath (c : category) (p : path)
  | ARegisterRoot (p : path)
  | ADiscover (contracts : gmap category (list string)) (fs : filesystem)
      (c : category).

Definition step (a : action) (s : session) : session :=
  match a with
  | ANewCallback cb => (new_callback cb s).2
  | ACollect h => (collect h s).2
  | AOn event h => (on event h s).2
  | AEmit event payload => (emit event payload s).2
  | ARegisterPluginPath c p => (register_plugin_path c p s).2
  | ADeregisterPluginPath c p => (deregister_plugin_path c p s).2
  | ARegisterRoot p => (register_root p s).2
  | ADiscover contracts fs c => (discover contracts fs c s).2
  end.

Definition run (acts : list action) (s : session) : session :=
  foldl (fun s a => step a s) s acts.

(** Every callback object that exists was created before [next_ref]. *)
Definition wf (s : session) : Prop :=
  forall h, is_Some (live s !! h) -> (h < next_ref s)%positive.

(** The handle [h] is that of the callback [cb], created already; as long
    as it is live it is registered for [event], and no handle is registered
    twice for [event]. *)
Definition stays_registered (event : string) (h : loc) (cb : callback)
    (s : session) : Prop :=
  (h < next_ref s)%positive /\
  NoDup (handlers_of s event) /\
  forall c, live s !! h = Some c -> c = cb /\ h ∈ handlers_of s event.

(** A discovery outcome that contains a plug-in of qualified name [q]. *)
Definition finds (r : result error (list plugin)) (q : string) : Prop :=
  exists l, r = Ok l /\ q ∈ map qualname l.

(** How often the qualified name [q] occurs in [l]. *)
Definition occurrences (q : string) (l : list plugin) : nat :=
  length (filter (fun d => qualname d = q) l).

End Session.

Arguments session : clear implicits.
Arguments callback : clear implicits.
Arguments action : clear implicits.

End Avalon.

(** ** Concrete surroundings, objects and sessions *)

Module Examples.
Import Starter.

(** A [pyblish.api] whose registry is a plain list of paths:
    registering appends a path that is not there yet, deregistering is
    [list.remove], which raises [ValueError] for an absent path. *)
Definition list_api : pyblish_api :=
  {| ApiState := list string;
     api_register_plugin_path := fun p ps =>
       (Ok tt, if bool_decide (p ∈ ps) then ps else ps ++ [p]);
     api_deregister_plugin_path := fun p ps =>
       if bool_decide (p ∈ ps)
       then (Ok tt, filter (fun q => q ≠ p) ps)
       else (Err (ValueError "list.remove(x): x not in list"), ps);
     plugin_path := "pyblish_starter/plugins" |}.

Definition world0 : world := {| cwd := "/projects/demo"; stdout := "" |}.

(** The pipeline module, just imported. *)
Definition fresh : @state list_api := @initial_state list_api world0 [].

(** A host module with [root] and [load] but no [create]. *)
Definition host_without_create : pyobject :=
  dict_update [("root", ACallable lambda_root);
               ("load", ACallable lambda_load)]
    (new_module "maya").

(** A complete host module that also has an [uninstall] hook, which
    writes to the standard output. *)
Definition say_goodbye : pyfun := fun args w =>
  match args with
  | [] => (Ok VNone, {| cwd := cwd w; stdout := stdout w +:+ "goodbye" |})
  | _ => (Err (TypeError "uninstall() takes 0 positional arguments"), w)
  end.

Definition host_with_uninstall : pyobject :=
  dict_update [("root", ACallable lambda_root);
               ("load", ACallable lambda_load);
               ("create", ACallable lambda_create);
               ("uninstall", ACallable say_goodbye)]
    (new_module "maya").

(** The pipeline once [obj] has been created next to it; the new object is
    at location 5. *)
Definition with_object (obj : pyobject) : @state list_api :=
  (@alloc_object list_api obj fresh).2.

(** The pipeline with [host_with_uninstall] registered as its host. *)
Definition hosted : @state list_api :=
  (@register_host list_api 5%positive (with_object host_with_uninstall)).2.

(** The recognised categories: [Loader], whose contract is a [process]
    operation. *)
Definition contracts0 : gmap Avalon.category (list string) :=
  {[ "Loader" := ["process"] ]}.

(** [my_loader.py] of [test_loaders]: it imports [api] and defines
    [DemoLoader]. *)
Definition demo_loader : Avalon.plugin :=
  {| Avalon.qualname := "DemoLoader";
     Avalon.operations := ["process"];
     Avalon.marker_of := None |}.

Definition my_loader_definitions : list Avalon.plugin :=
  [ {| Avalon.qualname := "api";
       Avalon.operations := ["Loader"; "on"; "emit"];
       Avalon.marker_of := None |};
    demo_loader ].

Definition my_loader : Avalon.source_file :=
  {| Avalon.file_name := "my_loader.py";
     Avalon.file_load := Ok my_loader_definitions |}.

(** A directory with [my_loader.py] and a file that does not import. *)
Definition plugins_listing : list Avalon.source_file :=
  [ {| Avalon.file_name := "broken.py";
       Avalon.file_load := Err (Exception "invalid syntax") |};
    my_loader ].

Definition fs0 : Avalon.filesystem := {[ "/tmp/plugins" := plugins_listing ]}.

(** A session with nothing registered; callbacks act on a counter, the
    [count] of the tests. *)
Definition session0 : Avalon.session Z :=
  Avalon.Session ∅ ∅ None ∅ ∅ 1%positive [] [] 0%Z.

(** [bad_event] and [good_event] of [test_on_with_failing_callback]. *)
Definition bad_event : Avalon.callback Z :=
  fun _ count => (Err (Exception "I'm a dick"), (count - 1)%Z).

Definition good_event : Avalon.callback Z :=
  fun _ count => (Ok tt, (count + 1)%Z).

(** The session once both callbacks exist, at locations 1 and 2. *)
Definition session_with_callbacks : Avalon.session Z :=
  (Avalon.new_callback good_event
     (Avalon.new_callback bad_event session0).2).2.

(** [clear] of [avalon/tests/test_pipeline.py]: every registered path is
    deregistered, then the event handlers are dropped. *)
Definition clear : M (Avalon.session Z) Avalon.error unit :=
  registered <- Avalon.registered_plugin_paths ;;
  for_each (map_to_list registered)
    (fun _ '(superclass, paths) =>
       for_each paths
         (fun _ path => Avalon.deregister_plugin_path superclass path) tt)
    tt ;;
  modify (Avalon.set_handlers (fun _ => ∅)).

(** A session with two directories registered for [Loader], one for
    [Creator], and a handler. *)
Definition busy_session : Avalon.session Z :=
  Avalon.run [ Avalon.ARegisterPluginPath "Loader" "/tmp/plugins";
               Avalon.ARegisterPluginPath "Loader" "/tmp/more";
               Avalon.ARegisterPluginPath "Loader" "/tmp/plugins";
               Avalon.ARegisterPluginPath "Creator" "/tmp/plugins";
               Avalon.AOn "some_event" 2%positive ]
    session_with_callbacks.

End Examples.

(** ** pyblish_starter/pipeline.py: the listing of assets *)

Module Listing.
Import Starter.

(** The exceptions that [ls] tells apart: [IOError], which it catches,
    [KeyError], which subscripting a dictionary raises, and the others. *)
Inductive ls_exn : Type :=
  | IOError (msg : string)
  | KeyError (key : string)
  | Other (e : exn).

Definition is_IOError (e : ls_exn) : bool :=
  match e with IOError _ => true | _ => false end.

(** [d[key]] of a dictionary given by its items; the keys of a dictionary
    are distinct. *)
Fixpoint dict_lookup (d : list (string * pyval)) (key : string)
    : option pyval :=
  match d with
  | [] => None
  | (k, v) :: rest => if String.eqb k key then Some v else dict_lookup rest key
  end.

(** Insertion of [x], with key [k], after the items whose key is less than
    [k] and before the others: before the items of equal key. *)
Fixpoint insert_by_key (k : Z) (x : pyval) (l : list (Z * pyval))
    : list (Z * pyval) :=
  match l with
  | [] => [(k, x)]
  | (k', x') :: rest =>
      if (k <=? k')%Z then (k, x) :: (k', x') :: rest
      else (k', x') :: insert_by_key k x rest
  end.

(** The stable sort, by ascending key, of items with integer keys: items
    of equal key stay in the order they had. *)
Fixpoint sort_by_int_key (l : list (Z * pyval)) : list (Z * pyval) :=
  match l with
  | [] => []
  | (k, x) :: rest => insert_by_key k x (sort_by_int_key rest)
  end.

(** What [ls] reaches outside the module: [lib], which is not part of the
    sources at hand, [os.path.join], the reading of a JSON file, and the
    sort of a list by keys already computed. [ls] only reads the file
    system, which is therefore fixed. Of the sort, two facts are used: it
    permutes the list, and on integer keys it is the stable ascending
    sort. *)
Class surroundings : Type := Surroundings {
  format_shared_dir : pyval -> result ls_exn string;  (* lib.format_shared_dir *)
  listdir : string -> result ls_exn (list string);    (* lib.listdir *)
  path_join : string -> string -> string;             (* os.path.join *)
  open_json : string -> result ls_exn pyval;          (* json.load(open(fname)) *)
  sort_by_key : list (pyval * pyval) -> result ls_exn (list pyval);
  sort_by_key_permutes :
    forall kvs l, sort_by_key kvs = Ok l -> l ≡ₚ kvs.*2;
  sort_by_key_ints :
    forall kvs : list (Z * pyval),
      sort_by_key (map (fun kv => (VInt kv.1, kv.2)) kvs)
      = Ok (sort_by_int_key kvs).*2
}.

Section Ls.

Context `{pyblish_api} `{surroundings}.

Abbreviation Gen := (M state ls_exn).

(** A computation of the module, run where [ls] runs. *)
Definition lift {A} (m : M state exn A) : Gen A :=
  fun s => match m s with
           | (Ok a, s') => (Ok a, s')
           | (Err e, s') => (Err (Other e), s')
           end.

(** A call that reads the surroundings. *)
Definition outside {A} (r : result ls_exn A) : Gen A := fun s => (r, s).

Definition dquote : string := String (Ascii.ascii_of_nat 34) EmptyString.

Definition version_schema : string := "pyblish-starter:version-1.0".
Definition asset_schema : string := "pyblish-starter:asset-1.0".

(** [data.get(key)]: only a dictionary has [get]. *)
Definition dict_get (data : pyval) (key : string) : Gen pyval :=
  match data with
  | VDict d => ret (default VNone (dict_lookup d key))
  | _ => raise (Other (AttributeError "get"))
  end.

(** [v[key]] *)
Definition getitem (v : pyval) (key : string) : Gen pyval :=
  match v with
  | VDict d =>
      match dict_lookup d key with
      | Some x => ret x
      | None => raise (KeyError key)
      end
  | _ => raise (Other (TypeError "object is not subscriptable"))
  end.

(** [x != c] for a string constant [c]. *)
Definition differs_from (x : pyval) (c : string) : bool :=
  match x with
  | VStr y => negb (String.eqb y c)
  | _ => true
  end.

(** The body of the inner loop of [ls]: the metadata of one version, or
    nothing when the loop goes on to the next version. *)
Definition read_version (versionsdir version : string)
    : Gen (option pyval) :=
  let versiondir := path_join versionsdir version in
  let fname := path_join versiondir ".metadata.json" in
  read <- try_except (data <- outside (open_json fname) ;; ret (Some data))
            is_IOError
            (fun _ =>
               lift (log_warning (dquote +:+ fname +:+ dquote +:+ " not found.")) ;;
               ret None) ;;
  match read with
  | None => ret None
  | Some data =>
      schema <- dict_get data "schema" ;;
      if differs_from schema version_schema
      then lift (log_warning
                   (dquote +:+ fname +:+ dquote +:+ " unsupported schema.")) ;;
           ret None
      else ret (Some data)
  end.

(** The dictionary that [ls] yields for an asset. *)
Definition asset_entry (asset : string) (versions : list pyval) : pyval :=
  VDict [("schema", VStr asset_schema); ("name", VStr asset);
         ("versions", VList versions)].

(** The body of the outer loop of [ls], up to its [yield]. *)
Definition read_asset (assetsdir asset : string) : Gen pyval :=
  let versionsdir := path_join assetsdir asset in
  names <- outside (listdir versionsdir) ;;
  versions <- for_each names
                (fun versions version =>
                   read <- read_version versionsdir version ;;
                   ret (match read with
                        | Some data => versions ++ [data]
                        | None => versions
                        end))
                [] ;;
  keyed <- for_each versions
             (fun keyed v =>
                k <- getitem v "version" ;; ret (keyed ++ [(k, v)]))
             [] ;;
  sorted <- outside (sort_by_key keyed) ;;
  ret (asset_entry asset sorted).

(** What a generator has done when it stops: the values it has yielded,
    and whether it came to its end or raised. *)
Definition generated (A : Type) : Type := list A * result ls_exn unit.

(** The outer loop of [ls]. *)
Fixpoint ls_assets (assetsdir : string) (assets : list string) (s : state)
    : generated pyval * state :=
  match assets with
  | [] => (([], Ok tt), s)
  | asset :: rest =>
      match read_asset assetsdir asset s with
      | (Err e, s') => (([], Err e), s')
      | (Ok entry, s') =>
          let '((yielded, outcome), s'') := ls_assets assetsdir rest s' in
          ((entry :: yielded, outcome), s'')
      end
  end.

(** What [ls] does before its loop. *)
Definition ls_start : Gen (string * list string) :=
  root <- lift (h <- registered_host ;; call_method h "root" []) ;;
  assetsdir <- outside (format_shared_dir root) ;;
  assets <- outside (listdir assetsdir) ;;
  ret (assetsdir, assets).

(** [ls], consumed until it stops. *)
Definition ls (s : state) : generated pyval * state :=
  match ls_start s with
  | (Err e, s') => (([], Err e), s')
  | (Ok (assetsdir, assets), s') => ls_assets assetsdir assets s'
  end.


(** The integer under ["version"] in [v], if there is one. *)
Definition version_number (v : pyval) : option Z :=
  match v with
  | VDict d => match dict_lookup d "version" with
               | Some (VInt z) => Some z
               | _ => None
               end
  | _ => None
  end.

(** [v1] does not come after [v2] in the order of the version numbers. *)
Definition version_le (v1 v2 : pyval) : Prop :=
  exists z1 z2, version_number v1 = Some z1 /\
                version_number v2 = Some z2 /\ (z1 <= z2)%Z.

(** What [read_version] makes of a metadata file, when it does not raise:
    the version it keeps, or none. *)
Definition version_of (versionsdir version : string) : option pyval :=
  match open_json (path_join (path_join versionsdir version) ".metadata.json") with
  | Ok (VDict d) =>
      if differs_from (default VNone (dict_lookup d "schema")) version_schema
      then None else Some (VDict d)
  | _ => None
  end.

(** A metadata file that [ls] can deal with: it cannot be opened, or it
    holds a dictionary which, if it has the version schema, has an integer
    under ["version"]. *)
Definition benign_version (versionsdir version : string) : Prop :=
  match open_json (path_join (path_join versionsdir version) ".metadata.json") with
  | Ok (VDict d) =>
      differs_from (default VNone (dict_lookup d "schema")) version_schema
        = false ->
      is_Some (version_number (VDict d))
  | Ok _ => False
  | Err e => is_IOError e = true
  end.

(** The versions kept in a directory, in listing order, then sorted. *)
Definition kept_versions (versionsdir : string) (names : list string)
    : list pyval :=
  omap (version_of versionsdir) names.

Definition sorted_versions (versions : list pyval) : list pyval :=
  (sort_by_int_key
     (omap (fun v => z ← version_number v; Some (z, v)) versions)).*2.

(** The names [lib.listdir] gives for a directory, none when it raises. *)
Definition listing (dir : string) : list string :=
  match listdir dir with
  | Ok names => names
  | Err _ => []
  end.

(** The entry of an asset whose metadata files are all benign. *)
Definition expected_entry (assetsdir asset : string) : pyval :=
  asset_entry asset
    (sorted_versions
       (kept_versions (path_join assetsdir asset)
          (listing (path_join assetsdir asset)))).

(** A directory of versions that [ls] can deal with. *)
Definition benign_asset (assetsdir asset : string) : Prop :=
  exists names,
    listdir (path_join assetsdir asset) = Ok names /\
    Forall (benign_version (path_join assetsdir asset)) names.

(** A metadata file that [ls] reads without raising: it cannot be opened,
    or it holds a dictionary. *)
Definition readable_version (versionsdir version : string) : Prop :=
  match open_json (path_join (path_join versionsdir version) ".metadata.json") with
  | Ok (VDict d) => True
  | Ok _ => False
  | Err e => is_IOError e = true
  end.

(** A metadata file on which [ls] raises [e]: reading it raises [e], which
    is no [IOError], or it holds something else than a dictionary, which
    has no [get]. *)
Definition bad_metadata (versionsdir version : string) (e : ls_exn) : Prop :=
  match open_json (path_join (path_join versionsdir version) ".metadata.json") with
  | Ok (VDict d) => False
  | Ok _ => e = Other (AttributeError "get")
  | Err e' => is_IOError e' = false /\ e = e'
  end.

(** [s'] is [s] with warnings added to the log, and nothing else. *)
Definition warned (s s' : state) : Prop :=
  exists ws,
    s' = set_log (fun _ => log s ++ ws) s /\
    Forall (fun r : string * string => r.1 = "WARNING") ws.

(** A computation that, whether it returns or raises, only adds warnings
    to the log. *)
Definition only_warns {A} (m : Gen A) : Prop :=
  forall s, warned s (m s).2.

End Ls.

End Listing.

(** ** pyblish_starter/pipeline.py: the debug host *)

Module DebugHost.
Import Starter.

(** What [debug_host] reaches outside the module: [json.dumps] with an
    indentation of 4, and what [sys.stdout.write] returns for a text
    ([None] or the number of characters written, depending on the
    interpreter). *)
Class printing : Type := Printing {
  json_dumps : pyval -> string;
  write_result : string -> pyval
}.

Section Debug.

Context `{pyblish_api} `{printing}.

(** [sys.stdout.write(text)] *)
Definition stdout_write (text : string) (w : world) : result exn pyval * world :=
  (Ok (write_result text), {| cwd := cwd w; stdout := stdout w +:+ text |}).

(** [lambda asset, version=-1, representation=None: ...] *)
Definition debug_load : pyfun := fun args w =>
  let dump asset version representation :=
    stdout_write
      (json_dumps (VDict [("asset", asset); ("version", version);
                          ("representation", representation)])
       +:+ newline) w in
  match args with
  | [asset] => dump asset (VInt (-1)) VNone
  | [asset; version] => dump asset version VNone
  | [asset; version; representation] => dump asset version representation
  | _ => (Err (TypeError "<lambda>() takes from 1 to 3 positional arguments"), w)
  end.

(** [lambda name, family: ...] *)
Definition debug_create : pyfun := fun args w =>
  match args with
  | [name; family] =>
      stdout_write
        (json_dumps (VDict [("name", name); ("family", family)])) w
  | _ => (Err (TypeError "<lambda>() takes 2 positional arguments"), w)
  end.

(** The module object that [debug_host] builds. *)
Definition debug_module : pyobject :=
  dict_update [("root", ACallable lambda_root);
               ("load", ACallable debug_load);
               ("create", ACallable debug_create)]
    (new_module "standalone").

Definition debug_host : M state exn loc := alloc_object debug_module.

End Debug.

End DebugHost.

(** ** pyblish_starter/pipeline.py: what the registrations put in place *)

Module Defaults.
Import Starter.

(** The dictionary that [register_data] appends. *)
Definition data_entry (key value : pyval) (help : option pyval) : pyval :=
  VDict [("key", key); ("value", value); ("help", opt_or help (VStr ""))].

(** The dictionary that [register_family] appends. *)
Definition family_entry (name : pyval) (data help : option pyval) : pyval :=
  VDict [("name", name); ("data", opt_or data (VList []));
         ("help", opt_or help (VStr ""))].

(** What [register_default_data] appends. *)
Definition default_data : list pyval :=
  [ data_entry (VStr "id") (VStr "pyblish.starter.instance") None;
    data_entry (VStr "name") (VStr "{name}") None;
    data_entry (VStr "family") (VStr "{family}") None ].

(** What [register_default_families] appends. *)
Definition default_families : list pyval :=
  [ family_entry (VStr "starter.model") None
      (Some (VStr "Polygonal geometry for animation"));
    family_entry (VStr "starter.rig") None (Some (VStr "Character rig"));
    family_entry (VStr "starter.animation") None (Some (VStr "Pointcache")) ].

Section State.

Context `{pyblish_api}.

(** The three registries are three list objects. *)
Definition distinct_registries (s : state) : Prop :=
  _registered_data s <> _registered_families s /\
  _registered_data s <> _registered_formats s /\
  _registered_families s <> _registered_formats s.

(** The first statement of [install]: the [install()] hook of the host,
    when it has one. *)
Definition install_hook_call (host : loc) : M state exn unit :=
  b <- hasattr host "install" ;;
  (if b then (_ <- call_method host "install" [] ;; ret tt) else ret tt).

(** What [install] does next. *)
Definition install_registrations (host : loc) : M state exn unit :=
  register_host host ;;
  register_plugins ;;
  register_default_data ;;
  register_default_families ;;
  log_info "Successfully installed Pyblish Starter!".

(** The body of the [try] of [uninstall]: the [uninstall()] hook of the
    active host. *)
Definition uninstall_hook_body : M state exn unit :=
  h <- registered_host ;; _ <- call_method h "uninstall" [] ;; ret tt.

(** The first statement of [uninstall]: the hook, an [AttributeError]
    swallowed. *)
Definition uninstall_hook_call : M state exn unit :=
  try_except uninstall_hook_body is_AttributeError (fun _ => ret tt).

(** What [uninstall] does next. *)
Definition uninstall_deregistrations : M state exn unit :=
  deregister_host ;;
  deregister_plugins ;;
  deregister_default_data ;;
  deregister_default_families ;;
  log_info "Successfully uninstalled Pyblish Starter!".

(** [n] calls of [m] in a row, whatever each one returns. *)
Fixpoint repeated {A} (n : nat) (m : M state exn A) (s : state) : state :=
  match n with
  | O => s
  | S n' => repeated n' m (m s).2
  end.

End State.

End Defaults.

(** ** Concrete surroundings of [ls] *)

Module ListingExamples.
Import Starter Listing Examples.

(** A project with three assets; [tree] has two versions of the same
    number, listed around an earlier one; [hero] has three good versions,
    listed out of order, one whose metadata is missing and one of another
    schema; [prop] has no version. *)
Definition demo_format_shared_dir (root : pyval) : result ls_exn string :=
  match root with
  | VStr r => Ok (r +:+ "/shared")
  | _ => Err (Other (TypeError "expected str"))
  end.

Definition demo_listdir (dir : string) : result ls_exn (list string) :=
  if String.eqb dir "/projects/demo/shared" then Ok ["tree"; "hero"; "prop"]
  else if String.eqb dir "/projects/demo/shared/tree"
       then Ok ["v002b"; "v001"; "v002a"]
  else if String.eqb dir "/projects/demo/shared/hero"
       then Ok ["v003"; "v001"; "tmp"; "v002"; "old"]
  else if String.eqb dir "/projects/demo/shared/prop" then Ok []
  else Err (Other (Exception "No such file or directory")).

Definition demo_path_join (a b : string) : string := a +:+ "/" +:+ b.

Definition demo_version (n : Z) (comment : string) : pyval :=
  VDict [("schema", VStr version_schema); ("version", VInt n);
         ("comment", VStr comment)].

Definition demo_open_json (fname : string) : result ls_exn pyval :=
  if String.eqb fname "/projects/demo/shared/hero/v001/.metadata.json"
  then Ok (demo_version 1 "first")
  else if String.eqb fname "/projects/demo/shared/hero/v002/.metadata.json"
  then Ok (demo_version 2 "")
  else if String.eqb fname "/projects/demo/shared/hero/v003/.metadata.json"
  then Ok (demo_version 3 "final")
  else if String.eqb fname "/projects/demo/shared/hero/old/.metadata.json"
  then Ok (VDict [("schema", VStr "pyblish-starter:version-0.1");
                  ("version", VInt 0)])
  else if String.eqb fname "/projects/demo/shared/tree/v001/.metadata.json"
  then Ok (demo_version 1 "sapling")
  else if String.eqb fname "/projects/demo/shared/tree/v002a/.metadata.json"
  then Ok (demo_version 2 "oak")
  else if String.eqb fname "/projects/demo/shared/tree/v002b/.metadata.json"
  then Ok (demo_version 2 "birch")
  else Err (IOError fname).

(** The integer keys of a list of keyed items, when they all are. *)
Fixpoint int_keys (kvs : list (pyval * pyval)) : option (list (Z * pyval)) :=
  match kvs with
  | [] => Some []
  | (VInt z, v) :: rest =>
      match int_keys rest with
      | Some zs => Some ((z, v) :: zs)
      | None => None
      end
  | _ => None
  end.

Definition demo_sort_by_key (kvs : list (pyval * pyval))
    : result ls_exn (list pyval) :=
  match int_keys kvs with
  | Some zs => Ok (sort_by_int_key zs).*2
  | None => Err (Other (TypeError "'<' not supported"))
  end.

(** The same project with the metadata of [v002] unparsable, *)
Definition broken_open_json (fname : string) : result ls_exn pyval :=
  if String.eqb fname "/projects/demo/shared/hero/v002/.metadata.json"
  then Err (Other (ValueError "No JSON object could be decoded"))
  else demo_open_json fname.

(** and with the metadata of [v002] lacking its version number. *)
Definition keyless_open_json (fname : string) : result ls_exn pyval :=
  if String.eqb fname "/projects/demo/shared/hero/v002/.metadata.json"
  then Ok (VDict [("schema", VStr version_schema)])
  else demo_open_json fname.

(** What [ls] is expected to yield for the project: the two versions of
    [tree] numbered 2 are in the order of the listing. *)
Definition demo_listing : list pyval :=
  [ asset_entry "tree"
      [demo_version 1 "sapling"; demo_version 2 "birch";
       demo_version 2 "oak"];
    asset_entry "hero"
      [demo_version 1 "first"; demo_version 2 ""; demo_version 3 "final"];
    asset_entry "prop" [] ].

(** An [install()] hook that writes to the standard output. *)
Definition say_hello : pyfun := fun args w =>
  match args with
  | [] => (Ok VNone, {| cwd := cwd w; stdout := stdout w +:+ "hello" |})
  | _ => (Err (TypeError "install() takes 0 positional arguments"), w)
  end.

(** A host module with an [install] hook but no [create]. *)
Definition hooked_host_without_create : pyobject :=
  dict_update [("root", ACallable lambda_root);
               ("load", ACallable lambda_load);
               ("install", ACallable say_hello)]
    (new_module "maya").

(** A complete host module with an [install] hook. *)
Definition hooked_host : pyobject :=
  dict_update [("root", ACallable lambda_root);
               ("load", ACallable lambda_load);
               ("create", ACallable lambda_create);
               ("install", ACallable say_hello)]
    (new_module "maya").

(** A hook that writes to the standard output and then raises. *)
Definition refuse : pyfun := fun args w =>
  (Err (Exception "no licence"),
   {| cwd := cwd w; stdout := stdout w +:+ "checking" |}).

(** A complete host module whose [install] and [uninstall] hooks raise. *)
Definition refusing_host : pyobject :=
  dict_update [("root", ACallable lambda_root);
               ("load", ACallable lambda_load);
               ("create", ACallable lambda_create);
               ("install", ACallable refuse);
               ("uninstall", ACallable refuse)]
    (new_module "maya").

(** A host module whose [root] is a string, not a function. *)
Definition host_with_data_root : pyobject :=
  dict_update [("root", AValue (VStr "/projects/demo"));
               ("load", ACallable lambda_load);
               ("create", ACallable lambda_create)]
    (new_module "maya").

(** The pipeline after some registrations, with a host whose
    [uninstall] hook writes to the standard output. *)
Definition hosted_state : @state list_api :=
  @run list_api
    [ ARegisterDefaultData;
      ARegisterDefaultFamilies;
      ARegisterFormat (VStr ".ma") ]
    hosted.

(** The pipeline after some registrations. *)
Definition registered_state : @state list_api :=
  @run list_api
    [ ARegisterDefaultData;
      ARegisterData (VStr "color") (VStr "red") None;
      ARegisterDefaultFamilies;
      ARegisterFormat (VStr ".ma") ]
    fresh.

End ListingExamples.


(** * Properties *)

(** ** Strings *)

Lemma append_assoc (a b c : string) : (a +:+ b) +:+ c = a +:+ b +:+ c.
Proof.
  induction a as [|ch a IH]; [reflexivity|].
  change (String ch ((a +:+ b) +:+ c) = String ch (a +:+ b +:+ c)).
  by f_equal.
Qed.

Lemma append_empty_r (a : string) : a +:+ "" = a.
Proof.
  induction a as [|ch a IH]; [reflexivity|].
  change (String ch (a +:+ "") = String ch a). by f_equal.
Qed.

Lemma substring_of_refl (s : string) : substring_of s s.
Proof.
  exists "", "". by rewrite append_empty_r.
Qed.

Lemma substring_of_prepend (p s t : string) :
  substring_of s t -> substring_of s (p +:+ t).
Proof.
  intros (pre & post & ->). exists (p +:+ pre), post. by rewrite append_assoc.
Qed.

Lemma substring_of_append (s t q : string) :
  substring_of s t -> substring_of s (t +:+ q).
Proof.
  intros (pre & post & ->). exists pre, (post +:+ q).
  by rewrite !append_assoc.
Qed.

Lemma substring_of_join (sep m : string) (l : list string) :
  m ∈ l -> substring_of m (join sep l).
Proof.
  induction l as [|x l IH]; intros Hin; [by apply elem_of_nil in Hin|].
  apply elem_of_cons in Hin. destruct l as [|y l].
  - destruct Hin as [->|Hin]; [apply substring_of_refl | by apply elem_of_nil in Hin].
  - change (join sep (x :: y :: l)) with (x +:+ sep +:+ join sep (y :: l)).
    destruct Hin as [->|Hin].
    + apply substring_of_append, substring_of_refl.
    + do 2 apply substring_of_prepend. by apply IH.
Qed.

(** ** Sequencing *)

Lemma bind_ok {S E A B} (m : M S E A) (k : A -> M S E B) (s s' : S) (a : A) :
  m s = (Ok a, s') -> bind m k s = k a s'.
Proof. unfold bind. by intros ->. Qed.

Section Preserves.

Context {S E : Type} (P : S -> Prop).

Lemma preserves_ret {A} (a : A) : preserves P (ret (E := E) a).
Proof. by intros s. Qed.

Lemma preserves_raise {A} (e : E) : preserves P (raise (A := A) e).
Proof. by intros s. Qed.

Lemma preserves_gets {A} (f : S -> A) : preserves P (gets (E := E) f).
Proof. by intros s. Qed.

Lemma preserves_modify (f : S -> S) :
  (forall s, P s -> P (f s)) -> preserves P (modify (E := E) f).
Proof. intros Hf s. apply Hf. Qed.

Lemma preserves_bind {A B} (m : M S E A) (k : A -> M S E B) :
  preserves P m -> (forall a, preserves P (k a)) -> preserves P (bind m k).
Proof.
  intros Hm Hk s Hs. unfold bind. specialize (Hm s Hs).
  destruct (m s) as [[a|e] s']; [by apply Hk | done].
Qed.

(** The continuation only has to keep [P] for the value read. *)
Lemma preserves_bind_gets {A B} (f : S -> A) (k : A -> M S E B) :
  (forall s, P s -> P (k (f s) s).2) -> preserves P (bind (gets f) k).
Proof. intros Hk s Hs. by apply Hk. Qed.

Lemma preserves_try {A} (m : M S E A) (handles : E -> bool)
    (h : E -> M S E A) :
  preserves P m -> (forall e, preserves P (h e)) ->
  preserves P (try_except m handles h).
Proof.
  intros Hm Hh s Hs. unfold try_except. specialize (Hm s Hs).
  destruct (m s) as [[a|e] s']; [done|].
  destruct (handles e); [by apply Hh | done].
Qed.

Lemma preserves_for_each {A B} (xs : list A) (body : B -> A -> M S E B)
    (acc : B) :
  (forall acc x, preserves P (body acc x)) ->
  preserves P (for_each xs body acc).
Proof.
  intros Hbody. revert acc. induction xs as [|x xs IH]; intros acc.
  - apply preserves_ret.
  - apply preserves_bind; [apply Hbody | apply IH].
Qed.

End Preserves.

(** ** The host registry of pyblish_starter *)

Module StarterFacts.
Import Starter.

Section Facts.

Context `{pyblish_api}.

(** The loop of [register_host] collects the missing members, in order. *)
Lemma collect_missing (host : loc) (members acc : list string) (s : state) :
  for_each members
    (fun missing member =>
       b <- hasattr host member ;;
       ret (if negb b then missing ++ [member] else missing))
    acc s
  = (Ok (acc ++ filter (fun member => attrs_of s host !! member = None) members),
     s).
Proof.
  revert acc. induction members as [|m members IH]; intros acc; simpl.
  - by rewrite app_nil_r.
  - unfold bind at 1. unfold hasattr, gets, bind, ret. rewrite IH.
    rewrite filter_cons. destruct (attrs_of s host !! m) as [a|] eqn:Hm.
    + rewrite bool_decide_eq_true_2 by eauto. simpl.
      by repeat case_decide.
    + rewrite bool_decide_eq_false_2 by (by intros [? ?]). simpl.
      repeat case_decide; try done. by rewrite <- app_assoc.
Qed.

Lemma register_host_unfold (host : loc) (s : state) :
  register_host host s =
  match missing_members s host with
  | [] => (Ok tt, set_registered_host host s)
  | missing =>
      (Err (AssertionError
              ("Incomplete interface for host: '" +:+ str_of s host +:+ "'"
               +:+ newline +:+ "Missing: " +:+ join ", " missing)), s)
  end.
Proof.
  unfold register_host, missing_members, bind at 1.
  rewrite collect_missing. simpl.
  destruct (filter _ required_members) as [|m ms]; [done|].
  rewrite bool_decide_eq_false_2 by done. done.
Qed.

Lemma set_env_same (s : state) : set_env (env s) s = s.
Proof. by destruct s. Qed.

Lemma default_module_members :
  obj_dict default_module !! "root" = Some (ACallable lambda_root) /\
  obj_dict default_module !! "load" = Some (ACallable lambda_load) /\
  obj_dict default_module !! "create" = Some (ACallable lambda_create).
Proof. by vm_compute. Qed.

(** Whatever holds the default module honours the default contract. *)
Lemma default_module_contract (s : state) (h : loc) :
  objects s !! h = Some default_module -> default_host_contract s h.
Proof.
  intros Hh. destruct default_module_members as (Hroot & Hload & Hcreate).
  unfold default_host_contract, call_method, getattr, bind, attrs_of.
  rewrite Hh, Hroot, Hload, Hcreate. repeat split.
  - simpl. by rewrite set_env_same.
  - intros asset version representation. simpl. by rewrite set_env_same.
  - intros name family. exists "my_instance". simpl. by rewrite set_env_same.
Qed.

(** C5, as the code has it: a host that lacks at least one of [root],
    [load], [create] is refused by [register_host], which fails its
    [assert]: the call raises [AssertionError] (the source has no
    [IncompleteInterfaceError]), leaves the state as it was, and the
    message, "Incomplete interface for host: '<host>'" followed by
    "Missing: " and the missing members joined by ", ", names every member
    that is missing. *)
Theorem register_host_incomplete (s : state) (host : loc) :
  (exists member,
     member ∈ required_members /\ attrs_of s host !! member = None) ->
  exists msg,
    register_host host s = (Err (AssertionError msg), s) /\
    msg = "Incomplete interface for host: '" +:+ str_of s host +:+ "'"
          +:+ newline +:+ "Missing: " +:+ join ", " (missing_members s host) /\
    forall member,
      member ∈ required_members -> attrs_of s host !! member = None ->
      substring_of member msg.
Proof.
  intros (m0 & Hreq & Hnone).
  assert (Hin : m0 ∈ missing_members s host).
  { unfold missing_members. by apply list_elem_of_filter. }
  rewrite register_host_unfold.
  destruct (missing_members s host) as [|m ms] eqn:Hmiss;
    [by apply elem_of_nil in Hin|].
  eexists. split; [reflexivity|]. split; [reflexivity|].
  intros member Hmem Hlack.
  do 5 apply substring_of_prepend. apply substring_of_join.
  rewrite <- Hmiss. unfold missing_members. by apply list_elem_of_filter.
Qed.

(** C6: when [register_host] fails because the host lacks a required
    member, nothing changes: the state is the one before the call and
    [registered_host] returns the object it returned before. *)
Theorem register_host_failure_keeps_host (s : state) (host : loc) :
  (exists member,
     member ∈ required_members /\ attrs_of s host !! member = None) ->
  exists e s',
    register_host host s = (Err e, s') /\
    (registered_host s').1 = (registered_host s).1 /\
    s' = s.
Proof.
  intros (m0 & Hreq & Hnone).
  assert (Hin : m0 ∈ missing_members s host).
  { unfold missing_members. by apply list_elem_of_filter. }
  rewrite register_host_unfold.
  destruct (missing_members s host) as [|m ms];
    [by apply elem_of_nil in Hin|].
  by eexists _, s.
Qed.

(** C7: a host that has [root], [load] and [create] is accepted: the call
    returns, the host slot now holds exactly that object, whatever it held
    before, and nothing else changes; [registered_host] returns it. *)
Theorem register_host_complete (s : state) (host : loc) :
  (forall member,
     member ∈ required_members -> is_Some (attrs_of s host !! member)) ->
  register_host host s = (Ok tt, set_registered_host host s) /\
  registered_host (set_registered_host host s)
    = (Ok host, set_registered_host host s).
Proof.
  intros Hall. split; [|by destruct s].
  rewrite register_host_unfold.
  assert (Hnil : missing_members s host = []); [|by rewrite Hnil].
  destruct (missing_members s host) as [|m ms] eqn:E; [done|].
  assert (Hm : m ∈ missing_members s host) by (rewrite E; left).
  apply list_elem_of_filter in Hm as [Hnone Hmem].
  destruct (Hall m Hmem) as [a Ha]. congruence.
Qed.

(** What [uninstall] does once the host has been reset leaves the world,
    the objects and the host slot alone, and can only fail with what
    [pyblish.api] raises, [ValueError] apart. *)
Lemma uninstall_tail (s : state) :
  exists r s',
    (deregister_plugins ;;
     deregister_default_data ;;
     deregister_default_families ;;
     log_info "Successfully uninstalled Pyblish Starter!") s = (r, s') /\
    env s' = env s /\ objects s' = objects s /\
    _registered_host s' = _registered_host s /\
    (r = Ok tt \/
     exists e, r = Err e /\ is_ValueError e = false /\
               (api_deregister_plugin_path plugin_path (api s)).1 = Err e).
Proof.
  unfold bind, deregister_plugins, try_except, api_call.
  destruct (api_deregister_plugin_path plugin_path (api s)) as [[[]|e] a] eqn:Hapi.
  - simpl. eexists _, _. split; [reflexivity|]. simpl. eauto.
  - destruct (is_ValueError e) eqn:He; simpl.
    + eexists _, _. split; [reflexivity|]. simpl. eauto.
    + eexists _, _. split; [reflexivity|]. simpl. eauto 10.
Qed.

(** The default host that [deregister_host] installs. *)
Lemma deregister_host_default (s : state) :
  exists s',
    deregister_host s = (Ok tt, s') /\ env s' = env s /\
    objects s' !! _registered_host s' = Some default_module.
Proof.
  eexists. split; [reflexivity|]. split; [reflexivity|].
  simpl. apply lookup_insert_eq.
Qed.

(** The first statement of [uninstall]: the hook of the active host is
    called when there is one, and [AttributeError] is swallowed. *)
Lemma uninstall_hook (s : state) :
  let hook :=
    try_except
      (h <- registered_host ;; _ <- call_method h "uninstall" [] ;; ret tt)
      is_AttributeError (fun _ => ret tt) in
  (forall (f : pyfun) r w,
     attrs_of s (_registered_host s) !! "uninstall" = Some (ACallable f) ->
     f [] (env s) = (r, w) ->
     (forall e, r = Err e -> is_AttributeError e = true) ->
     hook s = (Ok tt, set_env w s)) /\
  (attrs_of s (_registered_host s) !! "uninstall" = None ->
   hook s = (Ok tt, s)).
Proof.
  unfold try_except, registered_host, call_method, getattr, gets, bind.
  split.
  - intros f r w Hattr Hf Hr. rewrite Hattr. simpl. rewrite Hf.
    destruct r as [v|e]; [done|]. by rewrite (Hr e eq_refl).
  - intros Hattr. by rewrite Hattr.
Qed.

(** C9, as the code has it: [deregister_host] resets the host to the
    default host and returns, whatever the outgoing host is, but it calls
    no hook: the world is as it was. The [uninstall()] hook of the outgoing
    host is called by [uninstall], which calls it when present (a hook that
    returns, or raises [AttributeError]), swallows its absence, and then
    calls [deregister_host]; past that point [uninstall] only fails with an
    exception of [pyblish.api] other than [ValueError]. *)
Theorem deregister_host_resets :
  (forall s : state,
     exists s', deregister_host s = (Ok tt, s') /\ env s' = env s /\
     exists h, registered_host s' = (Ok h, s') /\ default_host_contract s' h) /\
  (forall (s : state) (f : pyfun) r w,
     attrs_of s (_registered_host s) !! "uninstall" = Some (ACallable f) ->
     f [] (env s) = (r, w) ->
     (forall e, r = Err e -> is_AttributeError e = true) ->
     exists r' s', uninstall s = (r', s') /\ env s' = w /\
     (exists h, registered_host s' = (Ok h, s') /\ default_host_contract s' h) /\
     (r' = Ok tt \/
      exists e, r' = Err e /\ is_ValueError e = false /\
                (api_deregister_plugin_path plugin_path (api s)).1 = Err e)) /\
  (forall s : state,
     attrs_of s (_registered_host s) !! "uninstall" = None ->
     exists r' s', uninstall s = (r', s') /\ env s' = env s /\
     (exists h, registered_host s' = (Ok h, s') /\ default_host_contract s' h) /\
     (r' = Ok tt \/
      exists e, r' = Err e /\ is_ValueError e = false /\
                (api_deregister_plugin_path plugin_path (api s)).1 = Err e)).
Proof.
  assert (Hfinish : forall s0 : state,
    exists r' s', (deregister_host ;;
                   deregister_plugins ;;
                   deregister_default_data ;;
                   deregister_default_families ;;
                   log_info "Successfully uninstalled Pyblish Starter!") s0
                  = (r', s') /\ env s' = env s0 /\
      (exists h, registered_host s' = (Ok h, s') /\ default_host_contract s' h) /\
      (r' = Ok tt \/
       exists e, r' = Err e /\ is_ValueError e = false /\
                 (api_deregister_plugin_path plugin_path (api s0)).1 = Err e)).
  { intros s0. destruct (deregister_host_default s0) as (s1 & Hd & Henv & Hobj).
    unfold bind at 1. rewrite Hd.
    destruct (uninstall_tail s1) as (r & s2 & Ht & Henv2 & Hobj2 & Hh2 & Hr).
    exists r, s2. split; [exact Ht|]. split; [congruence|]. split.
    - exists (_registered_host s2). split; [reflexivity|].
      apply default_module_contract. by rewrite Hobj2, Hh2.
    - replace (api s0) with (api s1); [exact Hr|].
      by injection Hd as <-. }
  split; [|split].
  - intros s. destruct (deregister_host_default s) as (s' & Hd & Henv & Hobj).
    exists s'. split; [done|]. split; [done|].
    exists (_registered_host s'). split; [done|].
    by apply default_module_contract.
  - intros s f r w Hattr Hf Hr.
    destruct (uninstall_hook s) as [Hhook _].
    unfold uninstall, bind at 1. rewrite (Hhook f r w Hattr Hf Hr).
    destruct (Hfinish (set_env w s)) as (r' & s' & Hu & Henv & Hhost & Hres).
    exists r', s'. by rewrite Hu.
  - intros s Hattr.
    destruct (uninstall_hook s) as [_ Hhook].
    unfold uninstall, bind at 1. rewrite (Hhook Hattr).
    destruct (Hfinish s) as (r' & s' & Hu & Henv & Hhost & Hres).
    exists r', s'. by rewrite Hu.
Qed.

(** *** Properties that every step keeps *)

Section Stable.

(** A property of well-formed states that does not depend on the log, the
    world, the state of [pyblish.api] or the items of the lists, and that
    new objects do not disturb. *)
Variable P : state -> Prop.
Hypothesis P_wf : forall s, P s -> wf s.
Hypothesis P_log : forall f s, P s -> P (set_log f s).
Hypothesis P_env : forall w s, P s -> P (set_env w s).
Hypothesis P_api : forall a s, P s -> P (set_api a s).
Hypothesis P_write :
  forall l xs s, P s -> is_Some (lists s !! l) -> P (set_lists <[l := xs]> s).
Hypothesis P_alloc_list : forall xs, preserves P (alloc_list xs).
Hypothesis P_alloc_object : forall o, preserves P (alloc_object o).

Lemma stable_list_append (registry : state -> loc) (x : pyval) :
  (forall s, wf s -> is_Some (lists s !! registry s)) ->
  preserves P (l <- gets registry ;; list_append l x).
Proof.
  intros Hreg. apply preserves_bind_gets. intros s Hs.
  apply P_write; [done | by apply Hreg, P_wf].
Qed.

Lemma stable_list_assign (registry : state -> loc) (xs : list pyval) :
  (forall s, wf s -> is_Some (lists s !! registry s)) ->
  preserves P (l <- gets registry ;; list_assign l xs).
Proof.
  intros Hreg. apply preserves_bind_gets. intros s Hs.
  apply P_write; [done | by apply Hreg, P_wf].
Qed.

Lemma stable_list_copy (registry : state -> loc) :
  preserves P (l <- gets registry ;; list_copy l).
Proof.
  apply preserves_bind_gets. intros s Hs.
  exact (P_alloc_list (list_items s (registry s)) s Hs).
Qed.

Lemma wf_data s : wf s -> is_Some (lists s !! _registered_data s).
Proof. by intros (_ & _ & ? & _). Qed.

Lemma wf_families s : wf s -> is_Some (lists s !! _registered_families s).
Proof. by intros (_ & _ & _ & ? & _). Qed.

Lemma wf_formats s : wf s -> is_Some (lists s !! _registered_formats s).
Proof. by intros (_ & _ & _ & _ & ? & _). Qed.

Lemma stable_register_data key value help :
  preserves P (register_data key value help).
Proof. apply stable_list_append, wf_data. Qed.

Lemma stable_register_family name data help :
  preserves P (register_family name data help).
Proof. apply stable_list_append, wf_families. Qed.

Lemma stable_log_info msg : preserves P (log_info msg).
Proof. apply preserves_modify. intros s. apply P_log. Qed.

Lemma stable_log_warning msg : preserves P (log_warning msg).
Proof. apply preserves_modify. intros s. apply P_log. Qed.

Lemma stable_api_call f : preserves P (api_call f).
Proof.
  intros s Hs. unfold api_call. destruct (f (api s)) as [r a]. by apply P_api.
Qed.

Lemma stable_register_default_data : preserves P register_default_data.
Proof.
  apply preserves_bind; [apply stable_register_data | intros _].
  apply preserves_bind; [apply stable_register_data | intros _].
  apply stable_register_data.
Qed.

Lemma stable_register_default_families :
  preserves P register_default_families.
Proof.
  apply preserves_bind; [apply stable_register_family | intros _].
  apply preserves_bind; [apply stable_register_family | intros _].
  apply stable_register_family.
Qed.

Lemma stable_deregister_plugins : preserves P deregister_plugins.
Proof.
  apply preserves_try; [apply stable_api_call|].
  intros e. apply stable_log_warning.
Qed.

Lemma stable_call (a : attr) args : preserves P (call a args).
Proof.
  intros s Hs. destruct a as [v|f]; [done|]. simpl.
  destruct (f args (env s)) as [r w]. by apply P_env.
Qed.

Lemma stable_call_method h name args : preserves P (call_method h name args).
Proof.
  apply preserves_bind; [|intros a; apply stable_call].
  intros s Hs. unfold getattr. by destruct (attrs_of s h !! name).
Qed.

Lemma stable_mutate l op : preserves P (mutate l op).
Proof.
  intros s Hs. unfold mutate. destruct (lists s !! l) as [xs|] eqn:Hl; [|done].
  destruct (apply_list_op op xs) as [xs'|e]; [|done].
  apply P_write; [done | by rewrite Hl].
Qed.

(** Past the reset of the host, [uninstall] keeps [P]. *)
Lemma stable_uninstall_tail :
  preserves P (deregister_plugins ;;
               deregister_default_data ;;
               deregister_default_families ;;
               log_info "Successfully uninstalled Pyblish Starter!").
Proof.
  apply preserves_bind; [apply stable_deregister_plugins | intros _].
  apply preserves_bind; [apply stable_list_assign, wf_data | intros _].
  apply preserves_bind; [apply stable_list_assign, wf_families | intros _].
  apply stable_log_info.
Qed.

(** Every step that neither sets nor resets the host keeps [P]. *)
Lemma stable_step (a : action) (s : state) :
  match a with
  | AInstall _ | ARegisterHost _ | ADeregisterHost | AUninstall => False
  | _ => True
  end ->
  P s -> P (step a s).
Proof.
  intros Ha Hs. destruct a; try done; simpl.
  - by apply stable_list_append; [apply wf_formats|].
  - by apply stable_register_data.
  - by apply stable_register_family.
  - by apply stable_register_default_data.
  - by apply stable_register_default_families.
  - by apply stable_list_copy.
  - by apply stable_list_copy.
  - by apply stable_list_copy.
  - by apply stable_list_assign; [apply wf_families|].
  - by apply stable_list_assign; [apply wf_data|].
  - by apply stable_api_call.
  - by apply stable_deregister_plugins.
  - by apply P_alloc_object.
  - by apply stable_mutate.
  - by apply (stable_call_method (_registered_host s) name args s).
Qed.

End Stable.

(** Well-formedness is such a property, *)
Lemma wf_write l xs s :
  wf s -> is_Some (lists s !! l) -> wf (set_lists <[l := xs]> s).
Proof.
  intros (Hl & Ho & Hd & Hf & Hm & Hh) Hin. unfold wf. simpl.
  repeat split; try done.
  - intros l' Hl'. apply lookup_insert_is_Some in Hl' as [<-|[_ Hl']];
      by apply Hl.
  - apply lookup_insert_is_Some'. by right.
  - apply lookup_insert_is_Some'. by right.
  - apply lookup_insert_is_Some'. by right.
Qed.

Lemma wf_alloc_list xs : preserves wf (alloc_list xs).
Proof.
  intros s (Hl & Ho & Hd & Hf & Hm & Hh). unfold wf. simpl.
  repeat split; try done.
  - intros l' Hl'. apply lookup_insert_is_Some in Hl' as [<-|[_ Hl']];
      [lia | apply Hl in Hl'; lia].
  - intros l' Hl'. apply Ho in Hl'. lia.
  - apply lookup_insert_is_Some'. by right.
  - apply lookup_insert_is_Some'. by right.
  - apply lookup_insert_is_Some'. by right.
Qed.

Lemma wf_alloc_object o : preserves wf (alloc_object o).
Proof.
  intros s (Hl & Ho & Hd & Hf & Hm & Hh). unfold wf. simpl.
  repeat split; try done.
  - intros l' Hl'. apply Hl in Hl'. lia.
  - intros l' Hl'. apply lookup_insert_is_Some in Hl' as [<-|[_ Hl']];
      [lia | apply Ho in Hl'; lia].
  - apply lookup_insert_is_Some'. by right.
Qed.

Lemma wf_set_registered_host h s :
  wf s -> is_Some (objects s !! h) -> wf (set_registered_host h s).
Proof. intros (Hl & Ho & Hd & Hf & Hm & Hh) Hin. by unfold wf. Qed.

Lemma wf_register_host host : preserves wf (register_host host).
Proof.
  intros s Hs. rewrite register_host_unfold.
  destruct (missing_members s host) as [|m ms] eqn:Hmiss; [|done].
  apply wf_set_registered_host; [done|].
  destruct (objects s !! host) as [o|] eqn:Ho; [by eexists|].
  exfalso. assert (Hin : "root" ∈ missing_members s host); [|by rewrite Hmiss in Hin; apply elem_of_nil in Hin].
  unfold missing_members. apply list_elem_of_filter. split; [|by left].
  unfold attrs_of. by rewrite Ho.
Qed.

Lemma wf_deregister_host : preserves wf deregister_host.
Proof.
  intros s Hs. apply wf_set_registered_host; [by apply wf_alloc_object|].
  simpl. rewrite lookup_insert_eq. by eexists.
Qed.

Lemma wf_stable_step (a : action) (s : state) :
  match a with
  | AInstall _ | ARegisterHost _ | ADeregisterHost | AUninstall => False
  | _ => True
  end ->
  wf s -> wf (step a s).
Proof.
  apply (stable_step wf); try done.
  - intros l xs s0 Hs0 Hin. by apply wf_write.
  - apply wf_alloc_list.
  - apply wf_alloc_object.
Qed.

Lemma wf_call_method h name args : preserves wf (call_method h name args).
Proof. apply (stable_call_method wf). done. Qed.

Lemma wf_install host : preserves wf (install host).
Proof.
  apply preserves_bind; [apply preserves_gets | intros b].
  apply preserves_bind.
  { destruct b; [|apply preserves_ret].
    apply preserves_bind; [apply wf_call_method | intros; apply preserves_ret]. }
  intros _. apply preserves_bind; [apply wf_register_host | intros _].
  apply preserves_bind; [by apply (stable_api_call wf) | intros _].
  apply preserves_bind.
  { apply (stable_register_default_data wf); try done.
    intros l xs s0 Hs0 Hin. by apply wf_write. }
  intros _. apply preserves_bind.
  { apply (stable_register_default_families wf); try done.
    intros l xs s0 Hs0 Hin. by apply wf_write. }
  intros _. by apply (stable_log_info wf).
Qed.

Lemma wf_uninstall : preserves wf uninstall.
Proof.
  apply preserves_bind.
  { apply preserves_try; [|intros; apply preserves_ret].
    apply preserves_bind; [apply preserves_gets | intros h].
    apply preserves_bind; [apply wf_call_method | intros; apply preserves_ret]. }
  intros _. apply preserves_bind; [apply wf_deregister_host | intros _].
  apply (stable_uninstall_tail wf); try done.
  intros l xs s0 Hs0 Hin. by apply wf_write.
Qed.

(** and every step keeps it: the states the module can reach are
    well-formed. *)
Lemma wf_step (a : action) (s : state) : wf s -> wf (step a s).
Proof.
  intros Hs.
  destruct a; try (by apply wf_stable_step); simpl.
  - by apply wf_install.
  - by apply wf_uninstall.
  - by apply wf_register_host.
  - by apply wf_deregister_host.
Qed.

Lemma wf_run (acts : list action) (s : state) : wf s -> wf (run acts s).
Proof.
  revert s. induction acts as [|a acts IH]; intros s Hs; [done|].
  apply (IH (step a s)). by apply wf_step.
Qed.

Lemma wf_initial_state (w : world) (a : ApiState) : wf (initial_state w a).
Proof.
  unfold wf. simpl. repeat split; try (by eexists).
  - intros l [xs Hl].
    destruct (decide (l = 3%positive)) as [->|H3]; [done|].
    destruct (decide (l = 2%positive)) as [->|H2]; [done|].
    destruct (decide (l = 1%positive)) as [->|H1]; [done|].
    exfalso. by rewrite !lookup_insert_ne, lookup_empty in Hl.
  - intros l [o Hl].
    destruct (decide (l = 4%positive)) as [->|H4]; [done|].
    exfalso. by rewrite lookup_insert_ne, lookup_empty in Hl.
Qed.

(** A default host in a well-formed state is such a property too. *)
Lemma default_write l xs s :
  wf s /\ default_installed s -> is_Some (lists s !! l) ->
  wf (set_lists <[l := xs]> s) /\ default_installed (set_lists <[l := xs]> s).
Proof. intros [Hwf Hd] Hin. split; [by apply wf_write | done]. Qed.

Lemma default_alloc_list xs :
  preserves (fun s => wf s /\ default_installed s) (alloc_list xs).
Proof.
  intros s [Hwf [Hobj Hlt]]. split; [by apply wf_alloc_list|].
  split; [done | simpl; lia].
Qed.

Lemma default_alloc_object o :
  preserves (fun s => wf s /\ default_installed s) (alloc_object o).
Proof.
  intros s [Hwf [Hobj Hlt]]. split; [by apply wf_alloc_object|].
  split; simpl; [|lia]. rewrite lookup_insert_ne; [done | lia].
Qed.

Lemma default_deregister_host (s : state) :
  wf s ->
  wf (deregister_host s).2 /\ default_installed (deregister_host s).2.
Proof.
  intros Hwf. split; [by apply wf_deregister_host|].
  split; simpl; [apply lookup_insert_eq | lia].
Qed.

Ltac stable_default :=
  first [ by intros ? [? ?]
        | by intros ? ? [? ?]; split
        | by intros ? ? ? ? ?; apply default_write
        | apply default_alloc_list
        | apply default_alloc_object ].

Lemma default_uninstall :
  preserves (fun s => wf s /\ default_installed s) uninstall.
Proof.
  apply preserves_bind.
  { apply preserves_try; [|intros; apply preserves_ret].
    apply preserves_bind; [apply preserves_gets | intros h].
    apply preserves_bind; [|intros; apply preserves_ret].
    apply (stable_call_method (fun s => wf s /\ default_installed s));
      stable_default. }
  intros _. apply preserves_bind.
  { intros s [Hwf _]. by apply default_deregister_host. }
  intros _.
  apply (stable_uninstall_tail (fun s => wf s /\ default_installed s));
    stable_default.
Qed.

(** A default host stays in place as long as no host is registered. *)
Lemma default_step (a : action) (s : state) :
  registers_host a = false ->
  wf s /\ default_installed s ->
  wf (step a s) /\ default_installed (step a s).
Proof.
  intros Ha Hs.
  destruct a; try discriminate Ha;
    try (apply (stable_step (fun s => wf s /\ default_installed s));
         first [ exact Hs | exact I | stable_default ]).
  - by apply default_uninstall.
  - apply default_deregister_host. by destruct Hs.
Qed.

Lemma default_run (acts : list action) (s : state) :
  forallb (fun a => negb (registers_host a)) acts = true ->
  wf s /\ default_installed s ->
  wf (run acts s) /\ default_installed (run acts s).
Proof.
  revert s. induction acts as [|a acts IH]; intros s Hacts Hs; [done|].
  simpl in Hacts. apply andb_prop in Hacts as [Ha Hacts].
  apply (IH (step a s) Hacts). apply default_step; [|done].
  by destruct (registers_host a).
Qed.

(** C8: as long as [register_host] has not been called (directly or by
    [install]), and likewise from a [deregister_host] on, [registered_host]
    returns a usable default host, whatever else the program does: its
    [root()] returns the current working directory, its [load] returns
    [None] and its [create] returns an identifier, without raising and
    without changing anything. *)
Theorem registered_host_default :
  (forall (w : world) (a : ApiState) (acts : list action),
     forallb (fun a => negb (registers_host a)) acts = true ->
     let s := run acts (initial_state w a) in
     exists h, registered_host s = (Ok h, s) /\ default_host_contract s h) /\
  (forall (s0 : state) (acts : list action),
     wf s0 ->
     forallb (fun a => negb (registers_host a)) acts = true ->
     exists s1, deregister_host s0 = (Ok tt, s1) /\
     let s := run acts s1 in
     exists h, registered_host s = (Ok h, s) /\ default_host_contract s h).
Proof.
  split.
  - intros w a acts Hacts s.
    destruct (default_run acts (initial_state w a) Hacts) as [_ [Hobj _]].
    { split; [apply wf_initial_state | by split]. }
    exists (_registered_host s). split; [done|].
    by apply default_module_contract.
  - intros s0 acts Hwf Hacts. eexists. split; [reflexivity|]. intros s.
    destruct (default_run acts (deregister_host s0).2 Hacts) as [_ [Hobj _]].
    { by apply default_deregister_host. }
    exists (_registered_host s). split; [done|].
    by apply default_module_contract.
Qed.

(** *** The registry lists *)

Lemma mutate_registry (registry : state -> loc) (l : loc) (op : list_op)
    (s s0 : state) :
  (forall f s, registry (set_lists f s) = registry s) ->
  l <> registry s0 ->
  registry s = registry s0 ->
  let s' := (mutate l op s).2 in
  registry s' = registry s0 /\
  lists s' !! registry s0 = lists s !! registry s0.
Proof.
  intros Hreg Hne Heq. unfold mutate.
  destruct (lists s !! l) as [xs|]; [|done].
  destruct (apply_list_op op xs) as [xs'|e]; simpl; [|done].
  rewrite Hreg. split; [done|]. by apply lookup_insert_ne.
Qed.

Lemma mutate_all_registry (registry : state -> loc) (l : loc)
    (ops : list list_op) (s s0 : state) :
  (forall f s, registry (set_lists f s) = registry s) ->
  l <> registry s0 ->
  registry s = registry s0 ->
  let s' := mutate_all l ops s in
  registry s' = registry s0 /\
  lists s' !! registry s0 = lists s !! registry s0.
Proof.
  intros Hreg Hne. revert s. induction ops as [|op ops IH]; intros s Heq.
  - done.
  - destruct (mutate_registry registry l op s s0 Hreg Hne Heq) as [H1 H2].
    destruct (IH _ H1) as [H3 H4]. cbv zeta.
    change (mutate_all l (op :: ops) s)
      with (mutate_all l ops (mutate l op s).2).
    split; [exact H3|]. by rewrite H4, H2.
Qed.

(** A global that [list_copy] reads and never rebinds is handed out as a
    copy. *)
Lemma list_copy_hands_out (registry : state -> loc)
    (accessor : M state exn loc) (s : state) :
  (forall s, accessor s = list_copy (registry s) s) ->
  (forall f s, registry (set_lists f s) = registry s) ->
  (forall n s, registry (set_next_loc n s) = registry s) ->
  (forall l, is_Some (lists s !! l) -> (l < next_loc s)%positive) ->
  is_Some (lists s !! registry s) ->
  hands_out_copy accessor registry s.
Proof.
  intros Hacc Hreg Hnext Hfresh Hin.
  assert (Hne : next_loc s <> registry s).
  { intros Heq. apply Hfresh in Hin. rewrite <- Heq in Hin. lia. }
  assert (Hnone : lists s !! next_loc s = None).
  { destruct (lists s !! next_loc s) eqn:E; [|done].
    assert (next_loc s < next_loc s)%positive by (apply Hfresh; eauto). lia. }
  exists (next_loc s), (list_copy (registry s) s).2.
  split; [rewrite Hacc; reflexivity|].
  split; [done|]. split; [done|]. split.
  { unfold list_items. simpl. by rewrite lookup_insert_eq. }
  intros ops. set (s1 := (list_copy (registry s) s).2). intros s2.
  assert (H1 : registry s1 = registry s).
  { unfold s1. simpl. by rewrite Hnext, Hreg. }
  assert (H2 : lists s1 !! registry s = lists s !! registry s).
  { unfold s1. simpl. by apply lookup_insert_ne. }
  destruct (mutate_all_registry registry (next_loc s) ops s1 s Hreg Hne H1)
    as [H3 H4].
  fold s2 in H3, H4.
  assert (Hitems : list_items s2 (registry s2) = list_items s (registry s)).
  { unfold list_items. by rewrite H3, H4, H2. }
  split; [exact Hitems|].
  exists (next_loc s2). eexists. split; [rewrite Hacc; reflexivity|].
  rewrite <- Hitems. unfold list_items at 1. simpl. by rewrite lookup_insert_eq.
Qed.

(** C10: [registered_data], [registered_families] and [registered_formats]
    each return a new list object holding the items of their registry
    list; appending to it, removing from it, clearing it or changing it in
    any other way leaves the registry as it was, and the next call of the
    same accessor returns the same items as before. *)
Theorem registered_lists_are_copies (s : state) :
  wf s ->
  hands_out_copy registered_data _registered_data s /\
  hands_out_copy registered_families _registered_families s /\
  hands_out_copy registered_formats _registered_formats s.
Proof.
  intros (Hlists & _ & Hdata & Hfam & Hfmt & _).
  repeat split; apply list_copy_hands_out; try done.
Qed.

End Facts.

(** *** Concrete runs *)

Import Examples.

Lemma register_host_incomplete_witness :
  exists msg,
    @register_host list_api 5%positive (with_object host_without_create)
      = (Err (AssertionError msg), with_object host_without_create) /\
    msg = "Incomplete interface for host: '"
          +:+ str_of (with_object host_without_create) 5%positive +:+ "'"
          +:+ newline +:+ "Missing: "
          +:+ join ", " (missing_members (with_object host_without_create)
                           5%positive) /\
    forall member,
      member ∈ required_members ->
      attrs_of (with_object host_without_create) 5%positive !! member = None ->
      substring_of member msg.
Proof.
  apply (@register_host_incomplete list_api).
  exists "create". split; [do 2 right; left | reflexivity].
Defined.

(** C5, as stated, fails: registering a host without [create] raises an
    exception whose class is [AssertionError], not
    [IncompleteInterfaceError]; the message does name [create]. *)
Lemma register_host_raises_assertion_error :
  attrs_of (with_object host_without_create) 5%positive !! "create" = None /\
  (@register_host list_api 5%positive (with_object host_without_create)).1
  = Err (AssertionError
           ("Incomplete interface for host: '<module 'maya'>'" +:+ newline
            +:+ "Missing: create")) /\
  fails_with "AssertionError" (@register_host list_api 5%positive)
    (with_object host_without_create) /\
  ~ fails_with "IncompleteInterfaceError" (@register_host list_api 5%positive)
      (with_object host_without_create).
Proof.
  split; [reflexivity|]. split; [by vm_compute|]. split.
  - eexists. split; [by vm_compute | reflexivity].
  - intros (e & He & Hclass). vm_compute in He. injection He as <-.
    discriminate Hclass.
Qed.

Lemma register_host_failure_keeps_host_witness :
  exists e s',
    @register_host list_api 5%positive (with_object host_without_create)
      = (Err e, s') /\
    (registered_host s').1
      = (registered_host (with_object host_without_create)).1 /\
    s' = with_object host_without_create.
Proof.
  apply (@register_host_failure_keeps_host list_api).
  exists "create". split; [do 2 right; left | reflexivity].
Defined.

Lemma register_host_complete_witness :
  @register_host list_api 5%positive (with_object host_with_uninstall)
    = (Ok tt, set_registered_host 5%positive (with_object host_with_uninstall)) /\
  registered_host (set_registered_host 5%positive (with_object host_with_uninstall))
    = (Ok 5%positive,
       set_registered_host 5%positive (with_object host_with_uninstall)).
Proof.
  apply (@register_host_complete list_api).
  intros member Hmem. unfold required_members in Hmem.
  repeat (apply elem_of_cons in Hmem as [->|Hmem]; [by eexists|]).
  by apply elem_of_nil in Hmem.
Defined.

(** C9, as stated, fails: with a host registered whose [uninstall()] hook
    writes to the standard output, [deregister_host] returns without the
    hook having been called. *)
Lemma deregister_host_calls_no_hook :
  attrs_of hosted (_registered_host hosted) !! "uninstall"
    = Some (ACallable say_goodbye) /\
  (@deregister_host list_api hosted).1 = Ok tt /\
  stdout (env (@deregister_host list_api hosted).2) = "" /\
  stdout (say_goodbye [] (env hosted)).2 = "goodbye" /\
  ~ invokes_uninstall_hook (@deregister_host list_api) hosted.
Proof.
  repeat split; try reflexivity.
  intros Hhook. specialize (Hhook say_goodbye eq_refl). discriminate Hhook.
Qed.

Lemma registered_lists_are_copies_witness :
  hands_out_copy (@registered_data list_api) _registered_data fresh /\
  hands_out_copy (@registered_families list_api) _registered_families fresh /\
  hands_out_copy (@registered_formats list_api) _registered_formats fresh.
Proof.
  apply (@registered_lists_are_copies list_api).
  unfold wf. repeat split; try (by eexists).
  - intros l [xs Hl]. vm_compute in Hl |- *.
    destruct l as [[l|l|]|[l|l|]|]; try done; destruct l; done.
  - intros l [o Hl]. vm_compute in Hl |- *.
    destruct l as [[l|l|]|[[l|l|]|[l|l|]|]|]; try done.
Defined.

End StarterFacts.

(** ** The path registry, discovery and the event bus of avalon *)

Module AvalonFacts.
Import Avalon.

Section Facts.

Context {U : Type}.

Implicit Types (s : session U) (c : category) (p : path) (h : loc).

Lemma set_warnings_same s : set_warnings (fun _ => warnings s) s = s.
Proof. by destruct s. Qed.

(** *** Deduplication *)

Lemma occurrences_cons (q : string) (d : plugin) (l : list plugin) :
  occurrences q (d :: l)
  = (if decide (qualname d = q) then 1 else 0) + occurrences q l.
Proof.
  unfold occurrences. rewrite filter_cons. by destruct (decide (qualname d = q)).
Qed.

Lemma occurrences_dedup (q : string) (l : list plugin) (seen : list string) :
  occurrences q (dedup_by_name seen l)
  = if decide (q ∈ seen) then 0
    else if decide (q ∈ map qualname l) then 1 else 0.
Proof.
  revert seen. induction l as [|d l IH]; intros seen; simpl.
  - destruct (decide (q ∈ seen)); [done|].
    destruct (decide (q ∈ [])) as [Hin|]; [by apply elem_of_nil in Hin | done].
  - case_bool_decide as Hd; [rewrite IH | rewrite occurrences_cons, IH];
      repeat match goal with
             | |- context [decide ?P] => destruct (decide P)
             end;
      try done; exfalso; rewrite ?elem_of_cons in *; intuition congruence.
Qed.

Lemma dedup_by_name_subset (d : plugin) (l : list plugin) (seen : list string) :
  d ∈ dedup_by_name seen l -> d ∈ l.
Proof.
  revert seen. induction l as [|x l IH]; intros seen; simpl; [done|].
  destruct (bool_decide (qualname x ∈ seen)).
  - intros Hin. right. by eapply IH.
  - intros Hin. apply elem_of_cons in Hin as [->|Hin]; [by left|].
    right. by eapply IH.
Qed.

(** *** Discovery *)

(** What one file contributes. *)
Lemma scan_file (required : list string) c p (f : source_file)
    (found : list plugin) s :
  exists ws,
    (defs <- try_except (load_file f) (fun _ => true)
               (fun e => match e with
                         | Raised x => warn (WImport p (file_name f) x)
                         | _ => ret tt
                         end ;; ret []) ;;
     ret (found ++ filter (fun d => qualifies required c d) defs)) s
    = (Ok (found ++ match file_load f with
                    | Ok defs => filter (fun d => qualifies required c d) defs
                    | Err _ => []
                    end),
       set_warnings (fun _ => ws) s).
Proof.
  unfold bind, try_except, load_file. destruct (file_load f) as [defs|e].
  - exists (warnings s). simpl. by rewrite set_warnings_same.
  - by eexists.
Qed.

Lemma scan_files (required : list string) c p (files : list source_file)
    (found : list plugin) s :
  exists ws,
    for_each files
      (fun found f =>
         defs <- try_except (load_file f) (fun _ => true)
                   (fun e => match e with
                             | Raised x => warn (WImport p (file_name f) x)
                             | _ => ret tt
                             end ;; ret []) ;;
         ret (found ++ filter (fun d => qualifies required c d) defs))
      found s
    = (Ok (found ++
           concat (map (fun f => match file_load f with
                                 | Ok defs => filter (fun d => qualifies required c d) defs
                                 | Err _ => []
                                 end) files)),
       set_warnings (fun _ => ws) s).
Proof.
  revert found s. induction files as [|f files IH]; intros found s.
  - exists (warnings s). simpl. by rewrite app_nil_r, set_warnings_same.
  - destruct (scan_file required c p f found s) as [ws1 H1].
    cbn [for_each]. rewrite (bind_ok _ _ _ _ _ H1).
    destruct (IH (found ++ match file_load f with
                           | Ok defs => filter (fun d => qualifies required c d) defs
                           | Err _ => []
                           end) (set_warnings (fun _ => ws1) s)) as [ws Hws].
    exists ws. rewrite Hws. cbn [map concat]. by rewrite <- app_assoc.
Qed.

Lemma scan_path_spec (required : list string) c (fs : filesystem) p s :
  exists ws,
    scan_path required c fs p s
    = (Ok (directory_plugins required c fs p), set_warnings (fun _ => ws) s).
Proof.
  unfold scan_path, directory_plugins. destruct (fs !! p) as [files|].
  - destruct (scan_files required c p files [] s) as [ws Hws]. by exists ws.
  - by eexists.
Qed.

Lemma scan_paths (required : list string) c (fs : filesystem)
    (paths : list path) (found : list plugin) s :
  exists ws,
    for_each paths
      (fun found p => ps <- scan_path required c fs p ;; ret (found ++ ps))
      found s
    = (Ok (found ++ concat (map (directory_plugins required c fs) paths)),
       set_warnings (fun _ => ws) s).
Proof.
  revert found s. induction paths as [|p paths IH]; intros found s.
  - exists (warnings s). simpl. by rewrite app_nil_r, set_warnings_same.
  - destruct (scan_path_spec required c fs p s) as [ws1 H1].
    cbn [for_each].
    rewrite (bind_ok _ _ _ _ (found ++ directory_plugins required c fs p)
               (bind_ok _ _ _ _ _ H1)).
    destruct (IH (found ++ directory_plugins required c fs p)
                (set_warnings (fun _ => ws1) s)) as [ws Hws].
    exists ws. rewrite Hws. cbn [map concat]. by rewrite <- app_assoc.
Qed.

(** [discover] on a recognised category returns the deduplicated list of
    the static registrations followed by what each registered directory
    contributes, and changes nothing but the log of warnings. *)
Lemma discover_spec (contracts : gmap category (list string))
    (fs : filesystem) c (required : list string) s :
  contracts !! c = Some required ->
  exists ws,
    discover contracts fs c s
    = (Ok (dedup_by_name []
             (statics_of s c ++
              concat (map (directory_plugins required c fs) (paths_of s c)))),
       set_warnings (fun _ => ws) s).
Proof.
  intros Hc. unfold discover. rewrite Hc.
  destruct (scan_paths required c fs (paths_of s c) (statics_of s c) s)
    as [ws Hws].
  exists ws.
  rewrite (bind_ok _ _ s s (statics_of s c)) by reflexivity.
  rewrite (bind_ok _ _ s s (paths_of s c)) by reflexivity.
  by rewrite (bind_ok _ _ _ _ _ Hws).
Qed.

Lemma register_plugin_path_adds c p s :
  exists s',
    register_plugin_path c p s = (Ok tt, s') /\
    p ∈ paths_of s' c /\
    static_plugins s' = static_plugins s.
Proof.
  unfold register_plugin_path, bind, gets.
  case_bool_decide as Hin.
  - by exists s.
  - eexists. split; [reflexivity|]. split; [|reflexivity].
    unfold paths_of. simpl. rewrite lookup_insert_eq. simpl.
    apply elem_of_app. right. by left.
Qed.

Lemma directory_plugins_elem (required : list string) c (fs : filesystem) p
    (files : list source_file) (f : source_file) (defs : list plugin)
    (d : plugin) :
  fs !! p = Some files -> f ∈ files -> file_load f = Ok defs -> d ∈ defs ->
  qualifies required c d = true ->
  d ∈ directory_plugins required c fs p.
Proof.
  intros Hp Hf Hload Hd Hq. unfold directory_plugins. rewrite Hp.
  apply list_elem_of_In, in_concat.
  exists (filter (fun d => qualifies required c d) defs). split.
  - apply in_map_iff. exists f. rewrite Hload. split; [done|].
    by apply list_elem_of_In.
  - apply list_elem_of_In, list_elem_of_filter. by rewrite Hq.
Qed.

Lemma elem_of_concat_map {A B} (g : A -> list B) (x : A) (y : B)
    (l : list A) :
  x ∈ l -> y ∈ g x -> y ∈ concat (map g l).
Proof.
  intros Hx Hy. apply list_elem_of_In, in_concat. exists (g x). split.
  - apply in_map. by apply list_elem_of_In.
  - by apply list_elem_of_In.
Qed.

Lemma elem_of_map_qualname (d : plugin) (l : list plugin) :
  d ∈ l -> qualname d ∈ map qualname l.
Proof. intros Hd. apply list_elem_of_In, in_map. by apply list_elem_of_In. Qed.

(** Every call of a series of [discover] finds a plug-in of a registered
    directory once. *)
Lemma discover_times_once (contracts : gmap category (list string))
    (fs : filesystem) c p (required : list string) (d : plugin) (n : nat) s :
  contracts !! c = Some required ->
  p ∈ paths_of s c ->
  d ∈ directory_plugins required c fs p ->
  length (discover_times contracts fs c n s) = n /\
  Forall (fun r => exists l, r = Ok l /\ occurrences (qualname d) l = 1)
    (discover_times contracts fs c n s).
Proof.
  intros Hc Hp Hd. revert s Hp. induction n as [|n IH]; intros s Hp.
  - split; [done | constructor].
  - destruct (discover_spec contracts fs c required s Hc) as [ws Hws].
    cbn [discover_times]. rewrite Hws.
    destruct (IH (set_warnings (fun _ => ws) s) Hp) as [Hlen Hall].
    split; [by simpl; rewrite Hlen|]. constructor; [|exact Hall].
    eexists. split; [reflexivity|].
    rewrite occurrences_dedup.
    rewrite decide_False by apply not_elem_of_nil.
    rewrite decide_True; [done|].
    apply elem_of_map_qualname, elem_of_app. right.
    by apply (elem_of_concat_map _ p).
Qed.

(** C2: once a directory that holds a valid plug-in file for a category is
    registered with [register_plugin_path], every call of [discover] for
    that category returns a list in which the qualified name of the plug-in
    occurs exactly once, however many times [discover] is called. *)
Theorem discover_finds_once (contracts : gmap category (list string))
    (fs : filesystem) c p (required : list string)
    (files : list source_file) (f : source_file) (defs : list plugin)
    (d : plugin) (n : nat) s :
  contracts !! c = Some required ->
  fs !! p = Some files -> f ∈ files -> file_load f = Ok defs -> d ∈ defs ->
  qualifies required c d = true ->
  exists s1,
    register_plugin_path c p s = (Ok tt, s1) /\
    length (discover_times contracts fs c n s1) = n /\
    Forall (fun r => exists l, r = Ok l /\ occurrences (qualname d) l = 1)
      (discover_times contracts fs c n s1).
Proof.
  intros Hc Hp Hf Hload Hd Hq.
  destruct (register_plugin_path_adds c p s) as (s1 & Hreg & Hin & _).
  exists s1. split; [exact Hreg|].
  apply (discover_times_once contracts fs c p required); try done.
  by eapply directory_plugins_elem.
Qed.

(** C4: [deregister_plugin_path] raises [NotRegisteredError], and changes
    nothing, for a pair that is not registered; for a registered pair it
    removes the path, and [discover] then no longer finds a plug-in that
    neither a static registration nor another registered directory of the
    category provides. *)
Theorem deregister_plugin_path_removes (contracts : gmap category (list string))
    (fs : filesystem) c p s :
  (p ∉ paths_of s c ->
   deregister_plugin_path c p s = (Err NotRegisteredError, s)) /\
  (p ∈ paths_of s c ->
   exists s',
     deregister_plugin_path c p s = (Ok tt, s') /\
     (p ∉ paths_of s' c) /\
     (forall p', p' <> p -> ((p' ∈ paths_of s' c) <-> (p' ∈ paths_of s c))) /\
     forall q : string,
       q ∉ map qualname (statics_of s c) ->
       (forall required p',
          contracts !! c = Some required -> p' ∈ paths_of s c -> p' <> p ->
          q ∉ map qualname (directory_plugins required c fs p')) ->
       ~ finds (discover contracts fs c s').1 q).
Proof.
  unfold deregister_plugin_path, bind, gets. split; intros Hp.
  - by rewrite bool_decide_eq_false_2.
  - rewrite bool_decide_eq_true_2 by done.
    eexists. split; [reflexivity|].
    assert (Hpaths : forall p',
              (p' ∈ paths_of
                 (set_plugin_paths
                    <[c := filter (fun p' => p' ≠ p) (paths_of s c)]> s) c)
              <-> (p' <> p /\ p' ∈ paths_of s c)).
    { intros p'. unfold paths_of at 1. simpl. rewrite lookup_insert_eq. simpl.
      by rewrite list_elem_of_filter. }
    split; [|split].
    + intros Hin. apply Hpaths in Hin. by destruct Hin.
    + intros p' Hne. rewrite Hpaths. tauto.
    + intros q Hstatic Hother (l & Hl & Hq).
      destruct (contracts !! c) as [required|] eqn:Hc.
      2:{ unfold discover in Hl. rewrite Hc in Hl. discriminate Hl. }
      destruct (discover_spec contracts fs c required
                  (set_plugin_paths
                     <[c := filter (fun p' => p' ≠ p) (paths_of s c)]> s) Hc)
        as [ws Hws].
      rewrite Hws in Hl. simpl in Hl. injection Hl as <-.
      apply list_elem_of_In, in_map_iff in Hq as (d & Hname & Hd).
      apply list_elem_of_In, dedup_by_name_subset, elem_of_app in Hd
        as [Hd|Hd].
      * apply Hstatic. rewrite <- Hname. by apply elem_of_map_qualname.
      * apply list_elem_of_In, in_concat in Hd as (ds & Hds & Hd).
        apply in_map_iff in Hds as (p' & <- & Hp').
        apply list_elem_of_In, Hpaths in Hp' as [Hne Hp'].
        apply (Hother required p' eq_refl Hp' Hne).
        rewrite <- Hname. by apply elem_of_map_qualname, list_elem_of_In.
Qed.

(** *** The event bus *)

Lemma call_isolated_spec (payload : list pyval) h (cb : callback U) s :
  exists s',
    call_isolated payload (h, cb) s = (Ok tt, s') /\
    trace s' = trace s ++ [h] /\
    user s' = (cb payload (user s)).2 /\
    warnings s' = warnings s ++ match (cb payload (user s)).1 with
                                | Ok _ => []
                                | Err e => [WCallback h e]
                                end /\
    handlers s' = handlers s /\ live s' = live s /\ next_ref s' = next_ref s.
Proof.
  unfold call_isolated, try_except, invoke. simpl.
  destruct (cb payload (user s)) as [[[]|e] u]; simpl;
    (eexists; split; [reflexivity|]); simpl; by rewrite ?app_nil_r.
Qed.

Lemma emit_loop (payload : list pyval) (snapshot : list (loc * callback U)) s :
  exists s',
    for_each snapshot (fun _ target => call_isolated payload target) tt s
      = (Ok tt, s') /\
    trace s' = trace s ++ snapshot.*1 /\
    user s' = acted payload snapshot (user s) /\
    handlers s' = handlers s /\ live s' = live s /\ next_ref s' = next_ref s.
Proof.
  revert s. induction snapshot as [|[h cb] snapshot IH]; intros s.
  - exists s. simpl. by rewrite app_nil_r.
  - destruct (call_isolated_spec payload h cb s)
      as (s1 & H1 & Ht1 & Hu1 & _ & Hh1 & Hl1 & Hn1).
    destruct (IH s1) as (s2 & H2 & Ht2 & Hu2 & Hh2 & Hl2 & Hn2).
    exists s2. cbn [for_each]. rewrite (bind_ok _ _ _ _ _ H1).
    split; [exact H2|]. rewrite Ht2, Ht1, Hu2, Hu1, Hh2, Hl2, Hn2.
    by rewrite <- app_assoc.
Qed.

Lemma snapshot_handles s (hs : list loc) :
  (omap (fun h => pair h <$> live s !! h) hs).*1
  = filter (fun h => is_Some (live s !! h)) hs.
Proof.
  induction hs as [|h hs IH]; [done|].
  rewrite filter_cons.
  destruct (decide (is_Some (live s !! h))) as [[cb Hcb]|Hdead]; simpl.
  - rewrite Hcb. simpl. f_equal. exact IH.
  - destruct (live s !! h) as [cb|] eqn:Hh; [exfalso; apply Hdead; eauto|].
    exact IH.
Qed.

(** [emit] returns, having called the live handles of the event, in
    registration order, and no other; the handles of the event that are
    not live are dropped from its registry. *)
Lemma emit_spec (event : string) (payload : list pyval) s :
  exists s',
    emit event payload s = (Ok tt, s') /\
    trace s' = trace s ++ filter (fun h => is_Some (live s !! h))
                            (handlers_of s event) /\
    user s' = acted payload (live_callbacks s event) (user s) /\
    handlers s'
    = alter (fun _ => filter (fun h => is_Some (live s !! h))
                        (handlers_of s event)) event (handlers s) /\
    live s' = live s /\ next_ref s' = next_ref s.
Proof.
  unfold emit, bind, gets, modify.
  destruct (emit_loop payload
              (omap (fun h => pair h <$> live s !! h) (handlers_of s event))
              (set_handlers
                 (alter (fun _ => (omap (fun h => pair h <$> live s !! h)
                                     (handlers_of s event)).*1) event) s))
    as (s' & Hs' & Ht & Hu & Hh & Hl & Hn).
  exists s'. split; [exact Hs'|].
  rewrite Ht, Hu, Hh, Hl, Hn. simpl. by rewrite snapshot_handles.
Qed.

(** The handles of an event after an [emit]. *)
Lemma emit_handlers_of (event event' : string) (payload : list pyval) s :
  handlers_of (emit event payload s).2 event'
  = if decide (event' = event)
    then filter (fun h => is_Some (live s !! h)) (handlers_of s event)
    else handlers_of s event'.
Proof.
  destruct (emit_spec event payload s) as (s' & Hs' & _ & _ & Hh & _).
  rewrite Hs'. simpl. unfold handlers_of at 1. rewrite Hh.
  case_decide as Heq.
  - subst event'. rewrite lookup_alter_eq. unfold handlers_of.
    by destruct (handlers s !! event).
  - by rewrite lookup_alter_ne.
Qed.

Lemma on_spec (event : string) h s :
  on event h s
  = (Ok tt, if decide (h ∈ handlers_of s event) then s
            else set_handlers <[event := handlers_of s event ++ [h]]> s).
Proof. unfold on, bind, gets. by case_bool_decide; case_decide. Qed.

(** The handles of an event after an [on]. *)
Lemma on_handlers_of (event event' : string) h s :
  handlers_of (on event h s).2 event'
  = if decide (event' = event /\ h ∉ handlers_of s event)
    then handlers_of s event ++ [h]
    else handlers_of s event'.
Proof.
  rewrite on_spec. simpl.
  destruct (decide (h ∈ handlers_of s event)) as [Hin|Hout].
  - rewrite decide_False; [done | tauto].
  - unfold handlers_of at 1. simpl.
    destruct (decide (event' = event)) as [->|Hne].
    + rewrite lookup_insert_eq. by rewrite decide_True.
    + rewrite lookup_insert_ne by done. rewrite decide_False; [done | tauto].
Qed.

Lemma on_keeps (event : string) h s :
  live (on event h s).2 = live s /\
  next_ref (on event h s).2 = next_ref s /\
  trace (on event h s).2 = trace s /\
  user (on event h s).2 = user s.
Proof. rewrite on_spec. simpl. by case_decide. Qed.

(** A handle that has been collected stays collected, and is not called,
    whatever the program does next. *)
Lemma step_collected h (a : action U) s :
  live s !! h = None -> (h < next_ref s)%positive ->
  live (step a s) !! h = None /\ (h < next_ref (step a s))%positive /\
  exists t, trace (step a s) = trace s ++ t /\ h ∉ t.
Proof.
  intros Hdead Hlt.
  assert (Hsame : forall s', live s' = live s -> next_ref s' = next_ref s ->
            trace s' = trace s ->
            live s' !! h = None /\ (h < next_ref s')%positive /\
            exists t, trace s' = trace s ++ t /\ h ∉ t).
  { intros s' -> -> ->. repeat split; try done. exists [].
    split; [by rewrite app_nil_r | apply not_elem_of_nil]. }
  destruct a as [cb|h'|event h'|event payload|c p|c p|p|contracts fs c]; simpl.
  - split; [|split].
    + rewrite lookup_insert_ne; [done | lia].
    + lia.
    + exists []. split; [by rewrite app_nil_r | apply not_elem_of_nil].
  - split; [|split]; [|done|].
    + destruct (decide (h' = h)) as [->|Hne];
        [apply lookup_delete_eq | by rewrite lookup_delete_ne].
    + exists []. split; [by rewrite app_nil_r | apply not_elem_of_nil].
  - rewrite on_spec. simpl. by case_decide; apply Hsame.
  - destruct (emit_spec event payload s) as (s' & Hs' & Ht & _ & _ & Hl & Hn).
    rewrite Hs'. simpl. rewrite Hl, Hn. repeat split; try done.
    eexists. split; [exact Ht|].
    intros Hin. apply list_elem_of_filter in Hin as [[cb Hcb] _]. congruence.
  - destruct (register_plugin_path_adds c p s) as (s' & Hs' & _).
    unfold register_plugin_path, bind, gets in *.
    by case_bool_decide; apply Hsame.
  - unfold deregister_plugin_path, bind, gets.
    by case_bool_decide; apply Hsame.
  - by apply Hsame.
  - destruct (contracts !! c) as [required|] eqn:Hc.
    + destruct (discover_spec contracts fs c required s Hc) as [ws ->].
      by apply Hsame.
    + unfold discover. rewrite Hc. by apply Hsame.
Qed.

Lemma run_collected h (acts : list (action U)) s :
  live s !! h = None -> (h < next_ref s)%positive ->
  live (run acts s) !! h = None /\ (h < next_ref (run acts s))%positive /\
  exists t, trace (run acts s) = trace s ++ t /\ h ∉ t.
Proof.
  revert s. induction acts as [|a acts IH]; intros s Hdead Hlt.
  - repeat split; try done. exists [].
    split; [by rewrite app_nil_r | apply not_elem_of_nil].
  - destruct (step_collected h a s Hdead Hlt) as (Hd1 & Hl1 & t1 & Ht1 & Hn1).
    destruct (IH (step a s) Hd1 Hl1) as (Hd2 & Hl2 & t2 & Ht2 & Hn2).
    change (run (a :: acts) s) with (run acts (step a s)).
    repeat split; try done. exists (t1 ++ t2).
    split; [by rewrite Ht2, Ht1, <- app_assoc|].
    intros Hin. apply elem_of_app in Hin as [?|?]; done.
Qed.

(** C1: with two callbacks registered with [on] for an event, the first of
    which raises when it is called, [emit] calls both, in registration
    order, returns without the exception (which it logs as a warning with
    the identity of the callback), and the second callback has acted
    exactly once, on what the first one left. *)
Theorem emit_isolates_failure (event : string) (r1 r2 : loc)
    (cb1 cb2 : callback U) (payload : list pyval) (e : exn) (u1 : U) s :
  handlers_of s event = [] ->
  r1 <> r2 ->
  live s !! r1 = Some cb1 ->
  live s !! r2 = Some cb2 ->
  cb1 payload (user s) = (Err e, u1) ->
  exists s1 s2 s3,
    on event r1 s = (Ok tt, s1) /\
    on event r2 s1 = (Ok tt, s2) /\
    emit event payload s2 = (Ok tt, s3) /\
    trace s3 = trace s ++ [r1; r2] /\
    user s3 = (cb2 payload u1).2 /\
    WCallback r1 e ∈ warnings s3.
Proof.
  intros Hnone Hne Hr1 Hr2 Hraise.
  set (s1 := set_handlers <[event := [r1]]> s).
  set (s2 := set_handlers <[event := [r1; r2]]> s1).
  assert (H1 : on event r1 s = (Ok tt, s1)).
  { rewrite on_spec, Hnone. by rewrite decide_False by apply not_elem_of_nil. }
  assert (Hh1 : handlers_of s1 event = [r1]).
  { unfold handlers_of, s1. simpl. by rewrite lookup_insert_eq. }
  assert (H2 : on event r2 s1 = (Ok tt, s2)).
  { rewrite on_spec, Hh1. rewrite decide_False; [done|].
    intros Hin. apply list_elem_of_singleton in Hin. done. }
  assert (Hhs : handlers_of s2 event = [r1; r2]).
  { unfold handlers_of, s2. simpl. by rewrite lookup_insert_eq. }
  exists s1, s2.
  unfold emit.
  rewrite (bind_ok _ _ s2 s2 [r1; r2]) by (unfold gets; by rewrite Hhs).
  rewrite (bind_ok _ _ s2 s2 [(r1, cb1); (r2, cb2)]).
  2:{ unfold gets. simpl.
      change (live s2) with (live s). by rewrite Hr1, Hr2. }
  rewrite (bind_ok _ _ s2 _ tt) by reflexivity.
  set (s2' := set_handlers _ s2).
  destruct (call_isolated_spec payload r1 cb1 s2')
    as (sa & Ha & Hta & Hua & Hwa & _).
  destruct (call_isolated_spec payload r2 cb2 sa)
    as (sb & Hb & Htb & Hub & Hwb & _).
  exists sb. split; [exact H1|]. split; [exact H2|]. split.
  { cbn [for_each]. rewrite (bind_ok _ _ _ _ _ Ha).
    by rewrite (bind_ok _ _ _ _ _ Hb). }
  change (user s2') with (user s) in Hua, Hwa.
  rewrite Hraise in Hua, Hwa. simpl in Hua, Hwa.
  split; [|split].
  - rewrite Htb, Hta. by rewrite <- app_assoc.
  - by rewrite Hub, Hua.
  - rewrite Hwb, Hwa. apply elem_of_app. left. apply elem_of_app. right.
    by left.
Qed.

(** A live handle registered for an event stays registered for it, for
    the same callback, whatever the program does next. *)
Lemma step_stays_registered (event : string) h (cb : callback U)
    (a : action U) s :
  stays_registered event h cb s -> stays_registered event h cb (step a s).
Proof.
  intros (Hlt & Hnd & Hreg).
  assert (Hsame : forall s', live s' = live s -> next_ref s' = next_ref s ->
            handlers s' = handlers s -> stays_registered event h cb s').
  { intros s' Hl Hn Hh. unfold stays_registered, handlers_of.
    by rewrite Hl, Hn, Hh. }
  destruct a as [cb'|h'|event' h'|event' payload|c p|c p|p|contracts fs c];
    simpl.
  - unfold stays_registered. simpl. split; [lia|]. split; [exact Hnd|].
    intros c. rewrite lookup_insert_ne by lia. apply Hreg.
  - unfold stays_registered. simpl. split; [exact Hlt|]. split; [exact Hnd|].
    intros c Hc. apply Hreg.
    destruct (decide (h' = h)) as [->|Hne].
    + by rewrite lookup_delete_eq in Hc.
    + by rewrite lookup_delete_ne in Hc.
  - destruct (on_keeps event' h' s) as (Hl & Hn & _).
    unfold stays_registered. rewrite Hl, Hn, on_handlers_of.
    split; [exact Hlt|].
    destruct (decide (event = event' /\ h' ∉ handlers_of s event'))
      as [[-> Hout]|Hno].
    + split.
      * apply NoDup_app. split; [exact Hnd|]. split; [|apply NoDup_singleton].
        intros x Hx Hx'. apply list_elem_of_singleton in Hx'. by subst x.
      * intros c Hc. destruct (Hreg c Hc) as [-> Hin].
        split; [done|]. apply elem_of_app. by left.
    + by split.
  - destruct (emit_spec event' payload s) as (s' & Hs' & _ & _ & _ & Hl & Hn).
    pose proof (emit_handlers_of event' event payload s) as Hh.
    rewrite Hs' in Hh. simpl in Hh. rewrite Hs'. simpl.
    unfold stays_registered. rewrite Hl, Hn, Hh.
    split; [exact Hlt|]. case_decide as Heq; [subst event'|by split].
    split; [by apply NoDup_filter|].
    intros c Hc. destruct (Hreg c Hc) as [-> Hin].
    split; [done|]. apply list_elem_of_filter. by split; [eexists|].
  - unfold register_plugin_path, bind, gets.
    by case_bool_decide; apply Hsame.
  - unfold deregister_plugin_path, bind, gets.
    by case_bool_decide; apply Hsame.
  - by apply Hsame.
  - destruct (contracts !! c) as [required|] eqn:Hc.
    + destruct (discover_spec contracts fs c required s Hc) as [ws ->].
      by apply Hsame.
    + unfold discover. rewrite Hc. by apply Hsame.
Qed.

Lemma run_stays_registered (event : string) h (cb : callback U)
    (acts : list (action U)) s :
  stays_registered event h cb s -> stays_registered event h cb (run acts s).
Proof.
  revert s. induction acts as [|a acts IH]; intros s Hs; [done|].
  change (run (a :: acts) s) with (run acts (step a s)).
  by apply IH, step_stays_registered.
Qed.

Lemma acted_app (payload : list pyval) (l1 l2 : list (loc * callback U)) u :
  acted payload (l1 ++ l2) u = acted payload l2 (acted payload l1 u).
Proof. unfold acted. by rewrite foldl_app. Qed.

(** A handle registered once and live is resolved once by [emit]. *)
Lemma live_callbacks_split (event : string) h (cb : callback U) s :
  NoDup (handlers_of s event) -> h ∈ handlers_of s event ->
  live s !! h = Some cb ->
  exists before after,
    live_callbacks s event = before ++ (h, cb) :: after /\
    h ∉ before.*1 /\ h ∉ after.*1.
Proof.
  intros Hnd Hin Hlive. unfold live_callbacks.
  apply list_elem_of_split in Hin as (l1 & l2 & Heq). rewrite Heq in *.
  apply NoDup_app in Hnd as (_ & Hl1 & Hnd2).
  apply NoDup_cons in Hnd2 as [Hl2 _].
  exists (omap (fun h' => pair h' <$> live s !! h') l1),
         (omap (fun h' => pair h' <$> live s !! h') l2).
  split; [|split].
  - rewrite omap_app. simpl. by rewrite Hlive.
  - rewrite snapshot_handles. intros Hx.
    apply list_elem_of_filter in Hx as [_ Hx]. apply (Hl1 h Hx). by left.
  - rewrite snapshot_handles. intros Hx.
    by apply list_elem_of_filter in Hx as [_ Hx].
Qed.

(** C3: of two callbacks registered with [on] for an event, one is
    collected. Whatever the program does afterwards through the registries
    (new callbacks, registrations, collections, events, discoveries), every
    later [emit], of any event, returns without raising and calls exactly
    the handles of its event that are still live, in registration order,
    each acting on the state the one before left; the collected handle is
    neither among the calls made since its collection nor live again. The
    other callback, as long as it is live itself, is still called by an
    [emit] of the event: once, with the payload, on the state left by the
    callbacks registered before it. *)
Theorem emit_skips_collected (event : string) h h2 (cb cb2 : callback U)
    (acts : list (action U)) (event' : string) (payload : list pyval) s :
  wf s ->
  NoDup (handlers_of s event) ->
  live s !! h = Some cb ->
  live s !! h2 = Some cb2 ->
  h <> h2 ->
  exists s0 s1 s2,
    on event h s = (Ok tt, s0) /\
    on event h2 s0 = (Ok tt, s1) /\
    collect h s1 = (Ok tt, s2) /\
    let s3 := run acts s2 in
    exists s4,
      emit event' payload s3 = (Ok tt, s4) /\
      trace s4 = trace s3 ++ filter (fun h' => is_Some (live s3 !! h'))
                               (handlers_of s3 event') /\
      user s4 = acted payload (live_callbacks s3 event') (user s3) /\
      (exists t, trace s4 = trace s2 ++ t /\ h ∉ t) /\
      live s3 !! h = None /\ live s4 !! h = None /\
      (event' = event -> is_Some (live s3 !! h2) ->
       exists before after,
         live_callbacks s3 event = before ++ (h2, cb2) :: after /\
         h2 ∉ before.*1 /\ h2 ∉ after.*1 /\
         trace s4 = trace s3 ++ before.*1 ++ h2 :: after.*1 /\
         user s4
         = acted payload after
             (cb2 payload (acted payload before (user s3))).2).
Proof.
  intros Hwf Hnd Hlive Hlive2 Hne.
  assert (Hlt : (h < next_ref s)%positive) by (apply Hwf; eauto).
  assert (Hlt2 : (h2 < next_ref s)%positive) by (apply Hwf; eauto).
  exists (on event h s).2, (on event h2 (on event h s).2).2.
  eexists. split; [by rewrite on_spec|]. split; [by rewrite on_spec|].
  split; [reflexivity|].
  set (s0 := (on event h s).2). set (s1 := (on event h2 s0).2).
  set (s2 := (set_live _ _ _)). intros s3.
  destruct (on_keeps event h s) as (Hl0 & Hn0 & _). fold s0 in Hl0, Hn0.
  destruct (on_keeps event h2 s0) as (Hl1 & Hn1 & _). fold s1 in Hl1, Hn1.
  assert (Hd2 : live s2 !! h = None).
  { unfold s2. simpl. apply lookup_delete_eq. }
  assert (Hn2 : next_ref s2 = next_ref s).
  { unfold s2. simpl. by rewrite Hn1, Hn0. }
  assert (Hreg2 : stays_registered event h2 cb2 s2).
  { split; [by rewrite Hn2|].
    assert (Hh2 : handlers_of s2 event = handlers_of s1 event) by done.
    rewrite Hh2. unfold s1. rewrite on_handlers_of.
    assert (Hnd0 : NoDup (handlers_of s0 event)).
    { unfold s0. rewrite on_handlers_of. case_decide as Hc; [|done].
      destruct Hc as [_ Hout]. apply NoDup_app.
      split; [exact Hnd|]. split; [|apply NoDup_singleton].
      intros x Hx Hx'. apply list_elem_of_singleton in Hx'. by subst x. }
    assert (Hcb : forall k : callback U, live s2 !! h2 = Some k -> k = cb2).
    { intros c Hc. unfold s2 in Hc. simpl in Hc.
      rewrite lookup_delete_ne, Hl1, Hl0, Hlive2 in Hc by done.
      by injection Hc as <-. }
    case_decide as Hdec.
    - destruct Hdec as [_ Hout]. split.
      + apply NoDup_app. split; [exact Hnd0|]. split; [|apply NoDup_singleton].
        intros x Hx Hx'. apply list_elem_of_singleton in Hx'. by subst x.
      + intros c Hc. split; [by apply Hcb|]. apply elem_of_app. right. by left.
    - split; [exact Hnd0|].
      intros c Hc. split; [by apply Hcb|].
      destruct (decide (h2 ∈ handlers_of s0 event)); [done|]. tauto. }
  destruct (run_collected h acts s2 Hd2 ltac:(by rewrite Hn2))
    as (Hd3 & Hl3 & t3 & Ht3 & Hn3).
  fold s3 in Hd3, Hl3, Ht3.
  pose proof (run_stays_registered event h2 cb2 acts s2 Hreg2) as Hreg3.
  fold s3 in Hreg3. destruct Hreg3 as (_ & Hnd3 & Hreg3).
  destruct (emit_spec event' payload s3)
    as (s4 & Hs4 & Ht4 & Hu4 & _ & Hl4 & Hn4).
  exists s4. split; [exact Hs4|]. split; [exact Ht4|]. split; [exact Hu4|].
  split; [|split; [|split]].
  - eexists. split; [by rewrite Ht4, Ht3, <- app_assoc|].
    intros Hin. apply elem_of_app in Hin as [Hin|Hin]; [done|].
    apply list_elem_of_filter in Hin as [[cb' Hcb'] _]. congruence.
  - exact Hd3.
  - by rewrite Hl4.
  - intros -> [c Hc]. destruct (Hreg3 c Hc) as [-> Hin].
    destruct (live_callbacks_split event h2 cb2 s3 Hnd3 Hin Hc)
      as (before & after & Heq & Hb & Ha).
    exists before, after. split; [exact Heq|]. split; [exact Hb|].
    split; [exact Ha|]. split.
    + rewrite Ht4, <- snapshot_handles.
      change (omap _ (handlers_of s3 event)) with (live_callbacks s3 event).
      by rewrite Heq, fmap_app.
    + rewrite Hu4, Heq, acted_app. reflexivity.
Qed.

End Facts.

(** *** Concrete runs *)

Import Examples.

(** [test_on_with_failing_callback]: the counter is back at 0 after the
    event, and both callbacks have been called. *)
Example test_on_with_failing_callback :
  let s := (on "some_event" 2%positive
              (on "some_event" 1%positive session_with_callbacks).2).2 in
  (emit "some_event" [] s).1 = Ok tt /\
  user (emit "some_event" [] s).2 = 0%Z /\
  trace (emit "some_event" [] s).2 = [1%positive; 2%positive].
Proof. by vm_compute. Qed.

(** [test_on_with_garbage_callback]: the counter goes to 1 at the first
    event and stays there at the second, which comes after the callback
    has been collected and calls nothing. *)
Example test_on_with_garbage_callback :
  let s1 := (on "some_event" 2%positive session_with_callbacks).2 in
  let s2 := (emit "some_event" [] s1).2 in
  let s3 := (collect 2%positive s2).2 in
  user s1 = 0%Z /\
  (emit "some_event" [] s1).1 = Ok tt /\ user s2 = 1%Z /\
  (emit "some_event" [] s3).1 = Ok tt /\
  user (emit "some_event" [] s3).2 = 1%Z /\
  trace (emit "some_event" [] s3).2 = [2%positive].
Proof. by vm_compute. Qed.

(** A callback collected next to one that is still live: the event calls
    the live one, and only it. *)
Example emit_calls_the_live_callback :
  let s := run [AOn "some_event" 1%positive; AOn "some_event" 2%positive;
                ACollect 1%positive] session_with_callbacks in
  (emit "some_event" [] s).1 = Ok tt /\
  user (emit "some_event" [] s).2 = 1%Z /\
  trace (emit "some_event" [] s).2 = [2%positive] /\
  handlers_of (emit "some_event" [] s).2 "some_event" = [2%positive].
Proof. by vm_compute. Qed.

(** [test_loaders]: [DemoLoader] is discovered, next to a file that does
    not import. *)
Example test_loaders :
  (discover contracts0 fs0 "Loader"
     (register_plugin_path "Loader" "/tmp/plugins" session0).2).1
  = Ok [demo_loader].
Proof. by vm_compute. Qed.

(** [clear] of the tests: no path is left, no handler is left, and no
    [NotRegisteredError] is raised on the way. *)
Example test_clear :
  (clear busy_session).1 = Ok tt /\
  paths_of busy_session "Loader" = ["/tmp/plugins"; "/tmp/more"] /\
  paths_of (clear busy_session).2 "Loader" = [] /\
  paths_of (clear busy_session).2 "Creator" = [] /\
  handlers (clear busy_session).2 = ∅.
Proof. by vm_compute. Qed.

Lemma emit_isolates_failure_witness :
  exists s1 s2 s3,
    on "some_event" 1%positive session_with_callbacks = (Ok tt, s1) /\
    on "some_event" 2%positive s1 = (Ok tt, s2) /\
    emit "some_event" [] s2 = (Ok tt, s3) /\
    trace s3 = trace session_with_callbacks ++ [1%positive; 2%positive] /\
    user s3 = (good_event [] (-1)%Z).2 /\
    WCallback 1%positive (Exception "I'm a dick") ∈ warnings s3.
Proof.
  apply (emit_isolates_failure "some_event" 1%positive 2%positive
           bad_event good_event [] (Exception "I'm a dick") (-1)%Z
           session_with_callbacks); try reflexivity.
  discriminate.
Defined.

Lemma discover_finds_once_witness :
  exists s1,
    register_plugin_path "Loader" "/tmp/plugins" session0 = (Ok tt, s1) /\
    length (discover_times contracts0 fs0 "Loader" 3 s1) = 3 /\
    Forall (fun r => exists l, r = Ok l /\ occurrences "DemoLoader" l = 1)
      (discover_times contracts0 fs0 "Loader" 3 s1).
Proof.
  apply (discover_finds_once contracts0 fs0 "Loader" "/tmp/plugins"
           ["process"] plugins_listing my_loader my_loader_definitions
           demo_loader 3 session0);
    try reflexivity.
  - right. left.
  - right. left.
Defined.

Lemma emit_skips_collected_witness :
  exists s0 s1 s2,
    on "some_event" 1%positive session_with_callbacks = (Ok tt, s0) /\
    on "some_event" 2%positive s0 = (Ok tt, s1) /\
    collect 1%positive s1 = (Ok tt, s2) /\
    let s3 := run [AEmit "other_event" []; ANewCallback good_event;
                   AOn "some_event" 3%positive] s2 in
    exists s4,
      emit "some_event" [] s3 = (Ok tt, s4) /\
      trace s4 = trace s3 ++ filter (fun h' => is_Some (live s3 !! h'))
                               (handlers_of s3 "some_event") /\
      user s4 = acted [] (live_callbacks s3 "some_event") (user s3) /\
      (exists t, trace s4 = trace s2 ++ t /\ 1%positive ∉ t) /\
      live s3 !! 1%positive = None /\ live s4 !! 1%positive = None /\
      ("some_event" = "some_event" -> is_Some (live s3 !! 2%positive) ->
       exists before after,
         live_callbacks s3 "some_event"
         = before ++ (2%positive, good_event) :: after /\
         2%positive ∉ before.*1 /\ 2%positive ∉ after.*1 /\
         trace s4 = trace s3 ++ before.*1 ++ 2%positive :: after.*1 /\
         user s4
         = acted [] after (good_event [] (acted [] before (user s3))).2).
Proof.
  apply (emit_skips_collected "some_event" 1%positive 2%positive
           bad_event good_event
           [AEmit "other_event" []; ANewCallback good_event;
            AOn "some_event" 3%positive]
           "some_event" [] session_with_callbacks);
    [|apply NoDup_nil_2|reflexivity|reflexivity|discriminate].
  intros h [cb Hh]. change (next_ref session_with_callbacks) with 3%positive.
  destruct (decide (h = 1%positive)) as [->|H1]; [lia|].
  destruct (decide (h = 2%positive)) as [->|H2]; [lia|].
  exfalso. unfold session_with_callbacks in Hh. simpl in Hh.
  rewrite lookup_insert_ne in Hh by done.
  rewrite lookup_insert_ne in Hh by done.
  by rewrite lookup_empty in Hh.
Defined.

End AvalonFacts.

(** ** More on the registries of pyblish_starter *)

Module StarterExtras.
Import Starter Defaults StarterFacts.

Section Extras.

Context `{pyblish_api}.

Lemma register_data_appends key value help (s : state) :
  register_data key value help s
  = (Ok tt,
     set_lists <[_registered_data s :=
                   list_items s (_registered_data s)
                   ++ [data_entry key value help]]> s).
Proof. reflexivity. Qed.

Lemma register_family_appends name data help (s : state) :
  register_family name data help s
  = (Ok tt,
     set_lists <[_registered_families s :=
                   list_items s (_registered_families s)
                   ++ [family_entry name data help]]> s).
Proof. reflexivity. Qed.

Lemma list_items_written (l : loc) (xs : list pyval) (s : state) :
  list_items (set_lists <[l := xs]> s) l = xs.
Proof. unfold list_items. simpl. by rewrite lookup_insert_eq. Qed.

Lemma list_items_other (l l' : loc) (xs : list pyval) (s : state) :
  l <> l' -> list_items (set_lists <[l := xs]> s) l' = list_items s l'.
Proof. intros Hne. unfold list_items. simpl. by rewrite lookup_insert_ne. Qed.

(** The list an accessor returns holds the items of its registry. *)
Lemma list_copy_items (l : loc) (s : state) :
  exists l' s',
    list_copy l s = (Ok l', s') /\ list_items s' l' = list_items s l.
Proof.
  eexists _, _. split; [reflexivity|].
  unfold list_items at 1. simpl. by rewrite lookup_insert_eq.
Qed.

(** X1: what is registered is what the accessor returns next: after
    [register_data], [register_family] or [register_format], the accessor
    of that registry returns the items it held before followed by the new
    one, a dictionary for data and families, where a [help] left out is
    the empty string; nothing is deduplicated or replaced. *)
Theorem registered_after_register (s : state) :
  (forall key value help,
     exists s1 l s2,
       register_data key value help s = (Ok tt, s1) /\
       registered_data s1 = (Ok l, s2) /\
       list_items s2 l
       = list_items s (_registered_data s) ++ [data_entry key value help]) /\
  (forall name data help,
     exists s1 l s2,
       register_family name data help s = (Ok tt, s1) /\
       registered_families s1 = (Ok l, s2) /\
       list_items s2 l
       = list_items s (_registered_families s)
         ++ [family_entry name data help]) /\
  (forall format,
     exists s1 l s2,
       register_format format s = (Ok tt, s1) /\
       registered_formats s1 = (Ok l, s2) /\
       list_items s2 l = list_items s (_registered_formats s) ++ [format]).
Proof.
  split; [|split].
  - intros key value help. eexists _, _, _.
    split; [apply register_data_appends|]. split; [reflexivity|].
    unfold list_items at 1. simpl. rewrite lookup_insert_eq. simpl.
    apply list_items_written.
  - intros name data help. eexists _, _, _.
    split; [apply register_family_appends|]. split; [reflexivity|].
    unfold list_items at 1. simpl. rewrite lookup_insert_eq. simpl.
    apply list_items_written.
  - intros format. eexists _, _, _.
    split; [reflexivity|]. split; [reflexivity|].
    unfold list_items at 1. simpl. rewrite lookup_insert_eq. simpl.
    apply list_items_written.
Qed.

Lemma register_default_data_appends (s : state) :
  register_default_data s
  = (Ok tt,
     set_lists <[_registered_data s :=
                   list_items s (_registered_data s) ++ default_data]> s).
Proof.
  unfold register_default_data.
  rewrite (bind_ok _ _ _ _ _ (register_data_appends _ _ _ s)).
  rewrite (bind_ok _ _ _ _ _ (register_data_appends _ _ _ _)).
  rewrite register_data_appends. f_equal.
  change (_registered_data (set_lists _ _)) with (_registered_data s).
  rewrite !list_items_written. destruct s. unfold set_lists. simpl. f_equal.
  rewrite !insert_insert_eq. by rewrite <- !app_assoc.
Qed.

Lemma register_default_families_appends (s : state) :
  register_default_families s
  = (Ok tt,
     set_lists <[_registered_families s :=
                   list_items s (_registered_families s)
                   ++ default_families]> s).
Proof.
  unfold register_default_families.
  rewrite (bind_ok _ _ _ _ _ (register_family_appends _ _ _ s)).
  rewrite (bind_ok _ _ _ _ _ (register_family_appends _ _ _ _)).
  rewrite register_family_appends. f_equal.
  change (_registered_families (set_lists _ _)) with (_registered_families s).
  rewrite !list_items_written. destruct s. unfold set_lists. simpl. f_equal.
  rewrite !insert_insert_eq. by rewrite <- !app_assoc.
Qed.

(** X2: the default registrations pile up: [n] calls of
    [register_default_data] leave the data registry with what it held
    followed by [n] times the three default entries, and likewise
    [register_default_families]; neither looks at what is already there. *)
Theorem default_registrations_accumulate (n : nat) (s : state) :
  list_items (repeated n register_default_data s) (_registered_data s)
  = list_items s (_registered_data s) ++ concat (replicate n default_data) /\
  list_items (repeated n register_default_families s) (_registered_families s)
  = list_items s (_registered_families s)
    ++ concat (replicate n default_families).
Proof.
  split.
  - revert s. induction n as [|n IH]; intros s; cbn [repeated replicate concat].
    + by rewrite app_nil_r.
    + rewrite register_default_data_appends. cbn [snd].
      specialize (IH (set_lists
                        <[_registered_data s :=
                            list_items s (_registered_data s) ++ default_data]> s)).
      change (_registered_data (set_lists _ _)) with (_registered_data s) in IH.
      rewrite IH, list_items_written. by rewrite <- app_assoc.
  - revert s. induction n as [|n IH]; intros s; cbn [repeated replicate concat].
    + by rewrite app_nil_r.
    + rewrite register_default_families_appends. cbn [snd].
      specialize (IH (set_lists
                        <[_registered_families s :=
                            list_items s (_registered_families s)
                            ++ default_families]> s)).
      change (_registered_families (set_lists _ _))
        with (_registered_families s) in IH.
      rewrite IH, list_items_written. by rewrite <- app_assoc.
Qed.

(** X3: [deregister_default_data] and [deregister_default_families] empty
    their registry in place, whatever it holds, the default entries or
    others; a list that the accessor handed out before keeps its items. *)
Theorem deregister_default_clears_registry (s : state) :
  wf s ->
  (exists l s1 s2,
     registered_data s = (Ok l, s1) /\
     deregister_default_data s1 = (Ok tt, s2) /\
     _registered_data s2 = _registered_data s /\
     list_items s2 (_registered_data s2) = [] /\
     list_items s2 l = list_items s (_registered_data s)) /\
  (exists l s1 s2,
     registered_families s = (Ok l, s1) /\
     deregister_default_families s1 = (Ok tt, s2) /\
     _registered_families s2 = _registered_families s /\
     list_items s2 (_registered_families s2) = [] /\
     list_items s2 l = list_items s (_registered_families s)).
Proof.
  intros (Hlists & _ & Hdata & Hfam & _).
  split.
  - assert (Hne : _registered_data s <> next_loc s).
    { apply Hlists in Hdata. lia. }
    eexists _, _, _. split; [reflexivity|]. split; [reflexivity|].
    split; [reflexivity|]. split; [apply list_items_written|].
    rewrite list_items_other by done.
    unfold list_items at 1. simpl. by rewrite lookup_insert_eq.
  - assert (Hne : _registered_families s <> next_loc s).
    { apply Hlists in Hfam. lia. }
    eexists _, _, _. split; [reflexivity|]. split; [reflexivity|].
    split; [reflexivity|]. split; [apply list_items_written|].
    rewrite list_items_other by done.
    unfold list_items at 1. simpl. by rewrite lookup_insert_eq.
Qed.

(** *** [install] and [uninstall] around the hooks of the host

    A hook is code of the host: it may do anything, calls into this module
    included. What follows is therefore stated from the state [s1] that the
    hook leaves, whatever that state is. *)

(** A statement that follows another one runs in the state the first one
    leaves, unless the first one raises. *)
Lemma then_runs_after {A B} (first : M state exn A) (next : M state exn B)
    (s s1 : state) (r : result exn A) :
  first s = (r, s1) ->
  (first ;; next) s = match r with
                      | Ok _ => next s1
                      | Err e => (Err e, s1)
                      end.
Proof. intros Hfirst. unfold bind. rewrite Hfirst. by destruct r. Qed.

Lemma install_unfold (host : loc) :
  install host = (install_hook_call host ;; install_registrations host).
Proof. reflexivity. Qed.

Lemma uninstall_unfold :
  uninstall = (uninstall_hook_call ;; uninstall_deregistrations).
Proof. reflexivity. Qed.

Ltac uninstall_case :=
  repeat split;
  first [ done | by left | by right | by intros ? ].

(** What [uninstall] does to the lists once the hook is over: nothing,
    or, when it gets past [deregister_plugins], the two registries
    emptied. *)
Lemma uninstall_lists (s : state) :
  let s' := (uninstall_deregistrations s).2 in
  _registered_data s' = _registered_data s /\
  _registered_families s' = _registered_families s /\
  _registered_formats s' = _registered_formats s /\
  (lists s' = lists s \/
   lists s'
   = <[_registered_families s := []]> (<[_registered_data s := []]> (lists s))) /\
  ((uninstall_deregistrations s).1 = Ok tt ->
   lists s'
   = <[_registered_families s := []]> (<[_registered_data s := []]> (lists s))).
Proof.
  unfold uninstall_deregistrations, bind, deregister_plugins, try_except,
    api_call.
  simpl.
  destruct (api_deregister_plugin_path plugin_path (api s))
    as [[[]|e] a]; simpl; [uninstall_case|].
  destruct (is_ValueError e); simpl; uninstall_case.
Qed.

(** X4: [uninstall] never touches the registered formats, for which the
    module has no deregistration: once the [uninstall()] hook of the host
    is over, in whatever state [s1] it leaves, the formats stay what they
    are in [s1], whether [uninstall] returns or raises; when it returns,
    the data and family registries are empty, whatever they held. *)
Theorem uninstall_registries (s s1 : state) (r : result exn unit) :
  uninstall_hook_call s = (r, s1) ->
  distinct_registries s1 ->
  list_items (uninstall s).2 (_registered_formats (uninstall s).2)
  = list_items s1 (_registered_formats s1) /\
  ((uninstall s).1 = Ok tt ->
   list_items (uninstall s).2 (_registered_data (uninstall s).2) = [] /\
   list_items (uninstall s).2 (_registered_families (uninstall s).2) = []).
Proof.
  intros Hhook (Hdf & Hdm & Hfm).
  rewrite uninstall_unfold, (then_runs_after _ _ s s1 r Hhook).
  destruct r as [[]|e]; [|by split].
  destruct (uninstall_lists s1) as (Hd & Hf & Hm & Hlists & Hok).
  simpl in Hd, Hf, Hm, Hlists, Hok.
  rewrite Hd, Hf, Hm. unfold list_items. split.
  - destruct Hlists as [-> | ->]; [done|].
    by rewrite !lookup_insert_ne.
  - intros Hr. rewrite (Hok Hr). split.
    + rewrite lookup_insert_ne by done. by rewrite lookup_insert_eq.
    + by rewrite lookup_insert_eq.
Qed.

(** X5: [install] calls the [install()] hook of the host before it
    checks the interface. When the hook raises, [install] raises the same
    exception and stops in the state [s1] the hook leaves; when the hook
    returns and the host, as the hook leaves it, lacks a required member,
    [install] fails on the interface, in [s1] again: past the hook, no
    host, plug-in path, data or family has been registered. *)
Theorem install_runs_hook_first (s s1 : state) (host : loc)
    (r : result exn unit) :
  install_hook_call host s = (r, s1) ->
  (forall e, r = Err e -> install host s = (Err e, s1)) /\
  (r = Ok tt ->
   (exists member,
      member ∈ required_members /\ attrs_of s1 host !! member = None) ->
   exists msg, install host s = (Err (AssertionError msg), s1)).
Proof.
  intros Hhook.
  rewrite install_unfold, (then_runs_after _ _ s s1 r Hhook).
  split.
  - by intros e ->.
  - intros -> (m0 & Hreq & Hnone).
    unfold install_registrations, bind at 1.
    rewrite register_host_unfold.
    assert (Hin : m0 ∈ missing_members s1 host).
    { unfold missing_members. by apply list_elem_of_filter. }
    destruct (missing_members s1 host) as [|m ms];
      [by apply elem_of_nil in Hin|].
    by eexists.
Qed.

(** X6: [install] of a host whose hook, if it has one, returns, leaving a
    state [s1] in which the host is complete and [pyblish.api] accepts the
    plug-in path: the host becomes the active host, the three default data
    entries and the three default families are appended to what their
    registries hold in [s1], the formats are left alone, and the success
    is logged; nothing else changes past the hook. *)
Theorem install_registers_everything (s s1 : state) (host : loc)
    (a' : ApiState) :
  install_hook_call host s = (Ok tt, s1) ->
  distinct_registries s1 ->
  (forall member,
     member ∈ required_members -> is_Some (attrs_of s1 host !! member)) ->
  api_register_plugin_path plugin_path (api s1) = (Ok tt, a') ->
  exists s',
    install host s = (Ok tt, s') /\
    registered_host s' = (Ok host, s') /\
    env s' = env s1 /\ objects s' = objects s1 /\ api s' = a' /\
    list_items s' (_registered_data s')
    = list_items s1 (_registered_data s1) ++ default_data /\
    list_items s' (_registered_families s')
    = list_items s1 (_registered_families s1) ++ default_families /\
    list_items s' (_registered_formats s')
    = list_items s1 (_registered_formats s1) /\
    log s' = log s1 ++ [("INFO", "Successfully installed Pyblish Starter!")].
Proof.
  intros Hhook (Hdf & Hdm & Hfm) Hall Hapi.
  assert (Hmiss : missing_members s1 host = []).
  { destruct (missing_members s1 host) as [|m ms] eqn:E; [done|].
    assert (Hm : m ∈ missing_members s1 host) by (rewrite E; left).
    apply list_elem_of_filter in Hm as [Hnone Hmem].
    destruct (Hall m Hmem) as [x Hx]. congruence. }
  rewrite install_unfold, (then_runs_after _ _ s s1 _ Hhook).
  unfold install_registrations.
  rewrite (bind_ok _ _ _ (set_registered_host host s1) tt).
  2:{ by rewrite register_host_unfold, Hmiss. }
  rewrite (bind_ok _ _ _ (set_api a' (set_registered_host host s1)) tt).
  2:{ unfold register_plugins, api_call. simpl. by rewrite Hapi. }
  rewrite (bind_ok _ _ _ _ _ (register_default_data_appends _)).
  rewrite (bind_ok _ _ _ _ _ (register_default_families_appends _)).
  eexists. split; [reflexivity|]. split; [reflexivity|].
  split; [reflexivity|]. split; [reflexivity|]. split; [reflexivity|].
  unfold list_items. simpl. split; [|split; [|split]].
  - rewrite lookup_insert_ne by done. by rewrite lookup_insert_eq.
  - rewrite lookup_insert_eq. by rewrite lookup_insert_ne.
  - by rewrite !lookup_insert_ne.
  - done.
Qed.

(** X7: [uninstall] swallows [AttributeError] and nothing else. When the
    call of the [uninstall()] hook of the active host raises another
    exception, [uninstall] raises it and stops in the state [s1] the hook
    leaves: nothing is deregistered. When it raises [AttributeError],
    because the host has no such hook or from inside the hook,
    [uninstall] goes on with the deregistrations from [s1]. An [uninstall]
    attribute that is not callable makes the call a [TypeError], which is
    not swallowed. *)
Theorem uninstall_hook_failure (s : state) :
  (forall e s1,
     uninstall_hook_body s = (Err e, s1) ->
     is_AttributeError e = false ->
     uninstall s = (Err e, s1)) /\
  (forall e s1,
     uninstall_hook_body s = (Err e, s1) ->
     is_AttributeError e = true ->
     uninstall s = uninstall_deregistrations s1) /\
  (forall v,
     attrs_of s (_registered_host s) !! "uninstall" = Some (AValue v) ->
     uninstall s = (Err (TypeError "object is not callable"), s)).
Proof.
  split; [|split].
  - intros e s1 Hbody He. rewrite uninstall_unfold.
    apply (then_runs_after _ _ s s1 (Err e)).
    unfold uninstall_hook_call, try_except. by rewrite Hbody, He.
  - intros e s1 Hbody He. rewrite uninstall_unfold.
    apply (then_runs_after _ _ s s1 (Ok tt)).
    unfold uninstall_hook_call, try_except. by rewrite Hbody, He.
  - intros v Hattr. rewrite uninstall_unfold.
    apply (then_runs_after _ _ s s (Err (TypeError "object is not callable"))).
    unfold uninstall_hook_call, try_except, uninstall_hook_body,
      registered_host, call_method, getattr, gets, bind.
    by rewrite Hattr.
Qed.

(** *** What every step keeps *)

Section Invariant.

(** A property as in [stable_step], which moreover allows an existing
    object to become the host. *)
Variable P : state -> Prop.
Hypothesis P_wf : forall s, P s -> wf s.
Hypothesis P_log : forall f s, P s -> P (set_log f s).
Hypothesis P_env : forall w s, P s -> P (set_env w s).
Hypothesis P_api : forall a s, P s -> P (set_api a s).
Hypothesis P_write :
  forall l xs s, P s -> is_Some (lists s !! l) -> P (set_lists <[l := xs]> s).
Hypothesis P_alloc_list : forall xs, preserves P (alloc_list xs).
Hypothesis P_alloc_object : forall o, preserves P (alloc_object o).
Hypothesis P_host :
  forall h s, P s -> is_Some (objects s !! h) -> P (set_registered_host h s).

Lemma invariant_register_host host : preserves P (register_host host).
Proof.
  intros s Hs. rewrite register_host_unfold.
  destruct (missing_members s host) as [|m ms] eqn:Hmiss; [|done].
  apply P_host; [done|].
  destruct (objects s !! host) as [o|] eqn:Ho; [by eexists|].
  exfalso.
  assert (Hin : "root" ∈ missing_members s host).
  { unfold missing_members. apply list_elem_of_filter. split; [|by left].
    unfold attrs_of. by rewrite Ho. }
  rewrite Hmiss in Hin. by apply elem_of_nil in Hin.
Qed.

Lemma invariant_deregister_host : preserves P deregister_host.
Proof.
  intros s Hs. apply P_host; [by apply P_alloc_object|].
  simpl. rewrite lookup_insert_eq. by eexists.
Qed.

Lemma invariant_install host : preserves P (install host).
Proof.
  apply preserves_bind; [apply preserves_gets | intros b].
  apply preserves_bind.
  { destruct b; [|apply preserves_ret].
    apply preserves_bind; [by apply stable_call_method|].
    intros; apply preserves_ret. }
  intros _. apply preserves_bind; [apply invariant_register_host | intros _].
  apply preserves_bind; [by apply stable_api_call | intros _].
  apply preserves_bind; [by apply stable_register_default_data | intros _].
  apply preserves_bind; [by apply stable_register_default_families|].
  intros _. by apply stable_log_info.
Qed.

Lemma invariant_uninstall : preserves P uninstall.
Proof.
  apply preserves_bind.
  { apply preserves_try; [|intros; apply preserves_ret].
    apply preserves_bind; [apply preserves_gets | intros h].
    apply preserves_bind; [by apply stable_call_method|].
    intros; apply preserves_ret. }
  intros _. apply preserves_bind; [apply invariant_deregister_host|].
  intros _. by apply stable_uninstall_tail.
Qed.

Lemma invariant_step (a : action) (s : state) : P s -> P (step a s).
Proof.
  intros Hs.
  destruct a; try (by apply (stable_step P)); simpl.
  - by apply invariant_install.
  - by apply invariant_uninstall.
  - by apply invariant_register_host.
  - by apply invariant_deregister_host.
Qed.

Lemma invariant_run (acts : list action) (s : state) : P s -> P (run acts s).
Proof.
  revert s. induction acts as [|a acts IH]; intros s Hs; [done|].
  apply (IH (step a s)). by apply invariant_step.
Qed.

End Invariant.

(** X8: the module never rebinds its registries: whatever the program
    does ([install], [uninstall], registrations, deregistrations, changes
    of lists it was handed, calls of the host), [_registered_data],
    [_registered_families] and [_registered_formats] remain the same three
    list objects, and every global refers to an existing object; just after
    the import the three lists are distinct. *)
Theorem registries_never_rebound :
  (forall (s0 : state) (acts : list action),
     wf s0 ->
     wf (run acts s0) /\
     _registered_data (run acts s0) = _registered_data s0 /\
     _registered_families (run acts s0) = _registered_families s0 /\
     _registered_formats (run acts s0) = _registered_formats s0) /\
  (forall (w : world) (a : ApiState),
     wf (initial_state w a) /\ distinct_registries (initial_state w a)).
Proof.
  split.
  - intros s0 acts Hwf.
    apply (invariant_run
             (fun s => wf s /\
                       _registered_data s = _registered_data s0 /\
                       _registered_families s = _registered_families s0 /\
                       _registered_formats s = _registered_formats s0));
      try done.
    + by intros s [? _].
    + intros l xs s [Hs Hregs] Hin. split; [by apply wf_write | done].
    + intros xs s [Hs Hregs]. split; [by apply wf_alloc_list | done].
    + intros o s [Hs Hregs]. split; [by apply wf_alloc_object | done].
    + intros h s [Hs Hregs] Hin.
      split; [by apply wf_set_registered_host | done].
  - intros w a. split; [apply wf_initial_state | done].
Qed.

(** X9: the default host meets the interface that [register_host]
    demands, and [deregister_host] is the registration of a new default
    host: it does what [register_host(default_host())] does. *)
Theorem deregister_host_registers_default (s : state) :
  deregister_host s = (h <- default_host ;; register_host h) s /\
  exists h s1,
    default_host s = (Ok h, s1) /\
    missing_members s1 h = [] /\
    register_host h s1 = (Ok tt, set_registered_host h s1).
Proof.
  assert (Hmiss : missing_members (default_host s).2 (next_loc s) = []).
  { unfold missing_members, attrs_of. simpl. rewrite lookup_insert_eq.
    destruct default_module_members as (Hroot & Hload & Hcreate).
    unfold required_members. rewrite !filter_cons, filter_nil.
    by rewrite Hroot, Hload, Hcreate. }
  assert (Hreg : register_host (next_loc s) (default_host s).2
                 = (Ok tt, set_registered_host (next_loc s) (default_host s).2)).
  { by rewrite register_host_unfold, Hmiss. }
  split.
  - rewrite (bind_ok _ _ s (default_host s).2 (next_loc s)) by reflexivity.
    by rewrite Hreg.
  - by exists (next_loc s), (default_host s).2.
Qed.

(** X10: the default host that [deregister_host] installs is a new
    object each time: it is none of the objects that existed, in
    particular not the outgoing host, even when that one was a default
    host too, and the outgoing host object is left as it was. *)
Theorem deregister_host_fresh_object (s : state) :
  wf s ->
  exists h s',
    deregister_host s = (Ok tt, s') /\
    registered_host s' = (Ok h, s') /\
    objects s !! h = None /\
    h <> _registered_host s /\
    objects s' !! h = Some default_module /\
    forall l, l <> h -> objects s' !! l = objects s !! l.
Proof.
  intros (_ & Hobjs & _ & _ & _ & Hhost).
  assert (Hnone : objects s !! next_loc s = None).
  { destruct (objects s !! next_loc s) eqn:E; [|done].
    assert (next_loc s < next_loc s)%positive by (apply Hobjs; eauto). lia. }
  exists (next_loc s). eexists. split; [reflexivity|]. split; [reflexivity|].
  split; [done|]. split.
  { intros Heq. rewrite <- Heq in Hhost. rewrite Hnone in Hhost.
    by destruct Hhost. }
  split; [simpl; apply lookup_insert_eq|].
  intros l Hne. simpl. by rewrite lookup_insert_ne.
Qed.

End Extras.

End StarterExtras.

(** ** The listing of assets *)

Module ListingFacts.
Import Starter Listing StarterFacts.

Section Facts.

Context `{pyblish_api} `{surroundings}.

(** *** The log *)

Lemma warned_refl (s : state) : warned s s.
Proof.
  exists []. split; [|constructor]. destruct s. unfold set_log. simpl.
  by rewrite app_nil_r.
Qed.

Lemma warned_trans (s1 s2 s3 : state) :
  warned s1 s2 -> warned s2 s3 -> warned s1 s3.
Proof.
  intros (ws1 & -> & H1) (ws2 & -> & H2). exists (ws1 ++ ws2). split.
  - unfold set_log. simpl. by rewrite app_assoc.
  - by apply Forall_app.
Qed.

Lemma warned_log_warning (msg : string) (s : state) :
  warned s (lift (log_warning msg) s).2.
Proof.
  exists [("WARNING", msg)]. split; [done|]. by repeat constructor.
Qed.

Lemma only_warns_ret {A} (a : A) : only_warns (ret a).
Proof. intros s. apply warned_refl. Qed.

Lemma only_warns_raise {A} (e : ls_exn) : only_warns (raise (A := A) e).
Proof. intros s. apply warned_refl. Qed.

Lemma only_warns_outside {A} (r : result ls_exn A) : only_warns (outside r).
Proof. intros s. apply warned_refl. Qed.

Lemma only_warns_bind {A B} (m : M state ls_exn A) (k : A -> M state ls_exn B) :
  only_warns m -> (forall a, only_warns (k a)) -> only_warns (bind m k).
Proof.
  intros Hm Hk s. unfold bind. specialize (Hm s).
  destruct (m s) as [[a|e] s1]; [|done].
  eapply warned_trans; [exact Hm | apply Hk].
Qed.

Lemma only_warns_try {A} (m : M state ls_exn A) (handles : ls_exn -> bool)
    (h : ls_exn -> M state ls_exn A) :
  only_warns m -> (forall e, only_warns (h e)) ->
  only_warns (try_except m handles h).
Proof.
  intros Hm Hh s. unfold try_except. specialize (Hm s).
  destruct (m s) as [[a|e] s1]; [done|].
  destruct (handles e); [|done].
  eapply warned_trans; [exact Hm | apply Hh].
Qed.

Lemma only_warns_for_each {A B} (xs : list A)
    (body : B -> A -> M state ls_exn B) (acc : B) :
  (forall acc x, only_warns (body acc x)) ->
  only_warns (for_each xs body acc).
Proof.
  intros Hbody. revert acc. induction xs as [|x xs IH]; intros acc.
  - apply only_warns_ret.
  - apply only_warns_bind; [apply Hbody | apply IH].
Qed.

Lemma only_warns_dict_get (data : pyval) (key : string) :
  only_warns (dict_get data key).
Proof. intros s. destruct data; apply warned_refl. Qed.

Lemma only_warns_getitem (v : pyval) (key : string) :
  only_warns (getitem v key).
Proof.
  intros s. destruct v as [| | | |d]; try apply warned_refl.
  simpl. destruct (dict_lookup d key); apply warned_refl.
Qed.

Lemma only_warns_read_version (versionsdir version : string) :
  only_warns (read_version versionsdir version).
Proof.
  apply only_warns_bind.
  - apply only_warns_try.
    + apply only_warns_bind; [apply only_warns_outside|].
      intros; apply only_warns_ret.
    + intros e. apply only_warns_bind; [|intros; apply only_warns_ret].
      intros s. apply warned_log_warning.
  - intros [data|]; [|apply only_warns_ret].
    apply only_warns_bind; [apply only_warns_dict_get | intros schema].
    destruct (differs_from schema version_schema); [|apply only_warns_ret].
    apply only_warns_bind; [|intros; apply only_warns_ret].
    intros s. apply warned_log_warning.
Qed.

Lemma only_warns_read_asset (assetsdir asset : string) :
  only_warns (read_asset assetsdir asset).
Proof.
  apply only_warns_bind; [apply only_warns_outside | intros names].
  apply only_warns_bind.
  { apply only_warns_for_each. intros acc version.
    apply only_warns_bind; [apply only_warns_read_version|].
    intros; apply only_warns_ret. }
  intros versions. apply only_warns_bind.
  { apply only_warns_for_each. intros acc v.
    apply only_warns_bind; [apply only_warns_getitem|].
    intros; apply only_warns_ret. }
  intros keyed. apply only_warns_bind; [apply only_warns_outside|].
  intros; apply only_warns_ret.
Qed.

Lemma warned_ls_assets (assetsdir : string) (assets : list string)
    (s : state) :
  warned s (ls_assets assetsdir assets s).2.
Proof.
  revert s. induction assets as [|asset assets IH]; intros s.
  - apply warned_refl.
  - cbn [ls_assets]. pose proof (only_warns_read_asset assetsdir asset s) as Hr.
    destruct (read_asset assetsdir asset s) as [[entry|e] s1]; [|done].
    specialize (IH s1).
    destruct (ls_assets assetsdir assets s1) as [[yielded outcome] s2].
    eapply warned_trans; [exact Hr | exact IH].
Qed.

(** What [ls] does before its loop, case by case. *)
Lemma ls_start_cases (s : state) :
  ls_start s
  = match (h <- registered_host ;; call_method h "root" []) s with
    | (Err e, s1) => (Err (Other e), s1)
    | (Ok root, s1) =>
        match format_shared_dir root with
        | Err e => (Err e, s1)
        | Ok assetsdir =>
            match listdir assetsdir with
            | Err e => (Err e, s1)
            | Ok assets => (Ok (assetsdir, assets), s1)
            end
        end
    end.
Proof.
  unfold ls_start, lift, outside.
  set (rc := (h <- registered_host ;; call_method h "root" []) s).
  unfold bind at 1. fold rc. destruct rc as [[root|e] s1]; [|done].
  unfold bind at 1. destruct (format_shared_dir root) as [dir|e]; [|done].
  unfold bind at 1. by destruct (listdir dir).
Qed.

(** X14: [ls] only reads: apart from what the [root()] of the host does,
    it changes nothing but the log, to which it only adds warnings; the
    host, the registries and their lists are as before, whether [ls] comes
    to its end or raises. *)
Theorem ls_only_warns (s : state) :
  warned ((h <- registered_host ;; call_method h "root" []) s).2 (ls s).2.
Proof.
  unfold ls. rewrite ls_start_cases.
  destruct ((h <- registered_host ;; call_method h "root" []) s)
    as [[root|e] s1]; [|apply warned_refl].
  destruct (format_shared_dir root) as [assetsdir|e]; [|apply warned_refl].
  destruct (listdir assetsdir) as [assets|e]; [|apply warned_refl].
  apply warned_ls_assets.
Qed.

(** *** One version *)

(** What [read_version] returns or raises, read off the metadata file. *)
Lemma read_version_result (versionsdir version : string) (s : state) :
  (read_version versionsdir version s).1
  = match open_json
            (path_join (path_join versionsdir version) ".metadata.json") with
    | Err e => if is_IOError e then Ok None else Err e
    | Ok (VDict d) =>
        if differs_from (default VNone (dict_lookup d "schema")) version_schema
        then Ok None else Ok (Some (VDict d))
    | Ok _ => Err (Other (AttributeError "get"))
    end.
Proof.
  unfold read_version, bind, try_except, outside, ret.
  destruct (open_json _) as [data|e]; simpl.
  - destruct data as [| | | |d]; try done. simpl.
    by destruct (differs_from _ _).
  - by destruct (is_IOError e).
Qed.



Lemma read_version_benign (versionsdir version : string) (s : state) :
  benign_version versionsdir version ->
  (read_version versionsdir version s).1
  = Ok (version_of versionsdir version).
Proof.
  rewrite read_version_result. unfold benign_version, version_of.
  destruct (open_json _) as [[| | | |d]|e]; try done.
  - intros _. by destruct (differs_from _ _).
  - by intros ->.
Qed.

Lemma version_of_numbered (versionsdir version : string) (v : pyval) :
  benign_version versionsdir version ->
  version_of versionsdir version = Some v ->
  is_Some (version_number v).
Proof.
  unfold benign_version, version_of.
  destruct (open_json _) as [[| | | |d]|e]; try done.
  destruct (differs_from _ _); [done|]. intros Hb [= <-]. by apply Hb.
Qed.

(** *** The versions of one asset *)

(** The loop over the versions keeps the good ones, in listing order. *)
Lemma versions_benign (versionsdir : string) (names : list string)
    (acc : list pyval) (s : state) :
  Forall (benign_version versionsdir) names ->
  (for_each names
     (fun versions version =>
        read <- read_version versionsdir version ;;
        ret (match read with
             | Some data => versions ++ [data]
             | None => versions
             end))
     acc s).1
  = Ok (acc ++ kept_versions versionsdir names).
Proof.
  intros Hall. revert acc s.
  induction Hall as [|version names Hb Hall IH]; intros acc s.
  - simpl. by rewrite app_nil_r.
  - cbn [for_each]. unfold bind at 1. unfold bind at 1.
    pose proof (read_version_benign versionsdir version s Hb) as Hr.
    destruct (read_version versionsdir version s) as [r s1].
    simpl in Hr. subst r. unfold ret at 1. rewrite IH.
    unfold kept_versions. cbn [omap list_omap].
    destruct (version_of versionsdir version) as [v|]; [|done].
    by rewrite <- app_assoc.
Qed.



Lemma keys_numbered (versions : list pyval) (keyed : list (pyval * pyval))
    (s : state) :
  Forall (fun v => is_Some (version_number v)) versions ->
  (for_each versions
     (fun keyed v => k <- getitem v "version" ;; ret (keyed ++ [(k, v)]))
     keyed s).1
  = Ok (keyed ++
        map (fun kv : Z * pyval => (VInt kv.1, kv.2))
          (omap (fun v => z ← version_number v; Some (z, v)) versions)).
Proof.
  intros Hall. revert keyed s.
  induction Hall as [|v versions [z Hz] Hall IH]; intros keyed s.
  - simpl. by rewrite app_nil_r.
  - cbn [for_each]. unfold bind at 1. unfold bind at 1.
    assert (Hg : getitem v "version" s = (Ok (VInt z), s)).
    { unfold version_number in Hz. destruct v as [| | | |d]; try done.
      simpl. by destruct (dict_lookup d "version") as [[]|]; simplify_eq. }
    rewrite Hg. unfold ret at 1. rewrite IH.
    cbn [omap list_omap]. rewrite Hz. simpl. by rewrite <- app_assoc.
Qed.

Lemma kept_versions_numbered (versionsdir : string) (names : list string) :
  Forall (benign_version versionsdir) names ->
  Forall (fun v => is_Some (version_number v))
    (kept_versions versionsdir names).
Proof.
  intros Hall. induction Hall as [|version names Hb Hall IH]; [constructor|].
  unfold kept_versions. cbn [omap list_omap].
  destruct (version_of versionsdir version) as [v|] eqn:Hv; [|exact IH].
  constructor; [|exact IH]. by eapply version_of_numbered.
Qed.

(** The entry of an asset whose metadata files are benign. *)
Lemma read_asset_benign (assetsdir asset : string) (s : state) :
  benign_asset assetsdir asset ->
  (read_asset assetsdir asset s).1 = Ok (expected_entry assetsdir asset).
Proof.
  intros (names & Hnames & Hall).
  unfold read_asset, expected_entry, listing. rewrite Hnames.
  unfold bind at 1, outside. unfold bind at 1.
  pose proof (versions_benign (path_join assetsdir asset) names [] s Hall)
    as Hv.
  destruct (for_each names _ [] s) as [r s1]. simpl in Hv. subst r.
  unfold bind at 1.
  pose proof (keys_numbered (kept_versions (path_join assetsdir asset) names)
                [] s1 (kept_versions_numbered _ _ Hall)) as Hk.
  destruct (for_each (kept_versions _ names) _ [] s1) as [r s2].
  simpl in Hk. subst r.
  unfold bind at 1. rewrite sort_by_key_ints. done.
Qed.


(** *** The sort *)

Lemma insert_by_key_permutes (k : Z) (x : pyval) (l : list (Z * pyval)) :
  insert_by_key k x l ≡ₚ (k, x) :: l.
Proof.
  induction l as [|[k' x'] l IH]; simpl; [done|].
  destruct (k <=? k')%Z; [done|]. rewrite IH. apply Permutation_swap.
Qed.

Lemma sort_by_int_key_permutes (l : list (Z * pyval)) :
  sort_by_int_key l ≡ₚ l.
Proof.
  induction l as [|[k x] l IH]; simpl; [done|].
  by rewrite insert_by_key_permutes, IH.
Qed.

Lemma insert_by_key_sorted (k : Z) (x : pyval) (l : list (Z * pyval)) :
  StronglySorted (fun a b : Z * pyval => (a.1 <= b.1)%Z) l ->
  StronglySorted (fun a b : Z * pyval => (a.1 <= b.1)%Z) (insert_by_key k x l).
Proof.
  induction l as [|[k' x'] l IH]; intros Hs; simpl.
  - repeat constructor.
  - apply StronglySorted_inv in Hs as [Hs Hall].
    destruct (k <=? k')%Z eqn:Hle.
    + apply Z.leb_le in Hle. constructor.
      * by constructor.
      * constructor; [simpl; lia|].
        eapply Forall_impl; [exact Hall|]. simpl. intros [k2 x2]. simpl. lia.
    + apply Z.leb_gt in Hle. constructor; [by apply IH|].
      rewrite insert_by_key_permutes. constructor; [simpl; lia | done].
Qed.

(** The sort is stable: the items of any one key are in the order they
    had. *)
Lemma insert_by_key_same_key (k z : Z) (x : pyval) (l : list (Z * pyval)) :
  filter (fun kv : Z * pyval => kv.1 = z) (insert_by_key k x l)
  = filter (fun kv : Z * pyval => kv.1 = z) ((k, x) :: l).
Proof.
  induction l as [|[k' x'] l IH]; simpl; [done|].
  destruct (k <=? k')%Z eqn:Hle; [done|]. apply Z.leb_gt in Hle.
  rewrite (filter_cons _ (k', x')), IH, !filter_cons. simpl.
  destruct (decide (k' = z)) as [->|Hk'], (decide (k = z)) as [->|Hk];
    try done.
  lia.
Qed.

Lemma sort_by_int_key_stable (z : Z) (l : list (Z * pyval)) :
  filter (fun kv : Z * pyval => kv.1 = z) (sort_by_int_key l)
  = filter (fun kv : Z * pyval => kv.1 = z) l.
Proof.
  induction l as [|[k x] l IH]; simpl; [done|].
  rewrite insert_by_key_same_key, !filter_cons. simpl. by rewrite IH.
Qed.

Lemma sort_by_int_key_sorted (l : list (Z * pyval)) :
  StronglySorted (fun a b : Z * pyval => (a.1 <= b.1)%Z) (sort_by_int_key l).
Proof.
  induction l as [|[k x] l IH]; simpl; [constructor|].
  by apply insert_by_key_sorted.
Qed.

Lemma numbered_items (versions : list pyval) :
  Forall (fun v => is_Some (version_number v)) versions ->
  (omap (fun v => z ← version_number v; Some (z, v)) versions).*2 = versions /\
  Forall (fun kv : Z * pyval => version_number kv.2 = Some kv.1)
    (omap (fun v => z ← version_number v; Some (z, v)) versions).
Proof.
  intros Hall. induction Hall as [|v versions [z Hz] Hall [IH1 IH2]].
  - split; [done | constructor].
  - cbn [omap list_omap]. rewrite Hz. simpl. split; [by f_equal|].
    by constructor.
Qed.

Lemma sorted_by_version (zs : list (Z * pyval)) :
  Forall (fun kv : Z * pyval => version_number kv.2 = Some kv.1) zs ->
  StronglySorted (fun a b : Z * pyval => (a.1 <= b.1)%Z) zs ->
  StronglySorted version_le zs.*2.
Proof.
  intros Hnum Hs. induction Hs as [|kv zs Hs IH Hall]; [constructor|].
  apply Forall_cons in Hnum as [Hkv Hnum]. simpl. constructor; [by apply IH|].
  apply Forall_fmap. rewrite Forall_forall in Hall, Hnum |- *.
  intros kv' Hin. exists kv.1, kv'.1. split; [done|]. split; [by apply Hnum|].
  by apply Hall.
Qed.

Lemma filter_by_version (z : Z) (l : list (Z * pyval)) :
  Forall (fun kv : Z * pyval => version_number kv.2 = Some kv.1) l ->
  filter (fun v => version_number v = Some z) l.*2
  = (filter (fun kv : Z * pyval => kv.1 = z) l).*2.
Proof.
  intros Hall. induction Hall as [|[k v] l Hkv Hall IH]; [done|].
  simpl in Hkv. cbn [fmap list_fmap]. simpl.
  rewrite !filter_cons, IH. simpl. rewrite Hkv.
  destruct (decide (k = z)) as [->|Hne].
  - by rewrite decide_True.
  - rewrite decide_False; [done | congruence].
Qed.

(** The versions of a benign directory come out in the order of their
    numbers, none lost and none added, those of equal number in the order
    they had. *)
Lemma sorted_versions_spec (versions : list pyval) :
  Forall (fun v => is_Some (version_number v)) versions ->
  StronglySorted version_le (sorted_versions versions) /\
  sorted_versions versions ≡ₚ versions /\
  forall z,
    filter (fun v => version_number v = Some z) (sorted_versions versions)
    = filter (fun v => version_number v = Some z) versions.
Proof.
  intros Hall. destruct (numbered_items versions Hall) as [Hitems Hnum].
  assert (Hsorted_num :
    Forall (fun kv : Z * pyval => version_number kv.2 = Some kv.1)
      (sort_by_int_key
         (omap (fun v => z ← version_number v; Some (z, v)) versions))).
  { by rewrite sort_by_int_key_permutes. }
  unfold sorted_versions. split; [|split].
  - apply sorted_by_version; [done | apply sort_by_int_key_sorted].
  - rewrite sort_by_int_key_permutes. by rewrite Hitems.
  - intros z. rewrite (filter_by_version z _ Hsorted_num).
    rewrite sort_by_int_key_stable.
    rewrite <- (filter_by_version z _ Hnum). by rewrite Hitems.
Qed.

(** *** The loop over the assets *)

Lemma ls_assets_benign (assetsdir : string) (assets : list string)
    (s : state) :
  Forall (benign_asset assetsdir) assets ->
  (ls_assets assetsdir assets s).1
  = (map (expected_entry assetsdir) assets, Ok tt).
Proof.
  intros Hall. revert s. induction Hall as [|asset assets Hb Hall IH]; intros s.
  - done.
  - cbn [ls_assets]. pose proof (read_asset_benign assetsdir asset s Hb) as Hr.
    destruct (read_asset assetsdir asset s) as [r s1]. simpl in Hr. subst r.
    specialize (IH s1).
    destruct (ls_assets assetsdir assets s1) as [[yielded outcome] s2].
    simpl in IH. by injection IH as -> ->.
Qed.

(** The listing stops at the first asset that raises, having yielded the
    entries of the assets before it. *)
Lemma ls_assets_stops (assetsdir : string) (before after : list string)
    (asset : string) (e : ls_exn) (s : state) :
  Forall (benign_asset assetsdir) before ->
  (forall s, (read_asset assetsdir asset s).1 = Err e) ->
  (ls_assets assetsdir (before ++ asset :: after) s).1
  = (map (expected_entry assetsdir) before, Err e).
Proof.
  intros Hall Hbad. revert s.
  induction Hall as [|first before Hb Hall IH]; intros s.
  - cbn [app ls_assets]. specialize (Hbad s).
    destruct (read_asset assetsdir asset s) as [r s1]. simpl in Hbad.
    by subst r.
  - cbn [app ls_assets].
    pose proof (read_asset_benign assetsdir first s Hb) as Hr.
    destruct (read_asset assetsdir first s) as [r s1]. simpl in Hr. subst r.
    specialize (IH s1).
    destruct (ls_assets assetsdir (before ++ asset :: after) s1)
      as [[yielded outcome] s2].
    simpl in IH. by injection IH as -> ->.
Qed.



Lemma benign_listing (s s1 : state) (root : pyval)
    (assetsdir : string) (assets : list string) :
  (h <- registered_host ;; call_method h "root" []) s = (Ok root, s1) ->
  format_shared_dir root = Ok assetsdir ->
  listdir assetsdir = Ok assets ->
  Forall (benign_asset assetsdir) assets ->
  (ls s).1 = (map (expected_entry assetsdir) assets, Ok tt).
Proof.
  intros Hroot Hdir Hassets Hall.
  unfold ls. rewrite ls_start_cases, Hroot, Hdir, Hassets.
  by apply ls_assets_benign.
Qed.

(** X12: when the metadata files are benign (each one cannot be opened, or
    holds a dictionary that, if it has the version schema, has an integer
    version), [ls] comes to its end without raising and yields, for every
    directory of the shared directory in listing order, the entry with its
    name and the versions kept: those whose file opens and has the version
    schema; a file that cannot be opened or has another schema only costs
    a warning. *)
Theorem ls_lists_benign_assets (s s1 : state) (root : pyval)
    (assetsdir : string) (assets : list string) :
  (h <- registered_host ;; call_method h "root" []) s = (Ok root, s1) ->
  format_shared_dir root = Ok assetsdir ->
  listdir assetsdir = Ok assets ->
  Forall (benign_asset assetsdir) assets ->
  (ls s).1 = (map (expected_entry assetsdir) assets, Ok tt).
Proof.
  intros Hroot Hdir Hassets Hall.
  by apply (benign_listing s s1 root).
Qed.

(** X13: under the same conditions the versions of every entry are in
    ascending order of their version number, and they are exactly the
    versions kept in the directory of the asset, none lost and none
    twice; versions of equal number are in the order of the listing. *)
Theorem ls_versions_sorted (s s1 : state) (root : pyval)
    (assetsdir : string) (assets : list string) :
  (h <- registered_host ;; call_method h "root" []) s = (Ok root, s1) ->
  format_shared_dir root = Ok assetsdir ->
  listdir assetsdir = Ok assets ->
  Forall (benign_asset assetsdir) assets ->
  Forall2
    (fun asset entry =>
       exists versions,
         entry = asset_entry asset versions /\
         StronglySorted version_le versions /\
         versions ≡ₚ kept_versions (path_join assetsdir asset)
                       (listing (path_join assetsdir asset)) /\
         forall z,
           filter (fun v => version_number v = Some z) versions
           = filter (fun v => version_number v = Some z)
               (kept_versions (path_join assetsdir asset)
                  (listing (path_join assetsdir asset))))
    assets (ls s).1.1.
Proof.
  intros Hroot Hdir Hassets Hall.
  rewrite (benign_listing s s1 root assetsdir assets) by done.
  simpl. clear Hassets. induction Hall as [|asset assets Hb Hall IH].
  - constructor.
  - simpl. constructor; [|exact IH].
    destruct Hb as (names & Hnames & Hbenign).
    unfold expected_entry, listing. rewrite Hnames.
    eexists. split; [reflexivity|].
    by apply sorted_versions_spec, kept_versions_numbered.
Qed.

(** *** Where the listing stops *)

Lemma read_version_bad (versionsdir version : string) (e : ls_exn)
    (s : state) :
  bad_metadata versionsdir version e ->
  (read_version versionsdir version s).1 = Err e.
Proof.
  rewrite read_version_result. unfold bad_metadata.
  destruct (open_json _) as [[| | | |d]|e']; try done; try by intros ->.
  by intros [-> ->].
Qed.

Lemma read_version_readable (versionsdir version : string) (s : state) :
  readable_version versionsdir version ->
  (read_version versionsdir version s).1
  = Ok (version_of versionsdir version).
Proof.
  rewrite read_version_result. unfold readable_version, version_of.
  destruct (open_json _) as [[| | | |d]|e]; try done.
  - intros _. by destruct (differs_from _ _).
  - by intros ->.
Qed.

Lemma benign_readable (versionsdir version : string) :
  benign_version versionsdir version -> readable_version versionsdir version.
Proof.
  unfold benign_version, readable_version.
  by destruct (open_json _) as [[| | | |d]|e].
Qed.

Lemma versions_readable (versionsdir : string) (names : list string)
    (acc : list pyval) (s : state) :
  Forall (readable_version versionsdir) names ->
  (for_each names
     (fun versions version =>
        read <- read_version versionsdir version ;;
        ret (match read with
             | Some data => versions ++ [data]
             | None => versions
             end))
     acc s).1
  = Ok (acc ++ kept_versions versionsdir names).
Proof.
  intros Hall. revert acc s.
  induction Hall as [|version names Hb Hall IH]; intros acc s.
  - simpl. by rewrite app_nil_r.
  - cbn [for_each]. unfold bind at 1. unfold bind at 1.
    pose proof (read_version_readable versionsdir version s Hb) as Hr.
    destruct (read_version versionsdir version s) as [r s1].
    simpl in Hr. subst r. unfold ret at 1. rewrite IH.
    unfold kept_versions. cbn [omap list_omap].
    destruct (version_of versionsdir version) as [v|]; [|done].
    by rewrite <- app_assoc.
Qed.

Lemma versions_stop (versionsdir : string) (good rest : list string)
    (version : string) (e : ls_exn) (acc : list pyval) (s : state) :
  Forall (readable_version versionsdir) good ->
  bad_metadata versionsdir version e ->
  (for_each (good ++ version :: rest)
     (fun versions version =>
        read <- read_version versionsdir version ;;
        ret (match read with
             | Some data => versions ++ [data]
             | None => versions
             end))
     acc s).1
  = Err e.
Proof.
  intros Hall Hbad. revert acc s.
  induction Hall as [|first good Hb Hall IH]; intros acc s.
  - cbn [app for_each]. unfold bind at 1. unfold bind at 1.
    pose proof (read_version_bad versionsdir version e s Hbad) as Hr.
    destruct (read_version versionsdir version s) as [r s1].
    simpl in Hr. by subst r.
  - cbn [app for_each]. unfold bind at 1. unfold bind at 1.
    pose proof (read_version_readable versionsdir first s Hb) as Hr.
    destruct (read_version versionsdir first s) as [r s1].
    simpl in Hr. subst r. unfold ret at 1. apply IH.
Qed.

Lemma kept_versions_dicts (versionsdir : string) (names : list string) :
  Forall (fun v => exists d, v = VDict d) (kept_versions versionsdir names).
Proof.
  induction names as [|version names IH]; [constructor|].
  unfold kept_versions. cbn [omap list_omap].
  destruct (version_of versionsdir version) as [v|] eqn:Hv; [|exact IH].
  constructor; [|exact IH]. unfold version_of in Hv.
  destruct (open_json _) as [[| | | |d]|e]; try done.
  destruct (differs_from _ _); [done|]. injection Hv as <-. by exists d.
Qed.

(** A dictionary without ["version"] among the versions kept makes the
    computation of the keys raise [KeyError]. *)
Lemma keys_missing (versions : list pyval) (keyed : list (pyval * pyval))
    (d : list (string * pyval)) (s : state) :
  Forall (fun v => exists d, v = VDict d) versions ->
  VDict d ∈ versions ->
  dict_lookup d "version" = None ->
  (for_each versions
     (fun keyed v => k <- getitem v "version" ;; ret (keyed ++ [(k, v)]))
     keyed s).1
  = Err (KeyError "version").
Proof.
  intros Hall Hin Hnone. revert keyed s.
  induction Hall as [|v versions [d' ->] Hall IH]; intros keyed s.
  - by apply elem_of_nil in Hin.
  - cbn [for_each]. unfold bind at 1. unfold bind at 1. simpl.
    destruct (dict_lookup d' "version") as [k|] eqn:Hk; [|done].
    unfold ret at 1. apply IH.
    apply elem_of_cons in Hin as [Heq|Hin]; [|done].
    injection Heq as ->. congruence.
Qed.

(** X15: [ls] only tolerates a metadata file that cannot be opened. A file
    whose reading raises another exception than [IOError] (invalid JSON),
    or that holds something else than a dictionary, ends the listing: [ls]
    raises that exception, or [AttributeError] for the missing [get],
    having yielded the entries of the assets before that one and no entry
    for the asset itself. *)
Theorem ls_stops_at_bad_metadata (s s1 : state) (root : pyval)
    (assetsdir asset version : string) (before after good rest : list string)
    (e : ls_exn) :
  (h <- registered_host ;; call_method h "root" []) s = (Ok root, s1) ->
  format_shared_dir root = Ok assetsdir ->
  listdir assetsdir = Ok (before ++ asset :: after) ->
  Forall (benign_asset assetsdir) before ->
  listdir (path_join assetsdir asset) = Ok (good ++ version :: rest) ->
  Forall (readable_version (path_join assetsdir asset)) good ->
  bad_metadata (path_join assetsdir asset) version e ->
  (ls s).1 = (map (expected_entry assetsdir) before, Err e).
Proof.
  intros Hroot Hdir Hassets Hbefore Hnames Hgood Hbad.
  unfold ls. rewrite ls_start_cases, Hroot, Hdir, Hassets.
  apply ls_assets_stops; [done|]. intros s0.
  unfold read_asset. rewrite Hnames. unfold bind at 1, outside.
  unfold bind at 1.
  pose proof (versions_stop (path_join assetsdir asset) good rest version e
                [] s0 Hgood Hbad) as Hv.
  destruct (for_each (good ++ version :: rest) _ [] s0) as [r s2].
  simpl in Hv. by subst r.
Qed.

(** X16: a version that [ls] keeps must have a ["version"] key: when the
    metadata files of an asset are readable but one of the dictionaries
    kept has no ["version"], the sort of the versions raises
    [KeyError], and [ls] stops there, having yielded the entries of the
    assets before. *)
Theorem ls_needs_version_key (s s1 : state) (root : pyval)
    (assetsdir asset : string) (before after names : list string)
    (d : list (string * pyval)) :
  (h <- registered_host ;; call_method h "root" []) s = (Ok root, s1) ->
  format_shared_dir root = Ok assetsdir ->
  listdir assetsdir = Ok (before ++ asset :: after) ->
  Forall (benign_asset assetsdir) before ->
  listdir (path_join assetsdir asset) = Ok names ->
  Forall (readable_version (path_join assetsdir asset)) names ->
  VDict d ∈ kept_versions (path_join assetsdir asset) names ->
  dict_lookup d "version" = None ->
  (ls s).1 = (map (expected_entry assetsdir) before, Err (KeyError "version")).
Proof.
  intros Hroot Hdir Hassets Hbefore Hnames Hread Hin Hnone.
  unfold ls. rewrite ls_start_cases, Hroot, Hdir, Hassets.
  apply ls_assets_stops; [done|]. intros s0.
  unfold read_asset. rewrite Hnames. unfold bind at 1, outside.
  unfold bind at 1.
  pose proof (versions_readable (path_join assetsdir asset) names [] s0 Hread)
    as Hv.
  destruct (for_each names _ [] s0) as [r s2]. simpl in Hv. subst r.
  unfold bind at 1.
  pose proof (keys_missing (kept_versions (path_join assetsdir asset) names)
                [] d s2 (kept_versions_dicts _ _) Hin Hnone) as Hk.
  destruct (for_each (kept_versions _ names) _ [] s2) as [r s3].
  simpl in Hk. by subst r.
Qed.

(** X17: [register_host] checks that the members are there, not that they
    can be called: a host whose [root] is plain data is accepted, and [ls]
    then raises [TypeError] at once, without yielding anything and without
    changing anything. *)
Theorem ls_needs_callable_root (s : state) (host : loc) (v : pyval) :
  attrs_of s host !! "root" = Some (AValue v) ->
  is_Some (attrs_of s host !! "load") ->
  is_Some (attrs_of s host !! "create") ->
  exists s1,
    register_host host s = (Ok tt, s1) /\
    ls s1 = (([], Err (Other (TypeError "object is not callable"))), s1).
Proof.
  intros Hroot [l Hload] [c Hcreate].
  assert (Hmiss : missing_members s host = []).
  { unfold missing_members, required_members.
    rewrite !filter_cons, filter_nil. by rewrite Hroot, Hload, Hcreate. }
  exists (set_registered_host host s). split.
  - by rewrite register_host_unfold, Hmiss.
  - unfold ls. rewrite ls_start_cases.
    unfold bind, registered_host, gets, call_method, getattr, bind.
    simpl. change (attrs_of (set_registered_host host s) host)
      with (attrs_of s host). by rewrite Hroot.
Qed.

End Facts.

End ListingFacts.

(** ** The debug host *)

Module DebugFacts.
Import Starter DebugHost StarterFacts.

Section Facts.

Context `{pyblish_api} `{printing}.

Lemma debug_module_members :
  obj_dict debug_module !! "root" = Some (ACallable lambda_root) /\
  obj_dict debug_module !! "load" = Some (ACallable debug_load) /\
  obj_dict debug_module !! "create" = Some (ACallable debug_create).
Proof. by vm_compute. Qed.

(** X18: the debug host meets the interface: [register_host] accepts the
    object that [debug_host] builds. Its [root()] returns the current
    working directory; its [load] takes one to three arguments, [version]
    being -1 and [representation] [None] when left out, and writes the
    JSON text of its arguments and a newline to the standard output; its
    [create] writes the JSON text of its two arguments, without a newline;
    both return what the write returns and change nothing else. *)
Theorem debug_host_usable (s : state) :
  exists h s1,
    debug_host s = (Ok h, s1) /\
    register_host h s1 = (Ok tt, set_registered_host h s1) /\
    let s2 := set_registered_host h s1 in
    let printed text :=
      set_env {| cwd := cwd (env s2); stdout := stdout (env s2) +:+ text |} s2 in
    call_method h "root" [] s2 = (Ok (VStr (cwd (env s2))), s2) /\
    (forall asset,
       call_method h "load" [asset] s2
       = call_method h "load" [asset; VInt (-1); VNone] s2) /\
    (forall asset version,
       call_method h "load" [asset; version] s2
       = call_method h "load" [asset; version; VNone] s2) /\
    (forall asset version representation,
       let text := json_dumps (VDict [("asset", asset); ("version", version);
                                      ("representation", representation)])
                   +:+ newline in
       call_method h "load" [asset; version; representation] s2
       = (Ok (write_result text), printed text)) /\
    (forall name family,
       let text := json_dumps (VDict [("name", name); ("family", family)]) in
       call_method h "create" [name; family] s2
       = (Ok (write_result text), printed text)).
Proof.
  destruct debug_module_members as (Hroot & Hload & Hcreate).
  exists (next_loc s), (debug_host s).2. split; [reflexivity|].
  assert (Hobj : objects (debug_host s).2 !! next_loc s = Some debug_module).
  { simpl. apply lookup_insert_eq. }
  assert (Hattrs : attrs_of (debug_host s).2 (next_loc s)
                   = obj_dict debug_module).
  { unfold attrs_of. by rewrite Hobj. }
  split.
  - rewrite register_host_unfold.
    assert (Hmiss : missing_members (debug_host s).2 (next_loc s) = []).
    { unfold missing_members, required_members. rewrite Hattrs.
      rewrite !filter_cons, filter_nil. by rewrite Hroot, Hload, Hcreate. }
    by rewrite Hmiss.
  - intros s2 printed.
    assert (Hattrs2 : attrs_of s2 (next_loc s) = obj_dict debug_module)
      by exact Hattrs.
    unfold call_method, getattr, bind. rewrite Hattrs2, Hroot, Hload, Hcreate.
    by repeat split.
Qed.

End Facts.

End DebugFacts.

(** ** Concrete runs of the extensions *)

Module ExtraRuns.
Import Starter Defaults Listing Examples ListingExamples.
Import StarterFacts StarterExtras ListingFacts.

Lemma int_keys_ints (kvs : list (Z * pyval)) :
  int_keys (map (fun kv : Z * pyval => (VInt kv.1, kv.2)) kvs) = Some kvs.
Proof.
  induction kvs as [|[z v] kvs IH]; [done|]. simpl. by rewrite IH.
Qed.

Lemma int_keys_items (kvs : list (pyval * pyval)) (zs : list (Z * pyval)) :
  int_keys kvs = Some zs -> zs.*2 = kvs.*2.
Proof.
  revert zs. induction kvs as [|[k v] kvs IH]; intros zs.
  - by intros [= <-].
  - simpl. destruct k as [|z| | |]; try done.
    destruct (int_keys kvs) as [zs'|]; [|done].
    intros [= <-]. simpl. f_equal. by apply IH.
Qed.

(** The surroundings of the demonstration project, for a given reading of
    the files. *)
Lemma demo_surroundings (open : string -> result ls_exn pyval) : surroundings.
Proof.
  refine {| format_shared_dir := demo_format_shared_dir;
            listdir := demo_listdir;
            path_join := demo_path_join;
            open_json := open;
            sort_by_key := demo_sort_by_key |}.
  - intros kvs l. unfold demo_sort_by_key.
    destruct (int_keys kvs) as [zs|] eqn:Hzs; [|done].
    intros [= <-]. rewrite <- (int_keys_items kvs zs Hzs).
    apply fmap_Permutation, sort_by_int_key_permutes.
  - intros kvs. unfold demo_sort_by_key. by rewrite int_keys_ints.
Defined.

(** The listing of the demonstration project. *)
Example ls_demo :
  (@ls list_api (demo_surroundings demo_open_json) fresh).1
  = (demo_listing, Ok tt).
Proof. by vm_compute. Qed.

(** The listing when the metadata of a version of [hero] cannot be
    parsed: the entry of [tree], which comes before, then the exception. *)
Example ls_broken_demo :
  (@ls list_api (demo_surroundings broken_open_json) fresh).1
  = ([asset_entry "tree"
        [demo_version 1 "sapling"; demo_version 2 "birch";
         demo_version 2 "oak"]],
     Err (Other (ValueError "No JSON object could be decoded"))).
Proof. by vm_compute. Qed.

(** Versions of equal number keep the order they are read in. *)
Example sort_keeps_ties :
  (sort_by_int_key
     [(2%Z, VStr "b"); (1%Z, VStr "x"); (2%Z, VStr "a"); (1%Z, VStr "y")]).*2
  = [VStr "x"; VStr "y"; VStr "b"; VStr "a"].
Proof. by vm_compute. Qed.

Lemma deregister_default_clears_registry_witness :
  (exists l s1 s2,
     @registered_data list_api registered_state = (Ok l, s1) /\
     deregister_default_data s1 = (Ok tt, s2) /\
     _registered_data s2 = _registered_data registered_state /\
     list_items s2 (_registered_data s2) = [] /\
     list_items s2 l
     = list_items registered_state (_registered_data registered_state)) /\
  (exists l s1 s2,
     @registered_families list_api registered_state = (Ok l, s1) /\
     deregister_default_families s1 = (Ok tt, s2) /\
     _registered_families s2 = _registered_families registered_state /\
     list_items s2 (_registered_families s2) = [] /\
     list_items s2 l
     = list_items registered_state (_registered_families registered_state)).
Proof.
  apply (@deregister_default_clears_registry list_api).
  apply wf_run, wf_initial_state.
Defined.

(** [uninstall] with a host whose hook writes to the standard output:
    the hook has run, the formats are kept and the other registries are
    empty. *)
Lemma uninstall_registries_witness :
  list_items (@uninstall list_api hosted_state).2
    (_registered_formats (@uninstall list_api hosted_state).2)
  = list_items (set_env {| cwd := "/projects/demo"; stdout := "goodbye" |}
                  hosted_state)
      (_registered_formats
         (set_env {| cwd := "/projects/demo"; stdout := "goodbye" |}
            hosted_state)) /\
  ((@uninstall list_api hosted_state).1 = Ok tt ->
   list_items (@uninstall list_api hosted_state).2
     (_registered_data (@uninstall list_api hosted_state).2) = [] /\
   list_items (@uninstall list_api hosted_state).2
     (_registered_families (@uninstall list_api hosted_state).2) = []).
Proof.
  apply (@uninstall_registries list_api hosted_state
           (set_env {| cwd := "/projects/demo"; stdout := "goodbye" |}
              hosted_state) (Ok tt)).
  - reflexivity.
  - by repeat split.
Defined.

Example uninstall_demo :
  (@uninstall list_api hosted_state).1 = Ok tt /\
  stdout (env (@uninstall list_api hosted_state).2) = "goodbye" /\
  list_items hosted_state (_registered_formats hosted_state) = [VStr ".ma"] /\
  list_items hosted_state (_registered_data hosted_state) = default_data /\
  list_items (@uninstall list_api hosted_state).2
    (_registered_formats (@uninstall list_api hosted_state).2) = [VStr ".ma"] /\
  list_items (@uninstall list_api hosted_state).2
    (_registered_data (@uninstall list_api hosted_state).2) = [].
Proof. by vm_compute. Qed.

Lemma install_runs_hook_first_witness :
  (forall e,
     (Ok tt : result exn unit) = Err e ->
     @install list_api 5%positive (with_object hooked_host_without_create)
     = (Err e,
        set_env {| cwd := "/projects/demo"; stdout := "hello" |}
          (with_object hooked_host_without_create))) /\
  ((Ok tt : result exn unit) = Ok tt ->
   (exists member,
      member ∈ required_members /\
      attrs_of (set_env {| cwd := "/projects/demo"; stdout := "hello" |}
                  (with_object hooked_host_without_create)) 5%positive
        !! member = None) ->
   exists msg,
     @install list_api 5%positive (with_object hooked_host_without_create)
     = (Err (AssertionError msg),
        set_env {| cwd := "/projects/demo"; stdout := "hello" |}
          (with_object hooked_host_without_create))).
Proof.
  apply (@install_runs_hook_first list_api
           (with_object hooked_host_without_create)
           (set_env {| cwd := "/projects/demo"; stdout := "hello" |}
              (with_object hooked_host_without_create))
           5%positive (Ok tt)).
  reflexivity.
Defined.

(** [install] of a host whose hook raises: the exception comes out, the
    hook has written, and nothing is registered. *)
Example install_refused :
  (@install list_api 5%positive (with_object refusing_host)).1
  = Err (Exception "no licence") /\
  (@install list_api 5%positive (with_object refusing_host)).2
  = set_env {| cwd := "/projects/demo"; stdout := "checking" |}
      (with_object refusing_host).
Proof. by vm_compute. Qed.

(** [uninstall] with a host whose hook raises: the exception comes out and
    the host stays the active host. *)
Example uninstall_refused :
  let s := (@register_host list_api 5%positive
              (with_object refusing_host)).2 in
  (@uninstall list_api s).1 = Err (Exception "no licence") /\
  _registered_host (@uninstall list_api s).2 = 5%positive /\
  (@uninstall list_api s).2
  = set_env {| cwd := "/projects/demo"; stdout := "checking" |} s.
Proof. by vm_compute. Qed.

Lemma install_registers_everything_witness :
  exists s',
    @install list_api 5%positive (with_object hooked_host) = (Ok tt, s') /\
    registered_host s' = (Ok 5%positive, s') /\
    env s' = {| cwd := "/projects/demo"; stdout := "hello" |} /\
    objects s' = objects (with_object hooked_host) /\
    api s' = ["pyblish_starter/plugins"] /\
    list_items s' (_registered_data s')
    = list_items (with_object hooked_host)
        (_registered_data (with_object hooked_host)) ++ default_data /\
    list_items s' (_registered_families s')
    = list_items (with_object hooked_host)
        (_registered_families (with_object hooked_host))
      ++ default_families /\
    list_items s' (_registered_formats s')
    = list_items (with_object hooked_host)
        (_registered_formats (with_object hooked_host)) /\
    log s' = log (with_object hooked_host)
             ++ [("INFO", "Successfully installed Pyblish Starter!")].
Proof.
  apply (@install_registers_everything list_api (with_object hooked_host)
           (set_env {| cwd := "/projects/demo"; stdout := "hello" |}
              (with_object hooked_host))
           5%positive ["pyblish_starter/plugins"]).
  - reflexivity.
  - by repeat split.
  - intros member Hmem. unfold required_members in Hmem.
    repeat (apply elem_of_cons in Hmem as [->|Hmem]; [by eexists|]).
    by apply elem_of_nil in Hmem.
  - reflexivity.
Defined.

Lemma deregister_host_fresh_object_witness :
  exists h s',
    @deregister_host list_api fresh = (Ok tt, s') /\
    registered_host s' = (Ok h, s') /\
    objects fresh !! h = None /\
    h <> _registered_host fresh /\
    objects s' !! h = Some default_module /\
    forall l, l <> h -> objects s' !! l = objects fresh !! l.
Proof.
  apply (@deregister_host_fresh_object list_api). apply wf_initial_state.
Defined.

Lemma ls_lists_benign_assets_witness :
  (@ls list_api (demo_surroundings demo_open_json) fresh).1
  = (map (@expected_entry (demo_surroundings demo_open_json)
            "/projects/demo/shared") ["tree"; "hero"; "prop"],
     Ok tt).
Proof.
  apply (@ls_lists_benign_assets list_api (demo_surroundings demo_open_json)
           fresh fresh (VStr "/projects/demo")); try reflexivity.
  repeat constructor.
  - eexists. split; [reflexivity|].
    repeat constructor; try reflexivity; intros _; by eexists.
  - eexists. split; [reflexivity|].
    repeat constructor; try reflexivity; intros _; by eexists.
  - eexists. split; [reflexivity|]. constructor.
Defined.

Lemma ls_versions_sorted_witness :
  Forall2
    (fun asset entry =>
       exists versions,
         entry = asset_entry asset versions /\
         StronglySorted version_le versions /\
         versions ≡ₚ @kept_versions (demo_surroundings demo_open_json)
                       (demo_path_join "/projects/demo/shared" asset)
                       (@listing (demo_surroundings demo_open_json)
                          (demo_path_join "/projects/demo/shared" asset)) /\
         forall z,
           filter (fun v => version_number v = Some z) versions
           = filter (fun v => version_number v = Some z)
               (@kept_versions (demo_surroundings demo_open_json)
                  (demo_path_join "/projects/demo/shared" asset)
                  (@listing (demo_surroundings demo_open_json)
                     (demo_path_join "/projects/demo/shared" asset))))
    ["tree"; "hero"; "prop"]
    (@ls list_api (demo_surroundings demo_open_json) fresh).1.1.
Proof.
  apply (@ls_versions_sorted list_api (demo_surroundings demo_open_json)
           fresh fresh (VStr "/projects/demo")); try reflexivity.
  repeat constructor.
  - eexists. split; [reflexivity|].
    repeat constructor; try reflexivity; intros _; by eexists.
  - eexists. split; [reflexivity|].
    repeat constructor; try reflexivity; intros _; by eexists.
  - eexists. split; [reflexivity|]. constructor.
Defined.

Lemma ls_stops_at_bad_metadata_witness :
  (@ls list_api (demo_surroundings broken_open_json) fresh).1
  = (map (@expected_entry (demo_surroundings broken_open_json)
            "/projects/demo/shared") ["tree"],
     Err (Other (ValueError "No JSON object could be decoded"))).
Proof.
  apply (@ls_stops_at_bad_metadata list_api
           (demo_surroundings broken_open_json) fresh fresh
           (VStr "/projects/demo") "/projects/demo/shared" "hero" "v002"
           ["tree"] ["prop"] ["v003"; "v001"; "tmp"] ["old"]);
    try reflexivity.
  - repeat constructor. eexists. split; [reflexivity|].
    repeat constructor; try reflexivity; intros _; by eexists.
  - repeat constructor.
  - by split.
Defined.

Lemma ls_needs_version_key_witness :
  (@ls list_api (demo_surroundings keyless_open_json) fresh).1
  = (map (@expected_entry (demo_surroundings keyless_open_json)
            "/projects/demo/shared") ["tree"],
     Err (KeyError "version")).
Proof.
  apply (@ls_needs_version_key list_api
           (demo_surroundings keyless_open_json) fresh fresh
           (VStr "/projects/demo") "/projects/demo/shared" "hero"
           ["tree"] ["prop"] ["v003"; "v001"; "tmp"; "v002"; "old"]
           [("schema", VStr version_schema)]);
    try reflexivity.
  - repeat constructor. eexists. split; [reflexivity|].
    repeat constructor; try reflexivity; intros _; by eexists.
  - repeat constructor.
  - vm_compute. do 2 right. left.
Defined.

Lemma ls_needs_callable_root_witness :
  exists s1,
    @register_host list_api 5%positive (with_object host_with_data_root)
    = (Ok tt, s1) /\
    @ls list_api (demo_surroundings demo_open_json) s1
    = (([], Err (Other (TypeError "object is not callable"))), s1).
Proof.
  apply (@ls_needs_callable_root list_api (demo_surroundings demo_open_json)
           (with_object host_with_data_root) 5%positive
           (VStr "/projects/demo")).
  - reflexivity.
  - by eexists.
  - by eexists.
Defined.

End ExtraRuns.
